(** * OPC-UA connector of the ThingsBoard gateway: a shallow embedding

    The development follows
    [thingsboard_gateway/connectors/opcua/opcua_connector.py].  Python values
    are modelled as the code uses them: [str] as [string], lists as [list],
    dictionaries with a fixed set of keys as records whose optional keys are
    [option] fields, exceptions as an inductive type carried by a result
    type, and the connector object as an explicit state that every
    coroutine threads through, together with a trace of the calls it issues
    to the protocol client and to the gateway. *)

From Stdlib Require Import String Ascii List ZArith Lia Bool Arith Permutation.
From Stdlib Require Decimal DecimalNat DecimalString.
Import ListNotations.

Local Open Scope string_scope.
Local Open Scope list_scope.

Set Implicit Arguments.

(* ================================================================= *)
(** ** Python primitives used by the connector *)

Module Py.

(** [str.split(sep)] for a non-empty separator: scan left to right, cut at
    every non-overlapping occurrence.  [skip] counts the characters of a
    separator occurrence still to be dropped, [acc] is the piece being read. *)
Fixpoint split_go (sep : string) (skip : nat) (acc : string) (s : string)
  : list string :=
  match s with
  | EmptyString => [acc]
  | String c s' =>
      match skip with
      | S k => split_go sep k acc s'
      | O =>
          if String.prefix sep s
          then acc :: split_go sep (String.length sep - 1) EmptyString s'
          else split_go sep 0 (acc ++ String c EmptyString)%string s'
      end
  end.

Definition split (sep s : string) : list string :=
  split_go sep 0 EmptyString s.

(** [sep.join(l)] *)
Definition join (sep : string) (l : list string) : string :=
  String.concat sep l.

(** [s.replace(old, new)] for a non-empty [old]; Python replaces the
    non-overlapping occurrences found left to right, which are the cut
    points of [s.split(old)]. *)
Definition replace (old new s : string) : string :=
  join new (split old s).

(** [l[-1]] on a list of strings known to be non-empty (the result of a
    [split]); the default is never returned there. *)
Definition last_item (l : list string) : string := List.last l EmptyString.

(** [sub in s] *)
Fixpoint contains (sub s : string) : bool :=
  String.prefix sub s ||
  match s with
  | EmptyString => false
  | String _ s' => contains sub s'
  end.

(** [c in s] for one character. *)
Fixpoint has_char (c : ascii) (s : string) : bool :=
  match s with
  | EmptyString => false
  | String d s' => Ascii.eqb c d || has_char c s'
  end.

Fixpoint count_char (c : ascii) (s : string) : nat :=
  match s with
  | EmptyString => 0
  | String d s' => (if Ascii.eqb c d then 1 else 0) + count_char c s'
  end.

Definition lower_char (c : ascii) : ascii :=
  let n := nat_of_ascii c in
  if ((65 <=? n) && (n <=? 90))%nat then ascii_of_nat (n + 32) else c.

(** [s.lower()] on ASCII text. *)
Fixpoint lower (s : string) : string :=
  match s with
  | EmptyString => EmptyString
  | String c s' => String (lower_char c) (lower s')
  end.

(** [str(n)] for a non-negative integer. *)
Definition str_of_nat (n : nat) : string :=
  DecimalString.NilEmpty.string_of_uint (Nat.to_uint n).

(** [l[:stop]] with Python's treatment of a negative [stop]. *)
Definition slice_to {A} (l : list A) (stop : Z) : list A :=
  let len := Z.of_nat (length l) in
  let stop' := if (stop <? 0)%Z then Z.max 0 (stop + len) else Z.min stop len in
  firstn (Z.to_nat stop') l.

(** [l[start:]] for a non-negative [start]. *)
Definition slice_from {A} (l : list A) (start : nat) : list A := skipn start l.

(** [l[a:a+n]] for non-negative [a] and [n]. *)
Definition slice {A} (l : list A) (a n : nat) : list A := firstn n (skipn a l).

End Py.

(* ================================================================= *)
(** ** The fragment of [re] the connector reaches

    Patterns are sequences of atoms (a literal character or [.]), each
    optionally followed by [*].  [re.escape] output always lies in this
    fragment.  Patterns outside of it are reported as [None]. *)

Module Re.

Inductive atom := ALit (c : ascii) | AAny.
Definition item := (atom * bool)%type.

Definition in_chars (c : ascii) (s : string) : bool := Py.has_char c s.

(** The characters [re.escape] puts a backslash in front of
    (CPython 3.7 and later). *)
Definition special_chars : string :=
  String "009" (String "010" (String "011" (String "012" (String "013"
    (String "092" "()[]{}?*+-|^$.&~# "))))).

Definition is_special (c : ascii) : bool := in_chars c special_chars.

Definition is_alnum (c : ascii) : bool :=
  let n := nat_of_ascii c in
  (((48 <=? n) && (n <=? 57)) || ((65 <=? n) && (n <=? 90))
   || ((97 <=? n) && (n <=? 122)))%nat.

(** [re.escape(s)] *)
Fixpoint escape (s : string) : string :=
  match s with
  | EmptyString => EmptyString
  | String c s' =>
      if is_special c then String "092" (String c (escape s'))
      else String c (escape s')
  end.

(** Metacharacters whose constructs are not part of the fragment. *)
Definition unsupported_meta : string := "()[]{}?+|^$".

Fixpoint parse_go (s : string) (escaped : bool) (acc : list item)
  : option (list item) :=
  match s with
  | EmptyString => if escaped then None else Some (rev acc)
  | String c s' =>
      if escaped then
        if is_alnum c then None
        else parse_go s' false ((ALit c, false) :: acc)
      else if Ascii.eqb c "092" then parse_go s' true acc
      else if Ascii.eqb c "." then parse_go s' false ((AAny, false) :: acc)
      else if Ascii.eqb c "*" then
        match acc with
        | (a, false) :: acc' => parse_go s' false ((a, true) :: acc')
        | _ => None
        end
      else if in_chars c unsupported_meta then None
      else parse_go s' false ((ALit c, false) :: acc)
  end.

Definition parse (p : string) : option (list item) := parse_go p false [].

(** [.] matches every character but a newline. *)
Definition atom_ok (a : atom) (c : ascii) : bool :=
  match a with
  | ALit d => Ascii.eqb d c
  | AAny => negb (Ascii.eqb c "010")
  end.

Fixpoint match_items (p : list item) : string -> bool :=
  match p with
  | [] => fun s => match s with EmptyString => true | _ => false end
  | (a, false) :: p' =>
      fun s =>
        match s with
        | String c s' => atom_ok a c && match_items p' s'
        | EmptyString => false
        end
  | (a, true) :: p' =>
      fix star (s : string) : bool :=
        match_items p' s ||
        match s with
        | String c s' => atom_ok a c && star s'
        | EmptyString => false
        end
  end.

(** [re.fullmatch(pattern, s)] as a truth value. *)
Definition fullmatch (pattern s : string) : option bool :=
  match parse pattern with
  | Some p => Some (match_items p s)
  | None => None
  end.

Fixpoint lits (s : string) : list item :=
  match s with
  | EmptyString => []
  | String c s' => (ALit c, false) :: lits s'
  end.

End Re.

(* ================================================================= *)
(** ** Exceptions and results

    [exn] holds the exceptions that the connector's [except] clauses name
    or that its own statements raise; all of them are classes under
    [Exception], so that [except Exception] catches each of them.
    [asyncio.CancelledError] derives from [BaseException] and is raised in
    a task that is being cancelled (the connector cancels its tasks when it
    is closed): it is not part of [exn], and what is described here are the
    runs in which no task is cancelled. *)

Inductive exn :=
| AssertionError | IndexError | KeyError | ValueError | TypeError
| AttributeError
| ReError
| ConnectionError
| BadNodeIdUnknown | BadConnectionClosed | BadInvalidState | BadSessionClosed
| BadAttributeIdInvalid | BadCommunicationError | BadOutOfService
| BadNoMatch | BadUnexpectedError | BadWaitingForInitialData
| UaStatusCodeErrors
| UaStatusCodeError (code : nat)
| OtherException (text : string).

Inductive result (A : Type) :=
| Ok (a : A)
| Raise (e : exn).
Arguments Ok {A} a.
Arguments Raise {A} e.

Definition rbind {A B} (r : result A) (k : A -> result B) : result B :=
  match r with
  | Ok a => k a
  | Raise e => Raise e
  end.

Notation "x <- c1 ;; c2" := (rbind c1 (fun x => c2))
  (at level 61, c1 at next level, right associativity).
Notation "' pat <- c1 ;; c2" :=
  (rbind c1 (fun x => match x with pat => c2 end))
  (at level 61, pat pattern, c1 at next level, right associativity).

(** A [for] loop that threads an accumulator and stops at the first
    exception. *)
Fixpoint for_acc {A B} (body : A -> B -> result B) (l : list A) (acc : B)
  : result B :=
  match l with
  | [] => Ok acc
  | x :: xs => acc' <- body x acc ;; for_acc body xs acc'
  end.

Fixpoint mapM {A B} (f : A -> result B) (l : list A) : result (list B) :=
  match l with
  | [] => Ok []
  | x :: xs => y <- f x ;; ys <- mapM f xs ;; Ok (y :: ys)
  end.

(* ================================================================= *)
(** ** The protocol client

    The asyncua client is outside the sources; the connector only sees the
    calls below, each of which returns or raises. *)

Definition node := nat.
Definition handle := nat.

Record Client := {
  root : node;
  get_children : node -> result (list node);
  read_browse_name : node -> result (nat * string);
  (** [client.nodes.root.get_child(path)] *)
  get_child : list string -> result node;
  (** [client.get_node(nodeid)] *)
  get_node : string -> result node;
  (** [str] of what [node.read_value()] returns *)
  read_value : node -> result string;
  nodeid_to_string : node -> string;
  nodeid_namespace : node -> nat;
  (** [client.create_subscription(1, SubHandler(...))] *)
  create_subscription : result nat;
  subscribe_data_change : node -> result handle;
  unsubscribe : handle -> result unit;
  read_attributes : list node -> result (list string);
  write_value : node -> string -> result unit;
  call_method : node -> string -> list string -> result string
}.

(** A configured node path is a string or a list of segments. *)
Inductive node_path :=
| PathStr (s : string)
| PathList (l : list string).

(* ================================================================= *)
(** ** Address-space resolution *)

Section Resolver.

Variable cl : Client.

(** [f'{child_node.NamespaceIndex}:{child_node.Name}'] *)
Definition qualified (bn : nat * string) : string :=
  (Py.str_of_nat (fst bn) ++ ":" ++ snd bn)%string.

(** The condition of [__find_nodes]:
    [re.fullmatch(re.escape(node_list[0]), child_node.Name)
     or node_list[0].split(':')[-1] == child_node.Name] *)
Definition segment_matches (seg name : string) : result bool :=
  match Re.fullmatch (Re.escape seg) name with
  | None => Raise ReError
  | Some true => Ok true
  | Some false => Ok (String.eqb (Py.last_item (Py.split ":" seg)) name)
  end.

Fixpoint __find_nodes (node_list : list string) (current_parent_node : node)
  (nodes : list string) {struct node_list} : result (list (list string)) :=
  match node_list with
  | [] => Raise AssertionError
  | seg :: rest =>
      children <- get_children cl current_parent_node ;;
      for_acc
        (fun nd final =>
           child_node <- read_browse_name cl nd ;;
           m <- segment_matches seg (snd child_node) ;;
           if m then
             let new_nodes := nodes ++ [qualified child_node] in
             match rest with
             | [] => Ok (final ++ [new_nodes])
             | _ :: _ =>
                 sub <- __find_nodes rest nd new_nodes ;;
                 Ok (final ++ sub)
             end
           else Ok final)
        children []
  end.

(** What the condition of [__find_nodes] comes to, the pattern being
    escaped: the name is the segment itself or its part after the last
    colon. *)
Definition literal_match (seg name : string) : bool :=
  String.eqb seg name || String.eqb (Py.last_item (Py.split ":" seg)) name.

(** The matching rule in the words of the specification: the local name
    equals the segment with its namespace qualifier stripped, or the
    segment, read as a regular expression, matches the whole name. *)
Definition spec_segment_matches (seg name : string) : bool :=
  String.eqb (Py.last_item (Py.split ":" seg)) name ||
  match Re.fullmatch seg name with
  | Some b => b
  | None => false
  end.

Definition find_nodes (node_pattern : string)
  (current_parent_node : option node) (nodes : list string)
  : result (list (list string)) :=
  let node_list := Py.split "\." node_pattern in
  match current_parent_node with
  | None =>
      let node_list :=
        match node_list with
        | first :: rest =>
            if String.eqb (Py.lower first) "root" then rest else node_list
        | [] => node_list
        end in
      __find_nodes node_list (root cl) nodes
  | Some parent => __find_nodes node_list parent nodes
  end.

Definition is_unresolved (u_node : string) : bool :=
  (length (Py.split ":" u_node) <? 2)%nat.

Definition find_node_name_space_index (p : node_path)
  : result (list (list string)) :=
  let p := match p with PathStr s => Py.split "\." s | PathList l => l end in
  let u_node_count := length (filter is_unresolved p) in
  let resolved := Py.slice_to p (- Z.of_nat u_node_count) in
  let resolved_level := length p - u_node_count in
  parent_node <- get_child cl resolved ;;
  let unresolved := Py.slice_from p resolved_level in
  __find_nodes unresolved parent_node resolved.

End Resolver.

(** *** Resolution as the specification words it *)

Section ResolverSpec.

Variable cl : Client.

(** The segments [find_nodes] searches for: the pattern split at its
    escaped dots, less a leading [root] (in any case) when no parent is
    given; and the node the search starts at. *)
Definition searched_segments (node_pattern : string)
  (current_parent_node : option node) : list string :=
  match current_parent_node, Py.split "\." node_pattern with
  | None, first :: rest =>
      if String.eqb (Py.lower first) "root" then rest else first :: rest
  | _, node_list => node_list
  end.

Definition start_node (current_parent_node : option node) : node :=
  match current_parent_node with
  | Some parent => parent
  | None => root cl
  end.

(** The children of [n] that the segment matches literally, each with
    its browse name, in browse order. *)
Definition matching_children (seg : string) (n : node)
  : result (list (node * (nat * string))) :=
  children <- get_children cl n ;;
  bns <- mapM (read_browse_name cl) children ;;
  Ok (filter (fun cb => literal_match seg (snd (snd cb)))
        (combine children bns)).

(** A frontier is a list of nodes, each with the qualified path that
    leads to it.  One segment replaces every frontier node by its
    matching children, in order. *)
Definition advance (seg : string) (frontier : list (node * list string))
  : result (list (node * list string)) :=
  news <- mapM (fun fq =>
                  matched <- matching_children seg (fst fq) ;;
                  Ok (map (fun cb => (fst cb, snd fq ++ [qualified (snd cb)]))
                        matched))
            frontier ;;
  Ok (concat news).

(** Resolution in the words of the specification, the matching rule
    made literal: each segment in turn is matched against every child of
    the current frontier, and every match is entered with the remaining
    segments. *)
Fixpoint resolve (segs : list string) (frontier : list (node * list string))
  : result (list (node * list string)) :=
  match segs with
  | [] => Ok frontier
  | seg :: rest => frontier' <- advance seg frontier ;; resolve rest frontier'
  end.

End ResolverSpec.


(* ================================================================= *)
(** ** Coroutines with state: results paired with the state reached

    A Python exception leaves every mutation made before it in place, so a
    computation returns its result (or the exception) together with the
    state it reached. *)

Definition M (S A : Type) : Type := S -> result A * S.

Definition mret {S A} (a : A) : M S A := fun s => (Ok a, s).
Definition mraise {S A} (e : exn) : M S A := fun s => (Raise e, s).
Definition lift {S A} (r : result A) : M S A := fun s => (r, s).
Definition mget {S} : M S S := fun s => (Ok s, s).
Definition mmodify {S} (f : S -> S) : M S unit := fun s => (Ok tt, f s).

Definition mbind {S A B} (m : M S A) (k : A -> M S B) : M S B :=
  fun s =>
    match m s with
    | (Ok a, s') => k a s'
    | (Raise e, s') => (Raise e, s')
    end.

(** [try: m  except Exception as e: h e] *)
Definition try_except {S A} (m : M S A) (h : exn -> M S A) : M S A :=
  fun s =>
    match m s with
    | (Ok a, s') => (Ok a, s')
    | (Raise e, s') => h e s'
    end.

Notation "x <~ c1 ;; c2" := (mbind c1 (fun x => c2))
  (at level 61, c1 at next level, right associativity).
Notation "' pat <~ c1 ;; c2" :=
  (mbind c1 (fun x => match x with pat => c2 end))
  (at level 61, pat pattern, c1 at next level, right associativity).
Notation "c1 ;;; c2" := (mbind c1 (fun _ => c2))
  (at level 61, right associativity).

(** [for x in l: body x] *)
Fixpoint for_each {S A} (body : A -> M S unit) (l : list A) : M S unit :=
  match l with
  | [] => mret tt
  | x :: xs => body x ;;; for_each body xs
  end.

(** [for x in l: body x] where the body mutates the element [x] in place:
    the list comes back with the elements reached so far updated. *)
Fixpoint for_each_mut {S A} (body : A -> S -> result unit * A * S)
  (l : list A) (s : S) : result unit * list A * S :=
  match l with
  | [] => (Ok tt, [], s)
  | x :: xs =>
      match body x s with
      | (Ok _, x', s') =>
          match for_each_mut body xs s' with
          | (r, xs', s'') => (r, x' :: xs', s'')
          end
      | (Raise e, x', s') => (Raise e, x' :: xs, s')
      end
  end.

(* ================================================================= *)
(** ** Data model: node bindings, devices, the connector *)

Inductive section := attributes | timeseries.

(** The dictionaries of [device.values[section]]. *)
Module Node.
Record t := mk {
  key : string;
  path : node_path;
  (** [node.get('valid')]: absent, [True] or [False] *)
  valid : option bool;
  sub_on : option bool;
  (** [node.get('subscription')]: absent and [None] are not told apart *)
  subscription : option handle;
  id : option string;
  qualified_path : option (list string)
}.

Definition set_valid (v : bool) (n : t) : t :=
  mk (key n) (path n) (Some v) (sub_on n) (subscription n) (id n)
     (qualified_path n).
Definition set_sub_on (v : bool) (n : t) : t :=
  mk (key n) (path n) (valid n) (Some v) (subscription n) (id n)
     (qualified_path n).
Definition set_subscription (h : option handle) (n : t) : t :=
  mk (key n) (path n) (valid n) (sub_on n) h (id n) (qualified_path n).
Definition set_id (i : string) (n : t) : t :=
  mk (key n) (path n) (valid n) (sub_on n) (subscription n) (Some i)
     (qualified_path n).
Definition set_qualified_path (q : list string) (n : t) : t :=
  mk (key n) (path n) (valid n) (sub_on n) (subscription n) (id n) (Some q).
End Node.

(** The entries of [device.nodes]. *)
Record NodeConfig := {
  nc_node : node;
  nc_key : string;
  nc_section : section
}.

Record RpcMethod := {
  method : string;
  arguments : list string
}.

(** What [_get_device_info_by_pattern] returns: the list of results, or its
    first element when [get_first] is set and there is one. *)
Inductive info :=
| InfoFirst (s : string)
| InfoAll (l : list string).

(** An entry of the [mapping] configuration. *)
Record Template := {
  deviceNodePattern : string;
  deviceNameExpression : option string;
  deviceProfileExpression : option string;
  converter_class : option string;
  (** [device.config['rpc_methods']], a [KeyError] when absent *)
  rpc_methods : option (list RpcMethod)
}.

(** [{**device, 'device_name': ..., 'device_type': ...}] *)
Record DeviceConfig := {
  template : Template;
  device_name : string;
  device_type : info
}.

(** Modelled from the spec: the [Device] class
    ([connectors/opcua/device.py]) is not part of the sources.  The spec
    gives a Device an identity [name], an ordered [path], the [config] it
    was instantiated from, its list of NodeBindings and one or two
    converter instances; the connector reads the bindings per section
    through [device.values] and keeps the nodes bound in the last scan in
    [device.nodes]. *)
Module Device.
Record t := mk {
  path : list string;
  name : string;
  config : DeviceConfig;
  values_attributes : list Node.t;
  values_timeseries : list Node.t;
  nodes : list NodeConfig;
  converter : string;
  converter_for_sub : option string
}.

(** [device.values.get(section, [])] *)
Definition values (d : t) (s : section) : list Node.t :=
  match s with
  | attributes => values_attributes d
  | timeseries => values_timeseries d
  end.

Definition set_nodes (l : list NodeConfig) (d : t) : t :=
  mk (path d) (name d) (config d) (values_attributes d) (values_timeseries d)
     l (converter d) (converter_for_sub d).
Definition set_values (s : section) (l : list Node.t) (d : t) : t :=
  match s with
  | attributes =>
      mk (path d) (name d) (config d) l (values_timeseries d) (nodes d)
         (converter d) (converter_for_sub d)
  | timeseries =>
      mk (path d) (name d) (config d) (values_attributes d) l (nodes d)
         (converter d) (converter_for_sub d)
  end.
End Device.

(** Calls issued to the protocol client that change or read server data. *)
Inductive call :=
| CreateSubscription
| SubscribeDataChange (n : node)
| Unsubscribe (h : handle)
| DeleteSubscription
| ReadAttributes (ns : list node)
| WriteValue (n : node) (v : string)
| ReadValue (n : node)
| CallMethod (n : node) (method_id : string) (args : list string).

(** The [result] dictionary a command coroutine fills in. *)
Inductive rpc_result :=
| REmpty
| RError (text : string)
| RValue (v : string)
| RResult (v : string).

Inductive rvalue :=
| VResult (r : rpc_result)
| VStr (s : string)
| VInt (n : Z).

(** A Python dictionary literal: a later equal key overwrites. *)
Fixpoint dict_set (k : string) (v : rvalue) (d : list (string * rvalue))
  : list (string * rvalue) :=
  match d with
  | [] => [(k, v)]
  | (k', v') :: d' =>
      if String.eqb k k' then (k, v) :: d' else (k', v') :: dict_set k v d'
  end.

Fixpoint dict_get (k : string) (d : list (string * rvalue)) : option rvalue :=
  match d with
  | [] => None
  | (k', v) :: d' => if String.eqb k k' then Some v else dict_get k d'
  end.

(** [gateway.send_rpc_reply(device, req_id, content)] *)
Record Reply := {
  reply_device : string;
  reply_req_id : option nat;
  reply_content : list (string * rvalue)
}.

Inductive level := INFO | WARNING | ERROR.

(** The mutable attributes of the connector other than the device list. *)
Record Session := {
  __subscription : option nat;
  __stopped : bool;
  __data_to_send : list string;
  calls : list call;
  replies : list Reply;
  log : list (level * string)
}.

Definition add_call (c : call) (s : Session) : Session :=
  Build_Session (__subscription s) (__stopped s) (__data_to_send s)
    (calls s ++ [c]) (replies s) (log s).
Definition add_reply (r : Reply) (s : Session) : Session :=
  Build_Session (__subscription s) (__stopped s) (__data_to_send s)
    (calls s) (replies s ++ [r]) (log s).
Definition add_log (l : level) (msg : string) (s : Session) : Session :=
  Build_Session (__subscription s) (__stopped s) (__data_to_send s)
    (calls s) (replies s) (log s ++ [(l, msg)]).
Definition set_subscription (sub : option nat) (s : Session) : Session :=
  Build_Session sub (__stopped s) (__data_to_send s)
    (calls s) (replies s) (log s).
Definition put_data (d : string) (s : Session) : Session :=
  Build_Session (__subscription s) (__stopped s) (__data_to_send s ++ [d])
    (calls s) (replies s) (log s).

Record Connector := {
  __device_nodes : list Device.t;
  session : Session
}.

(** The configuration the connector was built from. *)
Record Config := {
  _connector_type : string;
  __enable_subscriptions : bool;
  mapping : list Template
}.

(** The gateway-side collaborators: module loading, the construction of a
    device's bindings from its configuration, and the converters. *)
Record Env := {
  import_module : string -> bool;
  load_values : DeviceConfig -> list string -> list Node.t * list Node.t;
  convert : Device.t -> list NodeConfig -> list string -> result (option string)
}.

(* ================================================================= *)
(** ** Connection retry *)

Section Retry.

(** [func] is the wrapped coroutine: it acts on the world outside the
    connector and returns or raises.  The delay and the factor are
    integers, as are the defaults [1] and [2] that the only call of
    [retry_with_backoff] leaves in place. *)
Variables (W A : Type).
Variable func : W -> result A * W.

Record RetryState := {
  world : W;
  (** the arguments of the [asyncio.sleep] calls, in order *)
  slept : list Z;
  (** how many times [func] was awaited *)
  invoked : nat;
  retry_log : list (level * string)
}.

(** The [for attempt in range(max_retries)] loop; [None] is the value
    returned after the loop. *)
Fixpoint retry_loop (attempts : nat) (delay backoff_factor : Z)
  (s : RetryState) : option A * RetryState :=
  match attempts with
  | O =>
      (None,
       Build_RetryState (world s) (slept s) (invoked s)
         (retry_log s ++ [(ERROR, "Max retries reached. Could not connect due to too many sessions.")]))
  | S attempts' =>
      match func (world s) with
      | (Ok a, w') =>
          (Some a,
           Build_RetryState w' (slept s) (S (invoked s)) (retry_log s))
      | (Raise e, w') =>
          retry_loop attempts' (delay * backoff_factor) backoff_factor
            (Build_RetryState w' (slept s ++ [delay]) (S (invoked s))
               (retry_log s ++ [(ERROR, "Encountered error: %r. Retrying in %s seconds...")]))
      end
  end.

Definition retry_with_backoff (max_retries initial_delay backoff_factor : Z)
  (w : W) : option A * RetryState :=
  retry_loop (Z.to_nat max_retries) initial_delay backoff_factor
    (Build_RetryState w [] 0 []).

(** The first [m] delays of a backoff that starts at [d] and multiplies
    by [f]: [d * f^0, ..., d * f^(m-1)]. *)
Definition delays (d f : Z) (m : nat) : list Z :=
  map (fun k => (d * f ^ Z.of_nat k)%Z) (seq 0 m).

(** [func] raises on each of its next [k] invocations. *)
Fixpoint fails (k : nat) (w : W) : Prop :=
  match k with
  | O => True
  | S k' =>
      match func w with
      | (Ok _, _) => False
      | (Raise _, w') => fails k' w'
      end
  end.

End Retry.

(* ================================================================= *)
(** ** Resetting bindings *)

(** [node.get(k, False)] and [node.get(k, True)] as truth values. *)
Definition get_default (d : bool) (o : option bool) : bool :=
  match o with
  | Some b => b
  | None => d
  end.

(** The flags of a binding that error recovery looks at. *)
Definition flags (nd : Node.t) : option bool * option bool * option handle :=
  (Node.valid nd, Node.sub_on nd, Node.subscription nd).

(** What the recovery of an [except] clause is to leave, from the binding
    [nd] and the session [se]: the binding invalid, and, when it was not
    invalid already, unsubscribed with its handle cleared. *)
Definition recovered (nd : Node.t) (se : Session) (nd' : Node.t)
  (se' : Session) : Prop :=
  Node.valid nd' = Some false
  /\ (Node.valid nd <> Some false ->
      Node.sub_on nd' <> Some true
      /\ (Node.sub_on nd = Some true ->
          Node.sub_on nd' = Some false
          /\ Node.subscription nd' = None
          /\ forall sub h,
               __subscription se = Some sub ->
               Node.subscription nd = Some h ->
               calls se' = calls se ++ [Unsubscribe h])).

(** The names in the device list, in order. *)
Definition registry_names (c : Connector) : list string :=
  map Device.name (__device_nodes c).

(** A binding as [__reset_node] leaves it, and a device all of whose
    bindings are so. *)
Definition is_reset (nd : Node.t) : Prop :=
  Node.valid nd = Some false /\ Node.sub_on nd <> Some true.

Definition torn_down (d : Device.t) : Prop :=
  Forall is_reset (Device.values d attributes)
  /\ Forall is_reset (Device.values d timeseries).





(** Whether [__reset_nodes(device_name)] is aimed at the device. *)
Definition targeted (device_name : option string) (d : Device.t) : Prop :=
  match device_name with
  | Some n => Device.name d = n
  | None => True
  end.

(** How a device after a reset relates to the device it was: it keeps
    its name, it is untouched or torn down, untouched if it was torn down
    already, and torn down if it was aimed at ([aimed] says so). *)
Definition reset_rel (aimed : Device.t -> Prop) (d d' : Device.t) : Prop :=
  Device.name d' = Device.name d
  /\ (d' = d \/ torn_down d')
  /\ (torn_down d -> d' = d)
  /\ (aimed d -> torn_down d').

(** The devices the second loop of [_create_new_devices] resets. *)
Definition absent (existing_devices scanned_devices : list string)
  (d : Device.t) : Prop :=
  In (Device.name d) existing_devices
  /\ existsb (String.eqb (Device.name d)) scanned_devices = false.

(** [c'] holds the devices of [c], in place, followed by [new], the
    same subscription reference and the same protocol calls. *)
Definition extends (c c' : Connector) (new : list Device.t) : Prop :=
  __device_nodes c' = __device_nodes c ++ new
  /\ __subscription (session c') = __subscription (session c)
  /\ calls (session c') = calls (session c).

(** The flags of every binding of every device, attributes first. *)
Definition binding_flags (c : Connector)
  : list (list (option bool * option bool * option handle)) :=
  map (fun d =>
         map flags (Device.values d attributes ++ Device.values d timeseries))
      (__device_nodes c).

Section Connector.

Variable cl : Client.
Variable env : Env.
Variable cfg : Config.

Definition __reset_node (nd : Node.t) (s : Session) : Node.t * Session :=
  let nd := Node.set_valid false nd in
  if get_default false (Node.sub_on nd) then
    let s :=
      match __subscription s with
      | Some _ =>
          match Node.subscription nd with
          | Some h =>
              let s := add_call (Unsubscribe h) s in
              match unsubscribe cl h with
              | Ok _ => s
              | Raise _ =>
                  add_log ERROR "Error unsubscribing on data change: %s" s
              end
          | None =>
              (* no handle to pass: the lookup fails and is logged *)
              add_log ERROR "Error unsubscribing on data change: %s" s
          end
      | None => s
      end in
    (Node.set_sub_on false (Node.set_subscription None nd), s)
  else (nd, s).

(** The two inner loops of [__reset_nodes] over one device. *)
Fixpoint reset_node_list (l : list Node.t) (s : Session)
  : list Node.t * Session :=
  match l with
  | [] => ([], s)
  | nd :: l' =>
      let '(nd', s') := __reset_node nd s in
      let '(l'', s'') := reset_node_list l' s' in
      (nd' :: l'', s'')
  end.

Definition reset_device (d : Device.t) (s : Session) : Device.t * Session :=
  let '(la, s1) := reset_node_list (Device.values d attributes) s in
  let d := Device.set_values attributes la d in
  let '(lt, s2) := reset_node_list (Device.values d timeseries) s1 in
  (Device.set_values timeseries lt d, s2).

Fixpoint reset_devices (device_name : option string) (l : list Device.t)
  (s : Session) : list Device.t * Session :=
  match l with
  | [] => ([], s)
  | d :: l' =>
      let '(d', s') :=
        match device_name with
        | None => reset_device d s
        | Some n =>
            if String.eqb (Device.name d) n then reset_device d s else (d, s)
        end in
      let '(l'', s'') := reset_devices device_name l' s' in
      (d' :: l'', s'')
  end.

Definition __reset_nodes (device_name : option string) (c : Connector)
  : Connector :=
  let '(devs, s) := reset_devices device_name (__device_nodes c) (session c) in
  let s :=
    match device_name, __subscription s with
    | None, Some _ =>
        (* [subscription.delete()]; an exception would only be logged *)
        set_subscription None (add_call DeleteSubscription s)
    | _, _ => s
    end in
  Build_Connector devs s.

(* ================================================================= *)
(** ** Device discovery *)

(** A character of the class [[A-Za-z.:\\\d]].  Strings are sequences of
    8-bit characters here, and [\d] is read on them: the ASCII digits.
    (On [str], Python's [\d] also matches the decimal digits of other
    scripts, which are not single characters of such strings.) *)
Definition is_name_char (c : ascii) : bool :=
  Re.is_alnum c || Ascii.eqb c "." || Ascii.eqb c ":" || Ascii.eqb c "092".

(** The longest prefix made of characters of the class
    [[A-Za-z.:\\\d]], and what follows it. *)
Fixpoint take_name_chars (s : string) : string * string :=
  match s with
  | EmptyString => (EmptyString, EmptyString)
  | String c s' =>
      if is_name_char c then
        let '(run, rest) := take_name_chars s' in (String c run, rest)
      else (EmptyString, s)
  end.

(** [re.search(r"\${([A-Za-z.:\\\d]+)}", pattern)]: the leftmost
    occurrence, as [(group(0), group(1))].  The closing brace is not in the
    class, so the greedy run is the only candidate at a given start. *)
Fixpoint search_placeholder (s : string) : option (string * string) :=
  match s with
  | EmptyString => None
  | String c s' =>
      let here :=
        match c, s' with
        | "$"%char, String "{"%char s'' =>
            match take_name_chars s'' with
            | (String r run, String "}"%char _) =>
                Some (("${" ++ String r run ++ "}")%string, String r run)
            | _ => None
            end
        | _, _ => None
        end in
      match here with
      | Some g => Some g
      | None => search_placeholder s'
      end
  end.

(** The result list of [_get_device_info_by_pattern] and the exceptions it
    logs on the way. *)
Definition device_info_list (pattern : option string)
  : result (list string * list (level * string)) :=
  match pattern with
  | None => Raise TypeError
  | Some pattern =>
      match search_placeholder pattern with
      | Some (group, node_path) =>
          nodes <- find_nodes cl node_path None [] ;;
          Ok (fold_left
                (fun acc nd =>
                   match (var <- get_child cl nd ;; read_value cl var) with
                   | Ok value =>
                       (fst acc ++ [Py.replace group value pattern], snd acc)
                   | Raise e => (fst acc, snd acc ++ [(ERROR, "%s")])
                   end)
                nodes ([], []))
      | None => Ok ([pattern], [])
      end
  end.

Definition _get_device_info_by_pattern (pattern : option string)
  (get_first : bool) : result (info * list (level * string)) :=
  '(res, logs) <- device_info_list pattern ;;
  match res, get_first with
  | first :: _, true => Ok (InfoFirst first, logs)
  | _, _ => Ok (InfoAll res, logs)
  end.

(** Iterating over the returned value with [for]: a string yields its
    characters. *)
Fixpoint chars (s : string) : list string :=
  match s with
  | EmptyString => []
  | String c s' => String c EmptyString :: chars s'
  end.

Definition iter_info (i : info) : list string :=
  match i with
  | InfoAll l => l
  | InfoFirst s => chars s
  end.

Definition DEFAULT_UPLINK_CONVERTER : string := "OpcUaUplinkConverter".

Definition on_session {A} (m : M Session A) : M Connector A :=
  fun c =>
    let '(r, s) := m (session c) in
    (r, Build_Connector (__device_nodes c) s).

Definition log_to (l : level) (msg : string) : M Connector unit :=
  on_session (mmodify (add_log l msg)).

Definition log_all (logs : list (level * string)) : M Connector unit :=
  for_each (fun e => log_to (fst e) (snd e)) logs.

Definition __load_converter (device : Template) : M Connector (option string) :=
  let converter_class_name :=
    match converter_class device with
    | Some n => n
    | None => DEFAULT_UPLINK_CONVERTER
    end in
  if import_module env converter_class_name
  then mret (Some converter_class_name)
  else log_to ERROR "Cannot find converter for %s device" ;;; mret None.

(** The body of [for node in nodes] in [_create_new_devices]. *)
Definition add_device (device : Template) (name : string) (nd : list string)
  : M Connector unit :=
  converter <~ __load_converter device ;;
  '(dtype, logs) <~ lift (_get_device_info_by_pattern
      (Some match deviceProfileExpression device with
            | Some e => e
            | None => "default"
            end) true) ;;
  log_all logs ;;;
  let device_config := Build_DeviceConfig device name dtype in
  match converter with
  | None => mraise TypeError
  | Some cls =>
      let '(va, vt) := load_values env device_config nd in
      mmodify (fun c =>
        Build_Connector
          (__device_nodes c ++
           [Device.mk nd name device_config va vt [] cls
              (if __enable_subscriptions cfg then Some cls else None)])
          (session c)) ;;;
      log_to INFO "Added device node: %s"
  end.

Definition mem (x : string) (l : list string) : bool :=
  existsb (String.eqb x) l.

(** [for device_name in device_names], but for the bookkeeping of
    [scanned_devices]. *)
Definition names_loop (existing_devices : list string) (device : Template)
  (nodes : list (list string)) (names : list string) : M Connector unit :=
  for_each
    (fun name =>
       if mem name existing_devices then mret tt
       else for_each (add_device device name) nodes)
    names.

(** The body of the first loop of [_create_new_devices]; the accumulator
    is [scanned_devices]. *)
Definition scan_template (existing_devices : list string)
  (device : Template) (scanned_devices : list string)
  : M Connector (list string) :=
  nodes <~ lift (find_nodes cl (deviceNodePattern device) None []) ;;
  '(device_names, logs) <~
     lift (_get_device_info_by_pattern (deviceNameExpression device) false) ;;
  log_all logs ;;;
  names_loop existing_devices device nodes (iter_info device_names) ;;;
  mret (scanned_devices ++ iter_info device_names).

Fixpoint scan_templates (existing_devices : list string)
  (templates : list Template) (scanned_devices : list string)
  : M Connector (list string) :=
  match templates with
  | [] => mret scanned_devices
  | device :: rest =>
      scanned <~ scan_template existing_devices device scanned_devices ;;
      scan_templates existing_devices rest scanned
  end.

(** A template that a scan with [existing_devices] leaves the device
    list alone for: its lookups return, and each name it yields is known
    already or comes with no instance path. *)
Definition covered (existing_devices : list string) (device : Template)
  : Prop :=
  exists nodes names logs,
    find_nodes cl (deviceNodePattern device) None [] = Ok nodes
    /\ _get_device_info_by_pattern (deviceNameExpression device) false =
         Ok (names, logs)
    /\ forall n, In n (iter_info names) ->
         mem n existing_devices = true \/ nodes = [].


(** The second loop of [_create_new_devices]. *)
Fixpoint reset_absent (existing_devices scanned_devices : list string)
  (c : Connector) : Connector :=
  match existing_devices with
  | [] => c
  | name :: rest =>
      reset_absent rest scanned_devices
        (if mem name scanned_devices then c else __reset_nodes (Some name) c)
  end.

Definition _create_new_devices : M Connector unit :=
  fun c =>
    let existing_devices := map Device.name (__device_nodes c) in
    match scan_templates existing_devices (mapping cfg) [] c with
    | (Ok scanned_devices, c') =>
        (Ok tt, reset_absent existing_devices scanned_devices c')
    | (Raise e, c') => (Raise e, c')
    end.

(* ================================================================= *)
(** ** Binding nodes *)

Definition is_digit (c : ascii) : bool :=
  let n := nat_of_ascii c in ((48 <=? n) && (n <=? 57))%nat.

Fixpoint drop_digits (s : string) : string :=
  match s with
  | EmptyString => EmptyString
  | String c s' => if is_digit c then drop_digits s' else s
  end.

(** [re.match(r"(ns=\d+;[isgb]=[^}]+)", path)] as a truth value. *)
Definition is_nodeid_string (s : string) : bool :=
  match s with
  | String "n"%char (String "s"%char (String "="%char (String d rest))) =>
      is_digit d &&
      match drop_digits rest with
      | String ";"%char (String t (String "="%char (String x _))) =>
          Py.has_char t "isgb" && negb (Ascii.eqb x "}")
      | _ => false
      end
  | _ => false
  end.

Fixpoint last_char (s : string) : option ascii :=
  match s with
  | EmptyString => None
  | String c EmptyString => Some c
  | String _ s' => last_char s'
  end.

(** [path[-1]] *)
Definition path_last (p : node_path) : result string :=
  match p with
  | PathStr s =>
      match last_char s with
      | Some c => Ok (String c EmptyString)
      | None => Raise IndexError
      end
  | PathList l =>
      match l with
      | [] => Raise IndexError
      | _ :: _ => Ok (Py.last_item l)
      end
  end.

(** The argument [get_child] receives: a string stands for the
    one-segment path. *)
Definition path_segments (p : node_path) : list string :=
  match p with
  | PathStr s => [s]
  | PathList l => l
  end.

(** The state the body of the innermost loop of [_load_devices_nodes]
    works on: the binding [node], [device.nodes] and the connector. *)
Record LoadState := {
  cur : Node.t;
  dnodes : list NodeConfig;
  sess : Session
}.

Definition upd_cur (f : Node.t -> Node.t) : M LoadState unit :=
  mmodify (fun s => Build_LoadState (f (cur s)) (dnodes s) (sess s)).
Definition upd_sess (f : Session -> Session) : M LoadState unit :=
  mmodify (fun s => Build_LoadState (cur s) (dnodes s) (f (sess s))).

Definition reset_cur : M LoadState unit :=
  mmodify (fun s =>
    let '(nd, se) := __reset_node (cur s) (sess s) in
    Build_LoadState nd (dnodes s) se).

(** [if node.get('valid', True): log; await self.__reset_node(node)] *)
Definition reset_if_valid (l : level) (msg : string) : M LoadState unit :=
  s <~ mget ;;
  if get_default true (Node.valid (cur s))
  then upd_sess (add_log l msg) ;;; reset_cur
  else mret tt.

(** The [else] branch of the lookup: qualify the path by browsing when
    its last item carries no namespace index, then fetch the node.  [None]
    stands for the [continue] taken when nothing matches. *)
Definition browse_binding (p : node_path) : M LoadState (option node) :=
  final <~ lift (path_last p) ;;
  if negb (length (Py.split ":" final) =? 2)%nat then
    qualified_path <~ lift (find_node_name_space_index cl p) ;;
    match qualified_path with
    | [] =>
        reset_if_valid WARNING "Node not found; device: %s, key: %s, path: %s" ;;;
        mret None
    | q :: more =>
        (match more with
         | [] => mret tt
         | _ :: _ =>
             upd_sess (add_log WARNING
               "Multiple matching nodes found; device: %s, key: %s, path: %s; %s")
         end) ;;;
        upd_cur (Node.set_qualified_path q) ;;;
        found <~ lift (get_child cl q) ;;
        mret (Some found)
    end
  else
    found <~ lift (get_child cl (path_segments p)) ;;
    mret (Some found).

(** The part of the [try] block that finds the node. *)
Definition resolve_binding : M LoadState (option node) :=
  s <~ mget ;;
  let nd := cur s in
  let p :=
    match Node.qualified_path nd with
    | Some q => PathList q
    | None => Node.path nd
    end in
  match p with
  | PathStr str =>
      if is_nodeid_string str
      then found <~ lift (get_node cl str) ;; mret (Some found)
      else browse_binding p
  | PathList _ => browse_binding p
  end.

(** The part of the [try] block after [found_node] is known. *)
Definition subscribe_binding (sec : section) (found_node : node)
  : M LoadState unit :=
  s <~ mget ;;
  mmodify (fun s =>
    Build_LoadState (cur s)
      (dnodes s ++ [Build_NodeConfig found_node (Node.key (cur s)) sec])
      (sess s)) ;;;
  let v := Node.valid (cur s) in
  if match v with
     | None => true
     | Some b => b && negb (__enable_subscriptions cfg)
     end
  then
    (if __enable_subscriptions cfg
        && negb (get_default false (Node.sub_on (cur s)))
        && negb (__stopped (sess s))
     then
       (match __subscription (sess s) with
        | Some _ => mret tt
        | None =>
            upd_sess (add_call CreateSubscription) ;;;
            sub <~ lift (create_subscription cl) ;;
            upd_sess (set_subscription (Some sub))
        end) ;;;
       upd_sess (add_call (SubscribeDataChange found_node)) ;;;
       h <~ lift (subscribe_data_change cl found_node) ;;
       upd_cur (fun nd =>
         Node.set_id (nodeid_to_string cl found_node)
           (Node.set_sub_on true (Node.set_subscription (Some h) nd))) ;;;
       upd_sess (add_log INFO "Subscribed on data change; device: %s, key: %s, path: %s")
     else mret tt) ;;;
    upd_cur (Node.set_valid true)
  else mret tt.

(** The [try] block. *)
Definition bind_node (sec : section) : M LoadState unit :=
  found <~ resolve_binding ;;
  match found with
  | Some found_node => subscribe_binding sec found_node
  | None => mret tt
  end.

(** The tuple of the second [except] clause. *)
Definition node_not_found_class (e : exn) : bool :=
  match e with
  | BadNodeIdUnknown | BadConnectionClosed | BadInvalidState
  | BadAttributeIdInvalid | BadCommunicationError | BadOutOfService
  | BadNoMatch | BadUnexpectedError | UaStatusCodeErrors
  | BadWaitingForInitialData => true
  | _ => false
  end.

(** Subclasses of [UaStatusCodeError]. *)
Definition is_ua_status_code_error (e : exn) : bool :=
  match e with
  | BadNodeIdUnknown | BadConnectionClosed | BadInvalidState
  | BadSessionClosed | BadAttributeIdInvalid | BadCommunicationError
  | BadOutOfService | BadNoMatch | BadUnexpectedError
  | BadWaitingForInitialData | UaStatusCodeErrors | UaStatusCodeError _ => true
  | _ => false
  end.

(** The [try] statement with its four [except] clauses. *)
Definition load_node (sec : section) : M LoadState unit :=
  try_except (bind_node sec)
    (fun e =>
       match e with
       | ConnectionError => mraise e
       | _ =>
           if node_not_found_class e
           then reset_if_valid WARNING "Node not found (2); device: %s, key: %s, path: %s"
           else if is_ua_status_code_error e
           then reset_if_valid ERROR "Node status code error: %s"
           else reset_if_valid ERROR "%s"
       end).

(** The outcome of the lookup of a binding, which depends on the
    binding and on the server only: the node, nothing when browsing finds
    no match, or the exception raised. *)
Definition lookup (nd : Node.t) : result (option node) :=
  fst (resolve_binding
         (Build_LoadState nd [] (Build_Session None false [] [] [] []))).

(** The entry of [device.nodes] that a binding accounts for. *)
Definition listed (sec : section) (nd : Node.t) : list NodeConfig :=
  match lookup nd with
  | Ok (Some found_node) => [Build_NodeConfig found_node (Node.key nd) sec]
  | _ => []
  end.

(** The binding [nd] has had its turn in a cycle that starts with the
    session [first] and ends with the session [final], and has come out
    as [nd']: the [try] statement has run on it in some state of the cycle
    and has returned; a subscription object there at the start was still
    there, and what the statement did to the connector is part of [final];
    if the [try] block raised, the binding is recovered; and if it
    returned with a node, the binding has its flags from before or is
    valid. *)
Definition processed (first final : Session) (sec : section)
  (nd nd' : Node.t) : Prop :=
  exists dn se,
    let s := Build_LoadState nd dn se in
    let s1 := snd (bind_node sec s) in
    let s' := snd (load_node sec s) in
    fst (load_node sec s) = Ok tt
    /\ cur s' = nd'
    /\ (__subscription first <> None ->
        __subscription se = __subscription first)
    /\ (exists later, calls final = calls (sess s') ++ later)
    /\ (forall e, fst (bind_node sec s) = Raise e ->
          recovered nd (sess s1) nd' (sess s'))
    /\ (fst (bind_node sec s) = Ok tt -> lookup nd <> Ok None ->
        flags nd' = flags nd \/ Node.valid nd' = Some true).

(** What a cycle that returns has done to a device: every binding of
    both sections has had its turn, and [device.nodes] lists the bindings
    whose lookup returned a node, attributes first. *)
Definition device_turn (first final : Session) (d d' : Device.t) : Prop :=
  Device.name d' = Device.name d
  /\ Forall2 (processed first final attributes)
       (Device.values d attributes) (Device.values d' attributes)
  /\ Forall2 (processed first final timeseries)
       (Device.values d timeseries) (Device.values d' timeseries)
  /\ Device.nodes d'
     = flat_map (listed attributes) (Device.values d attributes)
       ++ flat_map (listed timeseries) (Device.values d timeseries).

(** [for node in device.values.get(section, [])] *)
Definition load_section (sec : section) (l : list Node.t)
  (st : list NodeConfig * Session)
  : result unit * list Node.t * (list NodeConfig * Session) :=
  for_each_mut
    (fun nd st =>
       let '(r, s) := load_node sec (Build_LoadState nd (fst st) (snd st)) in
       (r, cur s, (dnodes s, sess s)))
    l st.

(** The body of [for device in self.__device_nodes]. *)
Definition load_device (d : Device.t) (s : Session)
  : result unit * Device.t * Session :=
  let d := Device.set_nodes [] d in
  match load_section attributes (Device.values d attributes) ([], s) with
  | (Ok _, la, (ns, s1)) =>
      let d := Device.set_nodes ns (Device.set_values attributes la d) in
      match load_section timeseries (Device.values d timeseries) (ns, s1) with
      | (r, lt, (ns', s2)) =>
          (r, Device.set_nodes ns' (Device.set_values timeseries lt d), s2)
      end
  | (Raise e, la, (ns, s1)) =>
      (Raise e, Device.set_nodes ns (Device.set_values attributes la d), s1)
  end.

Definition _load_devices_nodes : M Connector unit :=
  fun c =>
    let '(r, devs, s) :=
      for_each_mut load_device (__device_nodes c) (session c) in
    (r, Build_Connector devs s).

Definition __scan_device_nodes : M Connector unit :=
  _create_new_devices ;;; _load_devices_nodes.

(* ================================================================= *)
(** ** Polling *)

(** The arguments of one [device.converter.convert] call. *)
Record ConvertCall := {
  cc_device : string;
  cc_nodes : list NodeConfig;
  cc_values : list string
}.

Record PollState := {
  poll_session : Session;
  converted : list ConvertCall
}.

(** The [for device in self.__device_nodes] loop of [__poll_nodes];
    [converted_nodes_count] is the running offset. *)
Fixpoint poll_devices (values : list string) (devices : list Device.t)
  (converted_nodes_count : nat) : M PollState nat :=
  match devices with
  | [] => mret converted_nodes_count
  | device :: rest =>
      let nodes_count := length (Device.nodes device) in
      let device_values := Py.slice values converted_nodes_count nodes_count in
      let converted_nodes_count := converted_nodes_count + nodes_count in
      mmodify (fun s =>
        Build_PollState (poll_session s)
          (converted s ++
           [Build_ConvertCall (Device.name device) (Device.nodes device)
              device_values])) ;;;
      converter_data <~
        lift (convert env device (Device.nodes device) device_values) ;;
      (match converter_data with
       | Some data =>
           mmodify (fun s =>
             Build_PollState (put_data data (poll_session s)) (converted s))
       | None => mret tt
       end) ;;;
      poll_devices values rest converted_nodes_count
  end.

(** The offset of the [i]-th device in the batch: the node counts of the
    devices before it, added up. *)
Definition batch_offset (devices : list Device.t) (i : nat) : nat :=
  list_sum (map (fun d => length (Device.nodes d)) (firstn i devices)).

(** The converter calls a poll over [devices] is to make, the first
    device reading [values] from [offset] on. *)
Fixpoint expected_converts (values : list string) (devices : list Device.t)
  (offset : nat) : list ConvertCall :=
  match devices with
  | [] => []
  | d :: rest =>
      Build_ConvertCall (Device.name d) (Device.nodes d)
        (Py.slice values offset (length (Device.nodes d)))
      :: expected_converts values rest (offset + length (Device.nodes d))
  end.

(** The state after one converter call of the poll loop that returned
    [o]: the call is recorded and a truthy result queued. *)
Definition after_convert (d : Device.t) (vals : list string)
  (o : option string) (s : PollState) : PollState :=
  let s1 := Build_PollState (poll_session s)
              (converted s ++
               [Build_ConvertCall (Device.name d) (Device.nodes d) vals]) in
  match o with
  | Some data => Build_PollState (put_data data (poll_session s1)) (converted s1)
  | None => s1
  end.

Definition all_nodes (devices : list Device.t) : list node :=
  flat_map (fun device => map nc_node (Device.nodes device)) devices.

Definition __poll_nodes (c : Connector) : result unit * PollState :=
  let all := all_nodes (__device_nodes c) in
  let s := Build_PollState (session c) [] in
  if (0 <? length all)%nat then
    (mmodify (fun s =>
       Build_PollState (add_call (ReadAttributes all) (poll_session s))
         (converted s)) ;;;
     values <~ lift (read_attributes cl all) ;;
     poll_devices values (__device_nodes c) 0 ;;;
     mret tt) s
  else
    (Ok tt, Build_PollState (add_log INFO "No nodes to poll" (session c)) []).

(* ================================================================= *)
(** ** Commands *)

(** [e.__str__()]: the text of an exception.  The texts of the status
    code exceptions are asyncua's, which is outside the sources (a
    description of the status followed by its name); the class name stands
    for the text here, and an exception that carries a text of its own
    gives that text. *)
Definition exn_str (e : exn) : string :=
  match e with
  | AssertionError => "AssertionError"
  | IndexError => "IndexError"
  | KeyError => "KeyError"
  | ValueError => "ValueError"
  | TypeError => "TypeError"
  | AttributeError => "AttributeError"
  | ReError => "error"
  | ConnectionError => "ConnectionError"
  | BadNodeIdUnknown => "BadNodeIdUnknown"
  | BadConnectionClosed => "BadConnectionClosed"
  | BadInvalidState => "BadInvalidState"
  | BadSessionClosed => "BadSessionClosed"
  | BadAttributeIdInvalid => "BadAttributeIdInvalid"
  | BadCommunicationError => "BadCommunicationError"
  | BadOutOfService => "BadOutOfService"
  | BadNoMatch => "BadNoMatch"
  | BadUnexpectedError => "BadUnexpectedError"
  | BadWaitingForInitialData => "BadWaitingForInitialData"
  | UaStatusCodeErrors => "UaStatusCodeErrors"
  | UaStatusCodeError _ => "UaStatusCodeError"
  | OtherException text => text
  end.

(** Each command coroutine catches every exception and stores its text
    in [result]; it returns the [result] dictionary it was given. *)
Definition __write_value (path value : string) : M Connector rpc_result :=
  fun c =>
    match get_node cl (Py.replace "\." "." path) with
    | Raise e => (Ok (RError (exn_str e)), c)
    | Ok var =>
        let c := Build_Connector (__device_nodes c)
                   (add_call (WriteValue var value) (session c)) in
        match write_value cl var value with
        | Ok _ => (Ok REmpty, c)
        | Raise e => (Ok (RError (exn_str e)), c)
        end
    end.

Definition __read_value (path : string) : M Connector rpc_result :=
  fun c =>
    match get_node cl path with
    | Raise e => (Ok (RError (exn_str e)), c)
    | Ok var =>
        let c := Build_Connector (__device_nodes c)
                   (add_call (ReadValue var) (session c)) in
        match read_value cl var with
        | Ok v => (Ok (RValue v), c)
        | Raise e => (Ok (RError (exn_str e)), c)
        end
    end.

Definition __call_method (path : list string) (method_name : string)
  (args : list string) : M Connector rpc_result :=
  fun c =>
    match get_child cl path with
    | Raise e => (Ok (RError (exn_str e)), c)
    | Ok var =>
        let method_id :=
          (Py.str_of_nat (nodeid_namespace cl var) ++ ":" ++ method_name)%string in
        let c := Build_Connector (__device_nodes c)
                   (add_call (CallMethod var method_id args) (session c)) in
        match call_method cl var method_id args with
        | Ok v => (Ok (RResult v), c)
        | Raise e => (Ok (RError (exn_str e)), c)
        end
    end.

(** The [params] of a request: absent, a string, a list of positional
    arguments, or a dictionary that may hold ["arguments"]. *)
Inductive pyparams :=
| PNone
| PStr (s : string)
| PList (l : list string)
| PDict (args : option (list string)).

(** [content['data']]; [None] stands for a key that is absent, which
    [.get] reads as [None] and a subscript answers with [KeyError]. *)
Record RpcData := {
  data_params : pyparams;
  data_method : option string;
  data_id : option nat
}.

(** The request; the last three fields are the top-level keys
    ['params'], ['method'] and ['id']. *)
Record Content := {
  content_device : option string;
  content_data : option RpcData;
  content_params : option pyparams;
  content_method : option string;
  content_id : option nat
}.

Definition send_rpc_reply (device : string) (req_id : option nat)
  (content : list (string * rvalue)) : M Connector unit :=
  on_session (mmodify (add_reply (Build_Reply device req_id content))).

Definition key_of {A} (o : option A) : result A :=
  match o with
  | Some a => Ok a
  | None => Raise KeyError
  end.

(** [params.split(sep)] where [params] may not be a string. *)
Definition params_split (sep : string) (p : pyparams) : result (list string) :=
  match p with
  | PStr s => Ok (Py.split sep s)
  | _ => Raise AttributeError
  end.

(** [*arguments] *)
Definition star_args (p : pyparams) : list string :=
  match p with
  | PNone => []
  | PStr s => chars s
  | PList l => l
  | PDict (Some _) => ["arguments"]
  | PDict None => []
  end.

Definition nth_item (l : list string) (i : nat) : result string :=
  match nth_error l i with
  | Some x => Ok x
  | None => Raise IndexError
  end.

(** [str(x)] of an optional string, for ["%s" % rpc_method]. *)
Definition str_opt (o : option string) : string :=
  match o with
  | Some s => s
  | None => "None"
  end.

(** The first [try] of the handler: recognising a connector RPC.  It
    returns the request with [content['device']] possibly replaced, and
    [rpc_method]. *)
Definition connector_rpc (content : Content) (rpc_method : option string)
  : M Connector (Content * option string) :=
  match rpc_method with
  | None => mret (content, rpc_method)            (* [AttributeError]: pass *)
  | Some m =>
      match Py.split "_" m with
      | [connector_type; rpc_method_name] =>
          if String.eqb connector_type (_connector_type cfg) then
            params <~ lift (key_of (content_params content)) ;;
            match params with
            | PStr s =>
                let dev :=
                  Py.last_item
                    (Py.split "=" (hd EmptyString (Py.split " " s))) in
                mret (Build_Content (Some dev) (content_data content)
                        (content_params content) (content_method content)
                        (content_id content),
                      Some rpc_method_name)
            | _ => mret (content, Some rpc_method_name)
            end
          else mret (content, rpc_method)
      | _ =>
          log_to ERROR "Invalid RPC method name: %s" ;;;
          mret (content, rpc_method)
      end
  end.

(** The branch for the ['get'] and ['set'] pseudo-methods. *)
Definition get_set_rpc (device : string) (data : RpcData)
  (rpc_method : string) : M Connector unit :=
  args_list <~ lift (params_split ";" (data_params data)) ;;
  let params := match data_params data with PStr s => s | _ => EmptyString end in
  let full_path :=
    if Py.contains "ns" params then
      Py.join ";"
        (if String.eqb rpc_method "set"
         then Py.slice_to args_list (-1)
         else args_list)
    else Py.last_item (Py.split "=" (hd EmptyString args_list)) in
  result <~
    (if String.eqb rpc_method "get" then __read_value full_path
     else if String.eqb rpc_method "set" then
       third <~ lift (nth_item args_list 2) ;;
       let value := Py.last_item (Py.split "=" third) in
       __write_value full_path value
     else mret REmpty) ;;
  method_key <~ lift (key_of (data_method data)) ;;
  send_rpc_reply device (data_id data) [(method_key, VResult result)].

(** The body of [for rpc in device.config['rpc_methods']]. *)
Definition device_rpc_entry (content_device : string) (device : Device.t)
  (data : RpcData) (rpc_method : option string) (rpc : RpcMethod)
  : M Connector unit :=
  (* [content["data"]['method']] in the condition: [KeyError] when the
     key is absent *)
  requested <~ lift (key_of (data_method data)) ;;
  if String.eqb (method rpc) requested
  then
    let arguments :=
      match data_params data with
      | PNone => arguments rpc
      | p => star_args p
      end in
    method_name <~ lift (key_of (data_method data)) ;;
    try_except
      (result <~ __call_method (Device.path device) method_name arguments ;;
       req_id <~ lift (key_of (data_id data)) ;;
       send_rpc_reply content_device (Some req_id)
         (dict_set "code" (VInt 200) [(method_name, VResult result)]))
      (fun e =>
         log_to ERROR "%s" ;;;
         req_id <~ lift (key_of (data_id data)) ;;
         send_rpc_reply content_device (Some req_id)
           (dict_set "code" (VInt 500) [("error", VStr (exn_str e))]))
  else
    log_to ERROR "Method %s not found for device %s" ;;;
    req_id <~ lift (key_of (data_id data)) ;;
    send_rpc_reply content_device (Some req_id)
      (dict_set "code" (VInt 404)
         [("error", VStr (str_opt rpc_method ++ " - Method not found")%string)]).

Definition device_rpc (content_device : string) (data : RpcData)
  (rpc_method : option string) : M Connector unit :=
  c <~ mget ;;
  match filter (fun i => String.eqb (Device.name i) content_device)
          (__device_nodes c) with
  | [] => mraise IndexError
  | device :: _ =>
      methods <~
        lift (key_of (rpc_methods (template (Device.config device)))) ;;
      for_each (device_rpc_entry content_device device data rpc_method) methods
  end.

(** The branch taken without a device: the method is called on every
    device and the results are returned. *)
Fixpoint broadcast_rpc (devices : list Device.t) (data : RpcData)
  (rpc_method : option string) (results : list rpc_result)
  : M Connector (list rpc_result) :=
  match devices with
  | [] => mret results
  | device :: rest =>
      arguments <~
        lift (match data_params data with
              | PDict (Some a) => Ok a
              | PDict None => Raise KeyError
              | _ => Raise TypeError
              end) ;;
      results <~
        try_except
          (result <~ __call_method (Device.path device) (str_opt rpc_method)
                       arguments ;;
           mret (results ++ [result]))
          (fun e =>
             log_to ERROR "%s" ;;;
             req_id <~ lift (key_of (data_id data)) ;;
             send_rpc_reply (Device.name device) (Some req_id)
               (dict_set "code" (VInt 500) [("error", VStr (exn_str e))]) ;;;
             mret results) ;;
      broadcast_rpc rest data rpc_method results
  end.

Definition is_truthy (o : option string) : bool :=
  match o with
  | Some (String _ _) => true
  | _ => false
  end.

Definition server_side_rpc_handler (content : Content)
  : M Connector (option (list rpc_result)) :=
  try_except
    (data <~
       lift (match content_data content with
             | Some d => Ok d
             | None =>
                 p <- key_of (content_params content) ;;
                 m <- key_of (content_method content) ;;
                 i <- key_of (content_id content) ;;
                 Ok (Build_RpcData p (Some m) (Some i))
             end) ;;
     '(content, rpc_method) <~ connector_rpc content (data_method data) ;;
     if is_truthy (content_device content) then
       let device := str_opt (content_device content) in
       if match rpc_method with
          | Some m => String.eqb m "set" || String.eqb m "get"
          | None => false
          end
       then get_set_rpc device data (str_opt rpc_method) ;;; mret None
       else device_rpc device data rpc_method ;;; mret None
     else
       c <~ mget ;;
       results <~ broadcast_rpc (__device_nodes c) data rpc_method [] ;;
       mret (Some results))
    (fun e => log_to ERROR "%s" ;;; mret None).

End Connector.

(* ================================================================= *)
(** ** A table-driven client, for concrete runs

    An address space is a table of nodes; [get_child] walks qualified
    segments from the root, and chosen paths can be made to raise. *)

Module Demo.

Record entry := {
  e_id : node;
  e_ns : nat;
  e_name : string;
  e_children : list node;
  e_value : string
}.

Definition lookup (tbl : list entry) (n : node) : option entry :=
  find (fun e => Nat.eqb (e_id e) n) tbl.

Definition browse_name (tbl : list entry) (n : node) : result (nat * string) :=
  match lookup tbl n with
  | Some e => Ok (e_ns e, e_name e)
  | None => Raise BadNodeIdUnknown
  end.

Definition children (tbl : list entry) (n : node) : result (list node) :=
  match lookup tbl n with
  | Some e => Ok (e_children e)
  | None => Raise BadNodeIdUnknown
  end.

Definition child_named (tbl : list entry) (seg : string) (n : node)
  : option node :=
  match lookup tbl n with
  | Some e =>
      find (fun c =>
              match lookup tbl c with
              | Some ce => String.eqb (qualified (e_ns ce, e_name ce)) seg
              | None => false
              end)
           (e_children e)
  | None => None
  end.

Fixpoint walk (tbl : list entry) (p : list string) (n : node) : result node :=
  match p with
  | [] => Ok n
  | seg :: rest =>
      match child_named tbl seg n with
      | Some c => walk tbl rest c
      | None => Raise BadNoMatch
      end
  end.

Fixpoint assoc {A} (eqb : A -> A -> bool) (k : A) (l : list (A * exn))
  : option exn :=
  match l with
  | [] => None
  | (k', e) :: l' => if eqb k k' then Some e else assoc eqb k l'
  end.

Fixpoint path_eqb (p q : list string) : bool :=
  match p, q with
  | [], [] => true
  | x :: p', y :: q' => String.eqb x y && path_eqb p' q'
  | _, _ => false
  end.

Definition client (tbl : list entry) (faults : list (list string * exn))
  (sub_faults : list (node * exn)) : Client :=
  {| root := 0;
     get_children := children tbl;
     read_browse_name := browse_name tbl;
     get_child := fun p =>
       match assoc path_eqb p faults with
       | Some e => Raise e
       | None => walk tbl p 0
       end;
     get_node := fun s =>
       match find (fun e =>
                     String.eqb
                       ("ns=" ++ Py.str_of_nat (e_ns e) ++ ";s=" ++ e_name e)
                       s) tbl with
       | Some e => Ok (e_id e)
       | None => Raise BadNodeIdUnknown
       end;
     read_value := fun n =>
       match lookup tbl n with
       | Some e => Ok (e_value e)
       | None => Raise BadNodeIdUnknown
       end;
     nodeid_to_string := fun n => Py.str_of_nat n;
     nodeid_namespace := fun n =>
       match lookup tbl n with
       | Some e => e_ns e
       | None => 0
       end;
     create_subscription := Ok 1;
     subscribe_data_change := fun n =>
       match assoc Nat.eqb n sub_faults with
       | Some e => Raise e
       | None => Ok (100 + n)
       end;
     unsubscribe := fun _ => Ok tt;
     read_attributes := fun ns =>
       mapM (fun n =>
               match lookup tbl n with
               | Some e => Ok (e_value e)
               | None => Raise BadNodeIdUnknown
               end) ns;
     write_value := fun _ _ => Ok tt;
     call_method := fun _ m _ => Ok m |}.

(** Root with an [Objects] folder holding two rooms; each room has an
    identifier and a temperature. *)
Definition rooms : list entry :=
  [ Build_entry 0 0 "Root" [1] "";
    Build_entry 1 0 "Objects" [2; 3] "";
    Build_entry 2 2 "Room1" [4; 5] "";
    Build_entry 3 2 "Room2" [6; 7] "";
    Build_entry 4 2 "Id" [] "A";
    Build_entry 5 2 "Temperature" [] "21";
    Build_entry 6 2 "Id" [] "B";
    Build_entry 7 2 "Temperature" [] "23" ].

(** Two siblings with the same name in different namespaces. *)
Definition twins : list entry :=
  [ Build_entry 0 0 "Root" [1; 2] "";
    Build_entry 1 2 "Room" [3] "";
    Build_entry 2 3 "Room" [4] "";
    Build_entry 3 2 "Temperature" [] "21";
    Build_entry 4 3 "Temperature" [] "23" ].

Definition env : Env :=
  {| import_module := fun _ => true;
     load_values := fun dc p =>
       ([], [Node.mk "temperature" (PathList (p ++ ["Temperature"]))
               None None None None None]);
     convert := fun d ns vs => Ok (Some (String.concat "," vs)) |}.

Definition idle : Session :=
  Build_Session None false [] [] [] [].

Definition temperature_path : list string :=
  ["0:Objects"; "2:Room1"; "2:Temperature"].

(** The same address space, where fetching the temperature of the first
    room raises [e]. *)
Definition faulty (e : exn) : Client :=
  client rooms [(temperature_path, e)] [].

(** A binding that is valid and subscribed, and one not bound yet. *)
Definition bound_temperature : Node.t :=
  Node.mk "temperature" (PathList ["0:Objects"; "2:Room1"; "Temperature"])
    (Some true) (Some true) (Some 105) (Some "5") (Some temperature_path).

Definition fresh_id : Node.t :=
  Node.mk "id" (PathList ["0:Objects"; "2:Room1"; "Id"])
    None None None None None.

Definition subscribed : Session :=
  Build_Session (Some 1) false [] [] [] [].

Definition room1 : Template :=
  Build_Template "Root\.Objects\.Room1"
    (Some "Dev ${Root\.Objects\.Room1\.Id}") None None
    (Some [Build_RpcMethod "a" []; Build_RpcMethod "b" []]).

Definition push_config : Config := Build_Config "opcua" true [room1].

(** A template whose pattern names both twins and whose device name is
    a constant. *)
Definition twin_config : Config :=
  Build_Config "opcua" true
    [Build_Template "Room" (Some "Dev") None None None].

(** A template whose pattern names both twins and whose device name is
    read from the temperature of each. *)
Definition named_twins_config : Config :=
  Build_Config "opcua" true
    [Build_Template "Root\.Room"
       (Some "Dev ${Root\.Room\.Temperature}") None None None].


(** A request for a method of device [Dev A], with request id 7. *)
Definition request (m : string) (p : pyparams) : Content :=
  Build_Content (Some "Dev A") (Some (Build_RpcData p (Some m) (Some 7)))
    None None None.

(** The connector after a first scan of [rooms] under [push_config]: one
    device, [Dev A], whose temperature is bound and subscribed. *)
Definition scanned_once : Connector :=
  snd (__scan_device_nodes (client rooms [] []) env push_config
         (Build_Connector [] idle)).

(** The same address space, where the root of [Dev A] cannot be
    fetched, so that calling a method on it raises. *)
Definition unreachable : Client :=
  client rooms [(["0:Objects"; "2:Room1"], BadNoMatch)] [].

(** Two devices with the nodes their last scan bound. *)
Definition two_rooms : list Device.t :=
  [ Device.mk ["0:Objects"; "2:Room1"] "A"
      (Build_DeviceConfig (Build_Template "" None None None None) "A"
         (InfoFirst "default"))
      [] [] [Build_NodeConfig 4 "id" attributes;
             Build_NodeConfig 5 "temperature" timeseries]
      "OpcUaUplinkConverter" None;
    Device.mk ["0:Objects"; "2:Room2"] "B"
      (Build_DeviceConfig (Build_Template "" None None None None) "B"
         (InfoFirst "default"))
      [] [] [Build_NodeConfig 7 "temperature" timeseries]
      "OpcUaUplinkConverter" None ].

End Demo.

(* ================================================================= *)
(** ** Further parts of the connector *)

Section RetryRuns.

Variables (W A : Type).
Variable func : W -> result A * W.

(** The world after [k] invocations of [func]. *)
Fixpoint world_after (k : nat) (w : W) : W :=
  match k with
  | O => w
  | S k' => world_after k' (snd (func w))
  end.

End RetryRuns.

(** A qualified path that continues [nodes] with one qualified segment
    per segment of [node_list]. *)
Definition continues (nodes node_list p : list string) : Prop :=
  exists suffix,
    p = nodes ++ suffix
    /\ length suffix = length node_list
    /\ Forall (fun seg => Py.has_char ":" seg = true) suffix.

(** A binding that is subscribed is valid and holds its handle. *)
Definition well_formed (nd : Node.t) : Prop :=
  Node.sub_on nd = Some true ->
  Node.valid nd = Some true /\ exists h, Node.subscription nd = Some h.

Definition device_well_formed (d : Device.t) : Prop :=
  Forall well_formed (Device.values d attributes)
  /\ Forall well_formed (Device.values d timeseries).

Definition is_unsubscribe (c : call) : bool :=
  match c with
  | Unsubscribe _ => true
  | _ => false
  end.

(** How a session after part of a binding cycle relates to the one
    before: calls are only added, a subscription reference that was set
    is kept, the stop flag is not touched, and while push is off (by
    configuration or because the connector is stopped) the calls added
    are [unsubscribe] calls and the reference is not set either. *)
Definition session_step (push : bool) (se se' : Session) : Prop :=
  (exists extra,
     calls se' = calls se ++ extra
     /\ (push && negb (__stopped se) = false ->
         forallb is_unsubscribe extra = true))
  /\ (__subscription se <> None -> __subscription se' = __subscription se)
  /\ (push && negb (__stopped se) = false ->
      __subscription se' = __subscription se)
  /\ __stopped se' = __stopped se.

(** How the state of the innermost loop of [_load_devices_nodes] after a
    step relates to the state before: the session moves as above, the
    binding keeps its key, and [device.nodes] gains at most [bound]
    entries, all for this binding's key and section. *)
Definition node_step (sec : section) (push : bool) (bound : nat)
  (s s' : LoadState) : Prop :=
  session_step push (sess s) (sess s')
  /\ Node.key (cur s') = Node.key (cur s)
  /\ exists new,
       dnodes s' = dnodes s ++ new
       /\ length new <= bound
       /\ Forall (fun nc => nc_key nc = Node.key (cur s)
                            /\ nc_section nc = sec) new.

(** What a reset does to the connector: it only adds [unsubscribe]
    calls, and nothing at all while there is no subscription object. *)
Definition quiet (s s' : Session) : Prop :=
  session_step false s s' /\ (__subscription s = None -> s' = s).

(** The protocol calls a command may issue. *)
Definition is_command (c : call) : bool :=
  match c with
  | WriteValue _ _ | ReadValue _ | CallMethod _ _ _ => true
  | _ => false
  end.

(** What handling a request may do to the connector: it adds command
    calls, replies and log lines, and touches nothing else. *)
Definition rpc_step (c c' : Connector) : Prop :=
  __device_nodes c' = __device_nodes c
  /\ __subscription (session c') = __subscription (session c)
  /\ __stopped (session c') = __stopped (session c)
  /\ __data_to_send (session c') = __data_to_send (session c)
  /\ (exists extra,
        calls (session c') = calls (session c) ++ extra
        /\ forallb is_command extra = true)
  /\ (exists sent, replies (session c') = replies (session c) ++ sent)
  /\ exists lines, log (session c') = log (session c) ++ lines.

Definition keeps {A} (m : M Connector A) : Prop :=
  forall c, rpc_step c (snd (m c)).

Unset Implicit Arguments.

(* ================================================================= *)
(** * Properties *)

(** ** Strings and the regular-expression fragment *)

Module PyFacts.

Lemma prefix_colon (c : ascii) (s : string) :
  String.prefix ":" (String c s) = Ascii.eqb ":" c.
Proof.
  change (String.prefix ":" (String c s))
    with (if ascii_dec ":" c then String.prefix EmptyString s else false).
  destruct (ascii_dec ":" c) as [<- | Hne].
  - now destruct s.
  - symmetry. now apply Ascii.eqb_neq.
Qed.

Lemma split_colon_length (s acc : string) :
  length (Py.split_go ":" 0 acc s) = S (Py.count_char ":" s).
Proof.
  revert acc. induction s as [| c s IH]; intros acc.
  - reflexivity.
  - cbn [Py.split_go Py.count_char]. rewrite prefix_colon.
    destruct (Ascii.eqb ":" c); cbn [length String.length Nat.sub];
      rewrite IH; reflexivity.
Qed.

Lemma has_char_count (c : ascii) (s : string) :
  Py.has_char c s = true <-> 0 < Py.count_char c s.
Proof.
  induction s as [| d s IH]; simpl.
  - split; [discriminate | lia].
  - destruct (Ascii.eqb c d); simpl.
    + split; [lia | reflexivity].
    + exact IH.
Qed.

Lemma count_char_pos (c : ascii) (s : string) :
  0 < Py.count_char c s -> exists k, Py.count_char c s = S k.
Proof. intros H. exists (pred (Py.count_char c s)). lia. Qed.

Lemma split_nonempty (sep s acc : string) (k : nat) :
  Py.split_go sep k acc s <> [].
Proof.
  revert acc k. induction s as [| c s IH]; intros acc k; cbn [Py.split_go].
  - discriminate.
  - destruct k; [destruct (String.prefix sep (String c s)) |]; try apply IH.
    discriminate.
Qed.

Lemma slice_to_neg_zero {A} (l : list A) : Py.slice_to l (- Z.of_nat 0) = [].
Proof.
  unfold Py.slice_to. cbn [Z.of_nat Z.opp Z.ltb Z.compare].
  rewrite Z.min_l by lia. reflexivity.
Qed.

Lemma slice_from_length {A} (l : list A) : Py.slice_from l (length l - 0) = [].
Proof. unfold Py.slice_from. rewrite Nat.sub_0_r. apply skipn_all. Qed.

(** Decimal digits never contain a colon, so [ns:name] can be read back. *)
Lemma digits_colon_inj (d1 d2 : Decimal.uint) (n1 n2 : string) :
  (DecimalString.NilEmpty.string_of_uint d1 ++ String ":" n1)%string =
  (DecimalString.NilEmpty.string_of_uint d2 ++ String ":" n2)%string ->
  d1 = d2 /\ n1 = n2.
Proof.
  revert d2. induction d1; intros d2 H; destruct d2; simpl in H;
    try discriminate;
    try (injection H as H; apply IHd1 in H; destruct H; subst; now split).
  injection H as H. now split.
Qed.

Lemma qualified_inj (a b : nat * string) : qualified a = qualified b -> a = b.
Proof.
  destruct a as [n1 s1], b as [n2 s2]. unfold qualified, Py.str_of_nat. simpl.
  intros H. apply digits_colon_inj in H. destruct H as [H1 H2].
  apply DecimalNat.Unsigned.to_uint_inj in H1. now subst.
Qed.

End PyFacts.

Module ReFacts.

Lemma parse_escape_step (c : ascii) (s : string) (acc : list Re.item) :
  Re.parse_go (Re.escape (String c s)) false acc =
  Re.parse_go (Re.escape s) false ((Re.ALit c, false) :: acc).
Proof.
  destruct c as [[] [] [] [] [] [] [] []]; reflexivity.
Qed.

Lemma parse_escape (s : string) (acc : list Re.item) :
  Re.parse_go (Re.escape s) false acc = Some (rev acc ++ Re.lits s).
Proof.
  revert acc. induction s as [| c s IH]; intros acc.
  - simpl. now rewrite app_nil_r.
  - rewrite parse_escape_step, IH. simpl. now rewrite <- app_assoc.
Qed.

Lemma match_lits (s n : string) :
  Re.match_items (Re.lits s) n = String.eqb s n.
Proof.
  revert n. induction s as [| c s IH]; intros [| d n]; simpl; try reflexivity.
  rewrite IH. destruct (Ascii.eqb c d); reflexivity.
Qed.

(** Matching an escaped pattern is comparing for equality. *)
Lemma fullmatch_escape (s n : string) :
  Re.fullmatch (Re.escape s) n = Some (String.eqb s n).
Proof.
  unfold Re.fullmatch, Re.parse. rewrite parse_escape. simpl.
  now rewrite match_lits.
Qed.

End ReFacts.

(** ** Address-space resolution *)

Lemma segment_matches_literal (seg name : string) :
  segment_matches seg name = Ok (literal_match seg name).
Proof.
  unfold segment_matches, literal_match.
  rewrite ReFacts.fullmatch_escape.
  destruct (String.eqb seg name); reflexivity.
Qed.

Section ResolverFacts.

Variable cl : Client.

Lemma paths_nodup (nodes : list string) (l : list (nat * string)) :
  NoDup l -> NoDup (map (fun bn => nodes ++ [qualified bn]) l).
Proof.
  induction 1 as [| x l Hx Hl IH]; cbn [map]; constructor; [| exact IH].
  intros Hin. apply in_map_iff in Hin. destruct Hin as [y [Hy Hin]].
  apply app_inv_head in Hy. injection Hy as Hy.
  apply PyFacts.qualified_inj in Hy. now subst.
Qed.

End ResolverFacts.

(** C10: a path whose segments all carry a namespace index makes
    [find_node_name_space_index] count no unresolved segment, take the
    empty prefix [path[:-0]] as resolved and the empty suffix as
    unresolved, and call [__find_nodes] with an empty segment list: the
    assertion fails whenever the parent lookup returns, and the call
    raises in every case instead of returning the path. *)
Theorem find_node_name_space_index_all_qualified
  (cl : Client) (p : node_path) :
  let segs := match p with PathStr s => Py.split "\." s | PathList l => l end in
  segs <> [] ->
  Forall (fun seg => Py.has_char ":" seg = true) segs ->
  length (filter is_unresolved segs) = 0
  /\ Py.slice_to segs (- Z.of_nat (length (filter is_unresolved segs))) = []
  /\ Py.slice_from segs
       (length segs - length (filter is_unresolved segs)) = []
  /\ (forall parent, get_child cl [] = Ok parent ->
        find_node_name_space_index cl p = __find_nodes cl [] parent []
        /\ find_node_name_space_index cl p = Raise AssertionError)
  /\ exists e, find_node_name_space_index cl p = Raise e.
Proof.
  intros segs _ Hall.
  assert (Hcount : filter is_unresolved segs = []).
  { induction Hall as [| seg l Hseg _ IH]; [reflexivity |].
    cbn [filter]. rewrite IH.
    unfold is_unresolved, Py.split. rewrite PyFacts.split_colon_length.
    apply PyFacts.has_char_count in Hseg.
    destruct (PyFacts.count_char_pos _ _ Hseg) as [k ->]. reflexivity. }
  rewrite Hcount. cbn [length].
  assert (Hres : Py.slice_to segs (- Z.of_nat 0) = [])
    by apply PyFacts.slice_to_neg_zero.
  assert (Hun : Py.slice_from segs (length segs - 0) = [])
    by apply PyFacts.slice_from_length.
  assert (Hrun : find_node_name_space_index cl p =
                 (parent_node <- get_child cl [] ;;
                  __find_nodes cl [] parent_node [])).
  { unfold find_node_name_space_index. fold segs.
    rewrite Hcount. cbn [length]. rewrite Hres, Hun. reflexivity. }
  repeat split; try assumption.
  - rewrite Hrun, H. reflexivity.
  - rewrite Hrun, H. reflexivity.
  - rewrite Hrun. destruct (get_child cl []) as [parent | e].
    + exists AssertionError. reflexivity.
    + exists e. reflexivity.
Qed.

Lemma find_node_name_space_index_all_qualified_witness :
  exists e,
    find_node_name_space_index (Demo.client Demo.rooms [] [])
      (PathList ["0:Objects"; "2:Room1"]) = Raise e.
Proof.
  apply (find_node_name_space_index_all_qualified
           (Demo.client Demo.rooms [] [])
           (PathList ["0:Objects"; "2:Room1"])).
  - discriminate.
  - repeat constructor.
Defined.

Lemma mapM_Forall2 {A B} (f : A -> result B) (l : list A) (ys : list B) :
  mapM f l = Ok ys <-> Forall2 (fun x y => f x = Ok y) l ys.
Proof.
  revert ys. induction l as [| x l IH]; intros ys; cbn [mapM].
  - split; [intros H; injection H as <-; constructor |].
    intros H. inversion H. reflexivity.
  - destruct (f x) as [y | e] eqn:Hx; cbn [rbind].
    + destruct (mapM f l) as [ys' | e] eqn:Hl; cbn [rbind].
      * split.
        -- intros H. injection H as <-. constructor; [exact Hx |].
           now apply IH.
        -- intros H. inversion H as [| ? y' ? ys'' Hy Hys]; subst.
           apply IH in Hys. rewrite Hx in Hy. congruence.
      * split; [discriminate |].
        intros H. inversion H as [| ? y' ? ys'' Hy Hys]; subst.
        apply IH in Hys. discriminate.
    + split; [discriminate |].
      intros H. inversion H as [| ? y' ? ys'' Hy Hys]; subst.
      rewrite Hx in Hy. discriminate.
Qed.

Lemma concat_concat {A} (l : list (list (list A))) :
  concat (map (@concat A) l) = concat (concat l).
Proof.
  induction l as [| x l IH]; cbn; [reflexivity |].
  now rewrite concat_app, IH.
Qed.

Lemma Forall2_map_right_aux {A B C} (R : A -> C -> Prop) (f : B -> C)
  (l : list A) (l' : list B) :
  Forall2 (fun x y => R x (f y)) l l' -> Forall2 R l (map f l').
Proof. induction 1; cbn [map]; constructor; auto. Qed.

Lemma Forall2_concat {A B} (R : A -> B -> Prop) (ls : list (list A))
  (ms : list (list B)) :
  Forall2 (Forall2 R) ls ms -> Forall2 R (concat ls) (concat ms).
Proof.
  induction 1; cbn; [constructor | now apply Forall2_app].
Qed.

Section LiteralResolution.

Variable cl : Client.

(** The loop of [__find_nodes] at the last segment reads the browse
    names one after the other and keeps the matching ones. *)
Lemma last_loop_exact (seg : string) (nodes : list string) :
  forall (children : list node) (final : list (list string)),
  for_acc
    (fun nd final =>
       child_node <- read_browse_name cl nd ;;
       m <- segment_matches seg (snd child_node) ;;
       if m then Ok (final ++ [nodes ++ [qualified child_node]])
       else Ok final)
    children final =
  (bns <- mapM (read_browse_name cl) children ;;
   Ok (final ++
       map (fun cb => nodes ++ [qualified (snd cb)])
         (filter (fun cb => literal_match seg (snd (snd cb)))
            (combine children bns)))).
Proof.
  set (body := fun (nd : node) (final : list (list string)) => _).
  induction children as [| nd children IH]; intros final.
  - cbn. now rewrite app_nil_r.
  - cbn [mapM for_acc]. unfold body at 1.
    destruct (read_browse_name cl nd) as [bn | e]; [| reflexivity].
    cbn [rbind]. rewrite segment_matches_literal. cbn [rbind].
    destruct (literal_match seg (snd bn)) eqn:Hm; cbn [rbind]; rewrite IH;
      destruct (mapM (read_browse_name cl) children) as [bns | e];
      cbn [rbind combine filter snd]; rewrite ?Hm; try reflexivity.
    cbn [map snd]. now rewrite <- app_assoc.
Qed.

Lemma find_nodes_last_exact (seg : string) (n : node) (p : list string) :
  __find_nodes cl [seg] n p =
  (matched <- matching_children cl seg n ;;
   Ok (map (fun cb => p ++ [qualified (snd cb)]) matched)).
Proof.
  cbn [__find_nodes]. unfold matching_children.
  destruct (get_children cl n) as [children | e]; [| reflexivity].
  cbn [rbind]. rewrite (last_loop_exact seg p children []).
  destruct (mapM (read_browse_name cl) children); reflexivity.
Qed.

Lemma find_inner_loop (seg seg' : string) (rest nodes : list string) :
  forall (children : list node) (bns : list (nat * string))
         (final : list (list string)),
  mapM (read_browse_name cl) children = Ok bns ->
  for_acc
    (fun nd final =>
       child_node <- read_browse_name cl nd ;;
       m <- segment_matches seg (snd child_node) ;;
       if m then
         sub <- __find_nodes cl (seg' :: rest) nd
                  (nodes ++ [qualified child_node]) ;;
         Ok (final ++ sub)
       else Ok final)
    children final =
  (subs <- mapM (fun cb =>
                   __find_nodes cl (seg' :: rest) (fst cb)
                     (nodes ++ [qualified (snd cb)]))
             (filter (fun cb => literal_match seg (snd (snd cb)))
                (combine children bns)) ;;
   Ok (final ++ concat subs)).
Proof.
  set (body := fun (nd : node) (final : list (list string)) => _).
  induction children as [| nd children IH]; intros bns final Hb.
  - cbn in Hb. injection Hb as <-. cbn. now rewrite app_nil_r.
  - cbn [mapM] in Hb. cbn [for_acc]. unfold body at 1.
    destruct (read_browse_name cl nd) as [bn | e]; [| discriminate].
    cbn [rbind] in Hb |- *.
    destruct (mapM (read_browse_name cl) children) as [bns' | e] eqn:Hm;
      [| discriminate].
    cbn [rbind] in Hb. injection Hb as <-.
    rewrite segment_matches_literal. cbn [rbind combine filter snd fst].
    destruct (literal_match seg (snd bn)); cbn [rbind].
    + cbn [mapM fst snd].
      destruct (__find_nodes cl (seg' :: rest) nd (nodes ++ [qualified bn]))
        as [sub | e]; cbn [rbind]; [| reflexivity].
      rewrite (IH bns' _ eq_refl).
      destruct (mapM _ (filter _ (combine children bns'))) as [subs | e];
        cbn [rbind concat]; [| reflexivity].
      now rewrite app_assoc.
    + now rewrite (IH bns' _ eq_refl).
Qed.

Lemma inner_loop_reads (seg seg' : string) (rest nodes : list string) :
  forall (children : list node) (final r : list (list string)),
  for_acc
    (fun nd final =>
       child_node <- read_browse_name cl nd ;;
       m <- segment_matches seg (snd child_node) ;;
       if m then
         sub <- __find_nodes cl (seg' :: rest) nd
                  (nodes ++ [qualified child_node]) ;;
         Ok (final ++ sub)
       else Ok final)
    children final = Ok r ->
  exists bns, mapM (read_browse_name cl) children = Ok bns.
Proof.
  set (body := fun (nd : node) (final : list (list string)) => _).
  induction children as [| nd children IH]; intros final r H.
  - now exists [].
  - cbn [for_acc] in H. unfold body at 1 in H. cbn [mapM].
    destruct (read_browse_name cl nd) as [bn | e]; [| discriminate].
    cbn [rbind] in *. rewrite segment_matches_literal in H. cbn [rbind] in H.
    destruct (literal_match seg (snd bn)).
    + destruct (__find_nodes cl (seg' :: rest) nd (nodes ++ [qualified bn]))
        as [sub | e]; [| discriminate].
      cbn [rbind] in H. destruct (IH _ _ H) as [bns ->]. now eexists.
    + destruct (IH _ _ H) as [bns ->]. now eexists.
Qed.

(** At a segment that is not the last one, a search that returns is the
    concatenation of the searches below the matching children. *)
Lemma find_nodes_inner_ok (seg seg' : string) (rest : list string)
  (n : node) (p : list string) (paths : list (list string)) :
  __find_nodes cl (seg :: seg' :: rest) n p = Ok paths <->
  exists matched subs,
    matching_children cl seg n = Ok matched
    /\ Forall2 (fun cb sub =>
                  __find_nodes cl (seg' :: rest) (fst cb)
                    (p ++ [qualified (snd cb)]) = Ok sub) matched subs
    /\ paths = concat subs.
Proof.
  assert (Hunf :
    __find_nodes cl (seg :: seg' :: rest) n p =
    (children <- get_children cl n ;;
     for_acc
       (fun nd final =>
          child_node <- read_browse_name cl nd ;;
          m <- segment_matches seg (snd child_node) ;;
          if m then
            sub <- __find_nodes cl (seg' :: rest) nd
                     (p ++ [qualified child_node]) ;;
            Ok (final ++ sub)
          else Ok final)
       children [])) by reflexivity.
  rewrite Hunf. clear Hunf. unfold matching_children.
  destruct (get_children cl n) as [children | e]; cbn [rbind];
    [| split; [discriminate | intros [m [s [H _]]]; discriminate]].
  split.
  - intros H. destruct (inner_loop_reads _ _ _ _ _ _ _ H) as [bns Hb].
    rewrite (find_inner_loop seg seg' rest p children bns [] Hb) in H.
    rewrite Hb. cbn [rbind].
    destruct (mapM _ (filter _ (combine children bns))) as [subs | e] eqn:Hs;
      [| discriminate].
    cbn [rbind app] in H. injection H as <-.
    eexists; exists subs. split; [reflexivity |]. split; [| reflexivity].
    now apply mapM_Forall2 in Hs.
  - intros [matched [subs [Hm [Hs ->]]]].
    destruct (mapM (read_browse_name cl) children) as [bns | e] eqn:Hb;
      [| discriminate].
    cbn [rbind] in Hm. injection Hm as <-.
    rewrite (find_inner_loop seg seg' rest p children bns [] Hb).
    apply mapM_Forall2 in Hs. rewrite Hs. reflexivity.
Qed.

Lemma advance_Forall2 (seg : string) (fr fr1 : list (node * list string)) :
  advance cl seg fr = Ok fr1 <->
  exists news,
    Forall2 (fun fq new =>
               exists matched,
                 matching_children cl seg (fst fq) = Ok matched
                 /\ new = map (fun cb => (fst cb, snd fq ++ [qualified (snd cb)]))
                            matched) fr news
    /\ fr1 = concat news.
Proof.
  unfold advance. split.
  - destruct (mapM _ fr) as [news | e] eqn:Hn; [| discriminate].
    cbn [rbind]. intros H. injection H as <-. exists news.
    split; [| reflexivity]. apply mapM_Forall2 in Hn.
    eapply Forall2_impl; [| exact Hn]. cbn beta. intros fq new H.
    destruct (matching_children cl seg (fst fq)) as [m | e]; [| discriminate].
    cbn [rbind] in H. injection H as <-. now exists m.
  - intros [news [Hn ->]].
    assert (H : mapM (fun fq =>
                        matched <- matching_children cl seg (fst fq) ;;
                        Ok (map (fun cb => (fst cb,
                                            snd fq ++ [qualified (snd cb)]))
                              matched)) fr = Ok news).
    { apply mapM_Forall2. eapply Forall2_impl; [| exact Hn]. cbn beta.
      intros fq new [m [-> ->]]. reflexivity. }
    rewrite H. reflexivity.
Qed.

Lemma Forall2_map_left {A B C} (R : B -> C -> Prop) (f : A -> B)
  (l : list A) (l' : list C) :
  Forall2 R (map f l) l' <-> Forall2 (fun x y => R (f x) y) l l'.
Proof.
  revert l'. induction l as [| x l IH]; intros l'; cbn [map]; split;
    intros H; inversion H; subst; constructor; auto; now apply IH.
Qed.

Lemma Forall2_concat_inv {A B} (R : A -> B -> Prop) (ls : list (list A)) :
  forall ys, Forall2 R (concat ls) ys ->
  exists ms, ys = concat ms /\ Forall2 (Forall2 R) ls ms.
Proof.
  induction ls as [| l ls IH]; intros ys H; cbn [concat] in H.
  - inversion H. exists []. split; [reflexivity | constructor].
  - apply Forall2_app_inv_l in H. destruct H as [y1 [y2 [H1 [H2 ->]]]].
    destruct (IH _ H2) as [ms [-> Hms]]. exists (y1 :: ms).
    split; [reflexivity | now constructor].
Qed.

(** Depth first, as [__find_nodes] goes, or a level at a time, as the
    frontier advances: the same paths in the same order. *)
Lemma find_nodes_resolve (segs : list string) :
  segs <> [] ->
  forall (fr : list (node * list string)) (subs : list (list (list string))),
  Forall2 (fun fq ps => __find_nodes cl segs (fst fq) (snd fq) = Ok ps)
    fr subs ->
  exists fr', resolve cl segs fr = Ok fr' /\ map snd fr' = concat subs.
Proof.
  induction segs as [| seg rest IH]; intros Hne fr subs H; [now elim Hne |].
  destruct rest as [| seg' rest'].
  - assert (Hn : exists news,
               Forall2 (fun fq new =>
                          exists matched,
                            matching_children cl seg (fst fq) = Ok matched
                            /\ new = map (fun cb =>
                                            (fst cb,
                                             snd fq ++ [qualified (snd cb)]))
                                       matched) fr news
               /\ map snd (concat news) = concat subs).
    { induction H as [| fq ps fr subs Hx _ IHf].
      - exists []. split; [constructor | reflexivity].
      - destruct IHf as [news [Hnews Hc]].
        rewrite find_nodes_last_exact in Hx.
        destruct (matching_children cl seg (fst fq)) as [m | e] eqn:Hm;
          [| discriminate].
        cbn [rbind] in Hx. injection Hx as <-.
        eexists (_ :: news). split.
        + constructor; [exists m; split; [exact Hm | reflexivity] |].
          exact Hnews.
        + cbn [concat]. rewrite map_app, Hc. f_equal.
          rewrite map_map. reflexivity. }
    destruct Hn as [news [Hnews Hc]]. exists (concat news).
    split; [| exact Hc]. cbn [resolve].
    assert (Ha : advance cl seg fr = Ok (concat news))
      by (apply advance_Forall2; now exists news).
    rewrite Ha. reflexivity.
  - assert (Hn : exists news sss,
               Forall2 (fun fq new =>
                          exists matched,
                            matching_children cl seg (fst fq) = Ok matched
                            /\ new = map (fun cb =>
                                            (fst cb,
                                             snd fq ++ [qualified (snd cb)]))
                                       matched) fr news
               /\ Forall2
                    (Forall2 (fun fq ps =>
                                __find_nodes cl (seg' :: rest') (fst fq)
                                  (snd fq) = Ok ps)) news sss
               /\ subs = map (@concat (list string)) sss).
    { induction H as [| fq ps fr subs Hx _ IHf].
      - exists [], []. repeat split; constructor.
      - destruct IHf as [news [sss [Hnews [Hsss ->]]]].
        apply find_nodes_inner_ok in Hx.
        destruct Hx as [m [ss [Hm [Hss ->]]]].
        eexists (_ :: news), (ss :: sss). split; [| split].
        + constructor; [exists m; split; [exact Hm | reflexivity] |].
          exact Hnews.
        + constructor; [| exact Hsss]. apply Forall2_map_left. exact Hss.
        + reflexivity. }
    destruct Hn as [news [sss [Hnews [Hsss ->]]]].
    destruct (IH ltac:(discriminate) (concat news) (concat sss)
                (Forall2_concat _ _ _ Hsss)) as [fr' [Hr Hc]].
    exists fr'. split; [| now rewrite concat_concat].
    change (resolve cl (seg :: seg' :: rest') fr)
      with (frontier' <- advance cl seg fr ;;
            resolve cl (seg' :: rest') frontier').
    assert (Ha : advance cl seg fr = Ok (concat news))
      by (apply advance_Forall2; now exists news).
    rewrite Ha. exact Hr.
Qed.

Lemma resolve_find_nodes (segs : list string) :
  segs <> [] ->
  forall (fr fr' : list (node * list string)),
  resolve cl segs fr = Ok fr' ->
  exists subs,
    Forall2 (fun fq ps => __find_nodes cl segs (fst fq) (snd fq) = Ok ps)
      fr subs
    /\ map snd fr' = concat subs.
Proof.
  induction segs as [| seg rest IH]; intros Hne fr fr' H; [now elim Hne |].
  change (resolve cl (seg :: rest) fr)
    with (frontier' <- advance cl seg fr ;; resolve cl rest frontier') in H.
  destruct (advance cl seg fr) as [fr1 |] eqn:Ha; [| discriminate].
  cbn [rbind] in H. apply advance_Forall2 in Ha.
  destruct Ha as [news [Hnews ->]].
  destruct rest as [| seg' rest'].
  - cbn [resolve] in H. injection H as <-.
    exists (map (map snd) news). split.
    + apply Forall2_map_right_aux.
      eapply Forall2_impl; [| exact Hnews]. cbn beta.
      intros fq new [m [Hm ->]]. rewrite find_nodes_last_exact, Hm.
      cbn [rbind]. now rewrite map_map.
    + now rewrite concat_map.
  - destruct (IH ltac:(discriminate) _ _ H) as [subs1 [Hs1 Hc]].
    apply Forall2_concat_inv in Hs1. destruct Hs1 as [sss [-> Hsss]].
    exists (map (@concat (list string)) sss). split.
    + clear - Hnews Hsss.
      revert sss Hsss. induction Hnews as [| fq new fr news Hx _ IHf];
        intros sss Hsss; inversion Hsss as [| ? ss ? sss' Hss Hrest]; subst;
        cbn [map]; constructor; [| now apply IHf].
      destruct Hx as [m [Hm ->]]. apply find_nodes_inner_ok.
      exists m, ss. split; [exact Hm |]. split; [| reflexivity].
      apply Forall2_map_left in Hss. exact Hss.
    + now rewrite concat_concat.
Qed.

End LiteralResolution.

Lemma resolve_app (cl : Client) (init rest : list string) :
  forall fr,
  resolve cl (init ++ rest) fr =
  (fr1 <- resolve cl init fr ;; resolve cl rest fr1).
Proof.
  induction init as [| seg init IH]; intros fr; cbn [app resolve];
    [reflexivity |].
  destruct (advance cl seg fr) as [fr1 | e]; cbn [rbind]; [apply IH |].
  reflexivity.
Qed.

Lemma mapM_app {A B} (f : A -> result B) (l1 l2 : list A)
  (r1 r2 : list B) :
  mapM f l1 = Ok r1 -> mapM f l2 = Ok r2 -> mapM f (l1 ++ l2) = Ok (r1 ++ r2).
Proof.
  intros H1 H2. apply mapM_Forall2. apply mapM_Forall2 in H1, H2.
  now apply Forall2_app.
Qed.

Lemma advance_around (cl : Client) (seg : string)
  (before after e1 e2 : list (node * list string)) (f : node)
  (q : list string) (matched : list (node * (nat * string))) :
  advance cl seg before = Ok e1 ->
  advance cl seg after = Ok e2 ->
  matching_children cl seg f = Ok matched ->
  advance cl seg (before ++ (f, q) :: after) =
  Ok (e1 ++ map (fun cb => (fst cb, q ++ [qualified (snd cb)])) matched ++ e2).
Proof.
  unfold advance. intros H1 H2 Hm.
  destruct (mapM _ before) as [n1 | e] eqn:Hb; [| discriminate].
  destruct (mapM _ after) as [n2 | e] eqn:Ha; [| discriminate].
  cbn [rbind] in *. injection H1 as <-. injection H2 as <-.
  erewrite mapM_app; [| exact Hb |].
  2:{ cbn [mapM fst snd]. rewrite Hm. cbn [rbind]. rewrite Ha. cbn [rbind].
      reflexivity. }
  cbn [rbind]. now rewrite concat_app.
Qed.

(** C1, as the code has it.  The segment is escaped before it is given
    to [re.fullmatch], so a child matches when its name is the segment
    itself or the segment's part after the last colon.  For every pattern
    [find_nodes] searches the segments between the escaped dots, from the
    given parent or, without one, from the root and without a leading
    [root] segment, and it returns exactly when resolution, segment by
    segment over the frontier, returns, with the same paths in the same
    order (a pattern left without segment raises).  At the last segment a
    frontier node with [k] matching children contributes exactly [k]
    paths, one per child in browse order, each being the node's path
    followed by the child's [ns:name]; they are pairwise distinct when the
    children's (namespaceIndex, name) pairs are, and they are all the
    paths when the frontier holds no other node. *)
Theorem find_nodes_literal_matches (cl : Client) (node_pattern : string)
  (current_parent_node : option node) (nodes : list string) :
  let segs := searched_segments node_pattern current_parent_node in
  let start := start_node cl current_parent_node in
  (forall seg name, segment_matches seg name = Ok (literal_match seg name))
  /\ (forall paths,
        find_nodes cl node_pattern current_parent_node nodes = Ok paths <->
        segs <> []
        /\ exists frontier,
             resolve cl segs [(start, nodes)] = Ok frontier
             /\ paths = map snd frontier)
  /\ forall init seg before f q after e1 e2 matched,
       segs = init ++ [seg] ->
       resolve cl init [(start, nodes)] = Ok (before ++ (f, q) :: after) ->
       advance cl seg before = Ok e1 ->
       advance cl seg after = Ok e2 ->
       matching_children cl seg f = Ok matched ->
       let found := map (fun cb => q ++ [qualified (snd cb)]) matched in
       find_nodes cl node_pattern current_parent_node nodes =
         Ok (map snd e1 ++ found ++ map snd e2)
       /\ length found = length matched
       /\ (NoDup (map snd matched) -> NoDup found)
       /\ forall i cb, nth_error matched i = Some cb ->
            nth_error found i = Some (q ++ [qualified (snd cb)]).
Proof.
  intros segs start.
  assert (Hrun : find_nodes cl node_pattern current_parent_node nodes =
                 __find_nodes cl segs start nodes).
  { subst segs start. unfold find_nodes, searched_segments, start_node.
    destruct current_parent_node as [parent |]; [reflexivity |].
    destruct (Py.split "\." node_pattern) as [| first rest];
      [reflexivity |].
    destruct (String.eqb (Py.lower first) "root"); reflexivity. }
  assert (Hiff : forall paths,
             find_nodes cl node_pattern current_parent_node nodes = Ok paths <->
             segs <> []
             /\ exists frontier,
                  resolve cl segs [(start, nodes)] = Ok frontier
                  /\ paths = map snd frontier).
  { intros paths. rewrite Hrun. split.
    - intros H.
      assert (Hne : segs <> [])
        by (intros E; rewrite E in H; discriminate).
      split; [exact Hne |].
      destruct (find_nodes_resolve cl segs Hne [(start, nodes)] [paths])
        as [fr' [Hr Hc]]; [repeat constructor; exact H |].
      exists fr'. split; [exact Hr |]. cbn in Hc. now rewrite app_nil_r in Hc.
    - intros [Hne [fr' [Hr ->]]].
      destruct (resolve_find_nodes cl segs Hne _ _ Hr) as [subs [Hs Hc]].
      inversion Hs as [| ? ps ? subs' Hps Hnil]; subst.
      inversion Hnil; subst. cbn in Hc. rewrite app_nil_r in Hc.
      cbn [fst snd] in Hps. now rewrite Hc. }
  split; [intros seg name; apply segment_matches_literal |].
  split; [exact Hiff |].
  intros init seg before f q after e1 e2 matched Hsegs Hinit H1 H2 Hm found.
  split; [| split; [| split]].
  - apply Hiff. split; [rewrite Hsegs; now destruct init |].
    eexists. split.
    + rewrite Hsegs, resolve_app, Hinit. cbn [rbind resolve].
      rewrite (advance_around cl seg before after e1 e2 f q matched H1 H2 Hm).
      reflexivity.
    + rewrite !map_app, map_map. reflexivity.
  - apply length_map.
  - intros Hnd. subst found.
    rewrite <- (map_map snd (fun bn => q ++ [qualified bn])).
    now apply paths_nodup.
  - intros i cb Hi.
    exact (map_nth_error (fun cb => q ++ [qualified (snd cb)]) i matched Hi).
Qed.

(** The pattern [Root\.Room\.Temperature] fans out over the two rooms of
    the same name, and the frontier node [Root] has two matching
    children for [Room]. *)
Lemma find_nodes_literal_matches_witness :
  let cl := Demo.client Demo.twins [] [] in
  find_nodes cl "Root\.Room\.Temperature" None [] =
    Ok [["2:Room"; "2:Temperature"]; ["3:Room"; "3:Temperature"]]
  /\ find_nodes cl "Root\.Room" None [] = Ok [["2:Room"]; ["3:Room"]]
  /\ NoDup [["2:Room"]; ["3:Room"]].
Proof.
  pose proof (find_nodes_literal_matches (Demo.client Demo.twins [] [])
                "Root\.Room\.Temperature" None []) as [_ [H1 _]].
  pose proof (find_nodes_literal_matches (Demo.client Demo.twins [] [])
                "Root\.Room" None []) as [_ [_ H2]].
  cbv zeta in *.
  split; [| split].
  - apply H1. split; [discriminate |]. eexists. split; reflexivity.
  - exact (proj1 (H2 [] "Room" [] 0 [] [] [] []
                    [(1, (2, "Room")); (2, (3, "Room"))]
                    eq_refl eq_refl eq_refl eq_refl eq_refl)).
  - apply (proj1 (proj2 (proj2 (H2 [] "Room" [] 0 [] [] [] []
                    [(1, (2, "Room")); (2, (3, "Room"))]
                    eq_refl eq_refl eq_refl eq_refl eq_refl)))).
    repeat constructor; cbn; intuition discriminate.
Defined.

(** C1 as stated fails: the segment [Room.*], read as a regular
    expression, matches the two distinct children [Room1] and [Room2] of
    the frontier node, and [find_nodes] returns no path. *)
Lemma find_nodes_regex_segment_counterexample :
  let cl := Demo.client Demo.rooms [] [] in
  get_children cl 1 = Ok [2; 3]
  /\ mapM (read_browse_name cl) [2; 3] = Ok [(2, "Room1"); (2, "Room2")]
  /\ NoDup [(2, "Room1"); (2, "Room2")]
  /\ length (filter (fun bn => spec_segment_matches "Room.*" (snd bn))
               [(2, "Room1"); (2, "Room2")]) = 2
  /\ find_nodes cl "Root\.Objects\.Room.*" None [] = Ok []
  /\ ~ (exists paths,
          find_nodes cl "Root\.Objects\.Room.*" None [] = Ok paths
          /\ length paths = 2).
Proof.
  cbv zeta. repeat split; try reflexivity.
  - repeat constructor; simpl; intuition discriminate.
  - intros [paths [H1 H2]].
    assert (H : find_nodes (Demo.client Demo.rooms [] [])
                  "Root\.Objects\.Room.*" None [] = Ok []) by reflexivity.
    rewrite H in H1. injection H1 as <-. discriminate.
Qed.

(** *** What the searches return *)

Lemma for_acc_invariant {A B} (I : B -> Prop) (body : A -> B -> result B) :
  (forall x acc acc', I acc -> body x acc = Ok acc' -> I acc') ->
  forall l acc r, I acc -> for_acc body l acc = Ok r -> I r.
Proof.
  intros Hb. induction l as [| x l IH]; intros acc r Hi H; cbn in H.
  - now injection H as <-.
  - destruct (body x acc) as [acc' | e] eqn:Hx; [| discriminate].
    cbn in H. eapply IH; [| exact H]. eapply Hb; eassumption.
Qed.

Lemma has_char_app (c : ascii) (s t : string) :
  Py.has_char c (s ++ t)%string = Py.has_char c s || Py.has_char c t.
Proof.
  induction s as [| d s IH]; cbn; [reflexivity |].
  now rewrite IH, orb_assoc.
Qed.

Lemma qualified_has_colon (bn : nat * string) :
  Py.has_char ":" (qualified bn) = true.
Proof.
  unfold qualified. rewrite has_char_app. cbn. apply orb_true_r.
Qed.

Lemma continues_step (nodes rest suffix_path : list string) (q seg : string) :
  Py.has_char ":" q = true ->
  continues (nodes ++ [q]) rest suffix_path ->
  continues nodes (seg :: rest) suffix_path.
Proof.
  intros Hq [suffix [-> [Hlen Hall]]]. exists (q :: suffix).
  split; [now rewrite <- app_assoc |]. split; [cbn; now rewrite Hlen |].
  now constructor.
Qed.

(** Every path [__find_nodes] returns continues the given prefix
    [nodes] with exactly one segment per segment of the pattern, and each
    of these segments carries a namespace index. *)
Lemma find_nodes_continue_all (cl : Client) :
  forall (node_list : list string) (parent : node) (nodes : list string)
         (paths : list (list string)),
  __find_nodes cl node_list parent nodes = Ok paths ->
  Forall (continues nodes node_list) paths.
Proof.
  induction node_list as [| seg rest IH]; intros parent nodes paths H;
    cbn [__find_nodes] in H; [discriminate |].
  destruct (get_children cl parent) as [children | e]; [| discriminate].
  cbn [rbind] in H.
  revert H. apply for_acc_invariant; [| constructor].
  intros nd acc acc' Hacc Hbody.
  destruct (read_browse_name cl nd) as [bn | e]; [| discriminate].
  cbn [rbind] in Hbody. rewrite segment_matches_literal in Hbody.
  cbn [rbind] in Hbody.
  destruct (literal_match seg (snd bn)).
  - destruct rest as [| seg' rest'].
    + injection Hbody as <-. apply Forall_app. split; [exact Hacc |].
      constructor; [| constructor].
      exists [qualified bn]. split; [reflexivity |]. split; [reflexivity |].
      constructor; [apply qualified_has_colon | constructor].
    + destruct (__find_nodes cl (seg' :: rest') nd (nodes ++ [qualified bn]))
        as [sub | e] eqn:Hsub; [| discriminate].
      cbn [rbind] in Hbody. injection Hbody as <-.
      apply Forall_app. split; [exact Hacc |].
      apply IH in Hsub. eapply Forall_impl; [| exact Hsub].
      intros p Hp. eapply continues_step; [apply qualified_has_colon | exact Hp].
  - now injection Hbody as <-.
Qed.

(** X3: every path [find_nodes] returns continues the given prefix
    [nodes] with exactly one segment per segment of the pattern it
    searched (the pattern split at its escaped dots, less a leading [root]
    when no parent is given), and each of these segments carries a
    namespace index. *)
Theorem find_nodes_paths_continue (cl : Client) (node_pattern : string)
  (current_parent_node : option node) (nodes : list string)
  (paths : list (list string)) :
  find_nodes cl node_pattern current_parent_node nodes = Ok paths ->
  Forall (continues nodes
            (match current_parent_node, Py.split "\." node_pattern with
             | None, first :: rest =>
                 if String.eqb (Py.lower first) "root" then rest
                 else first :: rest
             | _, node_list => node_list
             end)) paths.
Proof.
  unfold find_nodes. intros H.
  destruct current_parent_node as [parent |];
    [now apply find_nodes_continue_all in H |].
  destruct (Py.split "\." node_pattern) as [| first rest];
    now apply find_nodes_continue_all in H.
Qed.

Lemma find_nodes_paths_continue_witness :
  Forall (continues [] ["Objects"; "Room1"; "Temperature"])
    [["0:Objects"; "2:Room1"; "2:Temperature"]].
Proof.
  apply (find_nodes_paths_continue (Demo.client Demo.rooms [] [])
           "Root\.Objects\.Room1\.Temperature" None []).
  reflexivity.
Defined.

Section InnerSegment.

Variable cl : Client.

(** X4: at a segment that is not the last one, the result is the
    concatenation, in browse order, of what the rest of the pattern
    finds below each matching child; the first of these searches that
    raises makes the whole search raise. *)
Theorem find_nodes_inner_segment (seg seg' : string) (rest : list string)
  (parent : node) (nodes : list string) (children : list node)
  (bns : list (nat * string)) :
  get_children cl parent = Ok children ->
  mapM (read_browse_name cl) children = Ok bns ->
  __find_nodes cl (seg :: seg' :: rest) parent nodes =
  (subs <- mapM (fun cb =>
                   __find_nodes cl (seg' :: rest) (fst cb)
                     (nodes ++ [qualified (snd cb)]))
             (filter (fun cb => literal_match seg (snd (snd cb)))
                (combine children bns)) ;;
   Ok (concat subs)).
Proof.
  intros Hc Hb. cbn [__find_nodes]. rewrite Hc. cbn [rbind].
  exact (find_inner_loop cl seg seg' rest nodes children bns [] Hb).
Qed.

End InnerSegment.

Lemma find_nodes_inner_segment_witness :
  __find_nodes (Demo.client Demo.twins [] []) ["Room"; "Temperature"] 0 [] =
  Ok [["2:Room"; "2:Temperature"]; ["3:Room"; "3:Temperature"]].
Proof.
  rewrite (find_nodes_inner_segment (Demo.client Demo.twins [] [])
             "Room" "Temperature" [] 0 [] [1; 2] [(2, "Room"); (3, "Room")]
             eq_refl eq_refl).
  reflexivity.
Defined.

(** X5: with [u > 0] segments lacking a namespace index, wherever they
    stand in the path, [find_node_name_space_index] takes the first
    [len - u] segments as resolved, fetches that node and searches the
    last [u] segments below it; every path it returns has the length of
    the input and starts with those first segments. *)
Theorem find_node_name_space_index_cut (cl : Client) (p : list string) :
  let u := length (filter is_unresolved p) in
  let k := length p - u in
  0 < u ->
  find_node_name_space_index cl (PathList p) =
    (parent <- get_child cl (firstn k p) ;;
     __find_nodes cl (skipn k p) parent (firstn k p))
  /\ forall paths,
       find_node_name_space_index cl (PathList p) = Ok paths ->
       Forall (fun q => length q = length p /\ firstn k q = firstn k p) paths.
Proof.
  intros u k Hu.
  assert (Hle : u <= length p) by apply filter_length_le.
  assert (Hcut : Py.slice_to p (- Z.of_nat u) = firstn k p).
  { unfold Py.slice_to.
    destruct (Z.ltb_spec (- Z.of_nat u) 0) as [_ | H]; [| lia].
    f_equal. subst k. lia. }
  assert (Hrun : find_node_name_space_index cl (PathList p) =
                 (parent <- get_child cl (firstn k p) ;;
                  __find_nodes cl (skipn k p) parent (firstn k p))).
  { unfold find_node_name_space_index. fold u. rewrite Hcut. reflexivity. }
  split; [exact Hrun |].
  intros paths H. rewrite Hrun in H.
  destruct (get_child cl (firstn k p)) as [parent | e]; [| discriminate].
  cbn [rbind] in H. apply find_nodes_continue_all in H.
  eapply Forall_impl; [| exact H].
  intros q [suffix [-> [Hlen _]]].
  assert (Hk : length (firstn k p) = k) by (apply firstn_length_le; subst k; lia).
  split.
  - rewrite length_app, Hlen, Hk, length_skipn. subst k. lia.
  - rewrite firstn_app, Hk, Nat.sub_diag, firstn_O, app_nil_r.
    rewrite firstn_firstn. now rewrite Nat.min_id.
Qed.

Lemma find_node_name_space_index_cut_witness :
  Forall (fun q => length q = 3 /\ firstn 2 q = ["0:Objects"; "2:Room1"])
    [["0:Objects"; "2:Room1"; "2:Temperature"]].
Proof.
  refine (proj2 (find_node_name_space_index_cut (Demo.client Demo.rooms [] [])
                   ["0:Objects"; "2:Room1"; "Temperature"] _) _ eq_refl).
  cbn. lia.
Defined.

(** ** Connection retry *)

Section RetryFacts.

Variables (W A : Type).
Variable func : W -> result A * W.

Lemma delays_succ (d f : Z) (m : nat) :
  delays d f (S m) = d :: delays (d * f) f m.
Proof.
  unfold delays. cbn [seq map]. f_equal.
  - cbn. lia.
  - rewrite <- seq_shift, map_map. apply map_ext. intros k.
    rewrite Nat2Z.inj_succ, Z.pow_succ_r by lia. lia.
Qed.

Lemma delays_length (d f : Z) (m : nat) : length (delays d f m) = m.
Proof. unfold delays. now rewrite length_map, length_seq. Qed.

Lemma delays_nth (d f : Z) (m i : nat) :
  i < m -> nth i (delays d f m) 0%Z = (d * f ^ Z.of_nat i)%Z.
Proof.
  intros Hi. unfold delays.
  set (g := fun k : nat => (d * f ^ Z.of_nat k)%Z).
  rewrite (nth_indep _ 0%Z (g 0)) by now rewrite length_map, length_seq.
  rewrite map_nth, seq_nth by exact Hi. reflexivity.
Qed.

(** What one run of the retry loop adds to the state it starts from. *)
Lemma retry_loop_run (f : Z) (attempts : nat) :
  forall (d : Z) (s : RetryState W),
  let out := retry_loop func attempts d f s in
  exists m,
    m <= attempts
    /\ slept (snd out) = slept s ++ delays d f m
    /\ invoked s + m <= invoked (snd out) <= invoked s + attempts
    /\ (fails func attempts (world s) ->
        fst out = None /\ m = attempts
        /\ invoked (snd out) = invoked s + attempts).
Proof.
  induction attempts as [| n IH]; intros d s out; subst out.
  - exists 0. cbn. rewrite app_nil_r. repeat split; lia.
  - cbn [retry_loop fails].
    destruct (func (world s)) as [[a | e] w'].
    + exists 0. cbn. rewrite app_nil_r. repeat split; try lia; contradiction.
    + destruct (IH (d * f)%Z
                  (Build_RetryState w' (slept s ++ [d]) (S (invoked s))
                     (retry_log s ++
                      [(ERROR, "Encountered error: %r. Retrying in %s seconds...")])))
        as [m [Hm [Hs [Hi Hf]]]].
      cbn [slept invoked world] in Hs, Hi, Hf.
      exists (S m). rewrite delays_succ. repeat split; try lia.
      * rewrite Hs, <- app_assoc. reflexivity.
      * apply Hf. assumption.
      * apply Hf in H. lia.
      * apply Hf in H. lia.
Qed.

End RetryFacts.

(** C6, as the code has it: [retry_with_backoff] sleeps [d * f^(k-1)]
    before the [k]-th retry, the delays grow strictly when [f > 1] and the
    initial delay [d] is positive, [func] is awaited at most [max_retries]
    times, and after [max_retries] failures in a row the value returned is
    [None]. *)
Theorem retry_with_backoff_schedule
  (W A : Type) (func : W -> result A * W) (n d f : Z) (w : W) :
  let out := retry_with_backoff func n d f w in
  let sleeps := slept (snd out) in
  sleeps = delays d f (length sleeps)
  /\ (forall k, 1 <= k <= length sleeps ->
        nth (k - 1) sleeps 0%Z = (d * f ^ (Z.of_nat k - 1))%Z)
  /\ ((0 < d)%Z -> (1 < f)%Z ->
      forall i j, i < j < length sleeps ->
        (nth i sleeps 0 < nth j sleeps 0)%Z)
  /\ length sleeps <= invoked (snd out) <= Z.to_nat n
  /\ (fails func (Z.to_nat n) w ->
      fst out = None
      /\ invoked (snd out) = Z.to_nat n
      /\ length sleeps = Z.to_nat n).
Proof.
  intros out sleeps. subst sleeps out. unfold retry_with_backoff.
  destruct (retry_loop_run W A func f (Z.to_nat n) d (Build_RetryState w [] 0 []))
    as [m [Hm [Hs [Hi Hf]]]].
  cbn [slept invoked world app] in Hs, Hi, Hf.
  rewrite Hs, delays_length.
  split; [reflexivity |].
  split.
  { intros k Hk. rewrite delays_nth by lia.
    replace (Z.of_nat (k - 1)) with (Z.of_nat k - 1)%Z by lia. reflexivity. }
  split.
  { intros Hd Hf1 i j Hij. rewrite !delays_nth by lia.
    apply Z.mul_lt_mono_pos_l; [exact Hd |].
    apply Z.pow_lt_mono_r; lia. }
  split; [lia |].
  intros Hfail. destruct (Hf Hfail) as [H1 [H2 H3]]. repeat split; lia || assumption.
Qed.

Lemma retry_with_backoff_schedule_witness :
  let func := fun w : nat => (@Raise unit ConnectionError, S w) in
  let out := retry_with_backoff func 8 1 2 0 in
  slept (snd out) = [1; 2; 4; 8; 16; 32; 64; 128]%Z
  /\ (forall i j, i < j < 8 ->
        (nth i (slept (snd out)) 0 < nth j (slept (snd out)) 0)%Z)
  /\ fst out = None
  /\ invoked (snd out) = 8.
Proof.
  pose proof (retry_with_backoff_schedule nat unit
                (fun w : nat => (@Raise unit ConnectionError, S w)) 8 1 2 0)
    as H.
  cbv zeta in H. destruct H as [_ [_ [Hmono [_ Hfail]]]].
  cbv zeta. split; [reflexivity |]. split.
  - apply Hmono; lia.
  - destruct Hfail as [H1 [H2 _]]; [cbn; exact I | now split].
Defined.

(** C6 as stated fails: with an initial delay of [0] and the factor
    [2 > 1], three failures in a row sleep [0], [0] and [0] seconds, and
    these delays do not increase. *)
Lemma retry_with_backoff_zero_delay_counterexample :
  let func := fun w : nat => (@Raise unit ConnectionError, S w) in
  let out := retry_with_backoff func 3 0 2 0 in
  (1 < 2)%Z
  /\ fst out = None
  /\ slept (snd out) = [0; 0; 0]%Z
  /\ ~ (forall i j, i < j < length (slept (snd out)) ->
          (nth i (slept (snd out)) 0 < nth j (slept (snd out)) 0)%Z).
Proof.
  cbv zeta. split; [reflexivity |]. split; [reflexivity |].
  split; [reflexivity |].
  set (sleeps := slept _). change sleeps with [0; 0; 0]%Z. clear sleeps.
  intros H. specialize (H 0 1). cbn [length nth] in H. lia.
Qed.

(** *** Runs that succeed, runs that are not made *)

Section RetryRunFacts.

Variables (W A : Type).
Variable func : W -> result A * W.

Lemma retry_loop_success (f : Z) (a : A) (w' : W) :
  forall (k attempts : nat) (d : Z) (s : RetryState W),
  k < attempts ->
  fails func k (world s) ->
  func (world_after func k (world s)) = (Ok a, w') ->
  retry_loop func attempts d f s =
  (Some a,
   Build_RetryState w' (slept s ++ delays d f k) (invoked s + S k)
     (retry_log s ++
      repeat (ERROR, "Encountered error: %r. Retrying in %s seconds...") k)).
Proof.
  induction k as [| k IH]; intros attempts d s Hlt Hfail Hok;
    destruct attempts as [| n]; try lia; cbn [retry_loop].
  - cbn in Hok. rewrite Hok. cbn. rewrite !app_nil_r.
    now rewrite Nat.add_1_r.
  - cbn [fails world_after] in Hfail, Hok.
    destruct (func (world s)) as [[x | e] w1]; [contradiction |].
    cbn [snd] in Hok.
    specialize (IH n (d * f)%Z
                  (Build_RetryState w1 (slept s ++ [d]) (S (invoked s))
                     (retry_log s ++
                      [(ERROR, "Encountered error: %r. Retrying in %s seconds...")]))).
    cbn [world slept invoked retry_log] in IH.
    rewrite IH; [| lia | exact Hfail | exact Hok].
    rewrite delays_succ, <- !app_assoc.
    cbn [app repeat]. f_equal. f_equal. lia.
Qed.

(** X1: when [func] fails [k] times and then returns [a], with [k] below
    [max_retries], the value is returned after [k + 1] invocations and
    [k] sleeps of [d], [d * f], ..., and nothing is awaited afterwards. *)
Theorem retry_with_backoff_success (n d f : Z) (w w' : W) (k : nat) (a : A) :
  k < Z.to_nat n ->
  fails func k w ->
  func (world_after func k w) = (Ok a, w') ->
  retry_with_backoff func n d f w =
  (Some a,
   Build_RetryState w' (delays d f k) (S k)
     (repeat (ERROR, "Encountered error: %r. Retrying in %s seconds...") k)).
Proof.
  intros Hlt Hfail Hok. unfold retry_with_backoff.
  exact (retry_loop_success f a w' k (Z.to_nat n) d
           (Build_RetryState w [] 0 []) Hlt Hfail Hok).
Qed.

(** X2: with [max_retries] zero or negative the loop body never runs:
    [func] is not invoked, nothing is slept, and [None] is returned. *)
Theorem retry_with_backoff_no_attempt (n d f : Z) (w : W) :
  (n <= 0)%Z ->
  retry_with_backoff func n d f w =
  (None,
   Build_RetryState w [] 0
     [(ERROR, "Max retries reached. Could not connect due to too many sessions.")]).
Proof.
  intros Hn. unfold retry_with_backoff.
  replace (Z.to_nat n) with 0 by lia. reflexivity.
Qed.

End RetryRunFacts.

Lemma retry_with_backoff_success_witness :
  let func := fun w : nat =>
    if (w <? 2)%nat then (@Raise unit ConnectionError, S w) else (Ok tt, S w) in
  retry_with_backoff func 8 1 2 0 =
  (Some tt,
   Build_RetryState 3 [1; 2]%Z 3
     (repeat (ERROR, "Encountered error: %r. Retrying in %s seconds...") 2)).
Proof.
  apply (retry_with_backoff_success nat unit
           (fun w : nat =>
              if (w <? 2)%nat then (@Raise unit ConnectionError, S w)
              else (Ok tt, S w))
           8 1 2 0 3 2 tt).
  - cbn. lia.
  - cbn. exact I.
  - reflexivity.
Defined.

Lemma retry_with_backoff_no_attempt_witness :
  retry_with_backoff (fun w : nat => (@Ok unit tt, S w)) 0 1 2 5 =
  (None,
   Build_RetryState 5 [] 0
     [(ERROR, "Max retries reached. Could not connect due to too many sessions.")]).
Proof.
  apply (retry_with_backoff_no_attempt nat unit
           (fun w : nat => (@Ok unit tt, S w)) 0 1 2 5).
  lia.
Defined.

(** ** Polling *)

Lemma nth_error_firstn_some {A} (m : nat) (l : list A) (i : nat) (x : A) :
  nth_error (firstn m l) i = Some x -> nth_error l i = Some x.
Proof.
  revert m i. induction l as [| y l IH]; intros [| m] [| i]; cbn;
    try discriminate; auto.
  apply IH.
Qed.

Lemma batch_offset_cons (d : Device.t) (ds : list Device.t) (i : nat) :
  batch_offset (d :: ds) (S i) = length (Device.nodes d) + batch_offset ds i.
Proof. reflexivity. Qed.

Lemma all_nodes_length (ds : list Device.t) :
  length (all_nodes ds) = batch_offset ds (length ds).
Proof.
  induction ds as [| d ds IH]; [reflexivity |].
  cbn [length]. rewrite batch_offset_cons, <- IH.
  unfold all_nodes. cbn [flat_map]. now rewrite length_app, length_map.
Qed.

Lemma expected_converts_nth (values : list string) :
  forall (ds : list Device.t) (off i : nat) (call : ConvertCall),
  nth_error (expected_converts values ds off) i = Some call ->
  exists d,
    nth_error ds i = Some d
    /\ call = Build_ConvertCall (Device.name d) (Device.nodes d)
                (Py.slice values (off + batch_offset ds i)
                   (length (Device.nodes d))).
Proof.
  induction ds as [| d ds IH]; intros off [| i] call H; cbn in H;
    try discriminate.
  - injection H as <-. exists d. split; [reflexivity |].
    unfold batch_offset. cbn. now rewrite Nat.add_0_r.
  - apply IH in H. destruct H as [d' [Hd ->]]. exists d'.
    split; [exact Hd |]. rewrite batch_offset_cons. f_equal. f_equal. lia.
Qed.

Lemma expected_converts_length (values : list string) (ds : list Device.t)
  (off : nat) : length (expected_converts values ds off) = length ds.
Proof.
  revert off. induction ds as [| d ds IH]; intros off; cbn; [| rewrite IH];
    reflexivity.
Qed.

Section PollFacts.

Variable cl : Client.
Variable env : Env.

Lemma poll_devices_cons (values : list string) (d : Device.t)
  (ds : list Device.t) (off : nat) (s : PollState) :
  let vals := Py.slice values off (length (Device.nodes d)) in
  poll_devices env values (d :: ds) off s =
  match convert env d (Device.nodes d) vals with
  | Ok o =>
      poll_devices env values ds (off + length (Device.nodes d))
        (after_convert d vals o s)
  | Raise e => (Raise e, after_convert d vals None s)
  end.
Proof.
  cbn [poll_devices]. unfold mbind, mmodify, lift, mret, after_convert.
  destruct (convert env d (Device.nodes d)
              (Py.slice values off (length (Device.nodes d))))
    as [[data |] | e]; reflexivity.
Qed.

(** The converter calls made by the loop are an initial part of the
    expected ones, all of them unless a converter raises; the loop issues
    no protocol call. *)
Lemma poll_devices_trace (values : list string) :
  forall (ds : list Device.t) (off : nat) (s : PollState),
  let out := poll_devices env values ds off s in
  exists m,
    converted (snd out) =
      converted s ++ firstn m (expected_converts values ds off)
    /\ calls (poll_session (snd out)) = calls (poll_session s)
    /\ log (poll_session (snd out)) = log (poll_session s)
    /\ ((forall d vs, In d ds ->
           exists o, convert env d (Device.nodes d) vs = Ok o) ->
        m = length ds /\ exists k, fst out = Ok k).
Proof.
  induction ds as [| d ds IH]; intros off s out; subst out.
  - exists 0. cbn. rewrite app_nil_r. repeat split. now exists off.
  - rewrite poll_devices_cons. cbv zeta.
    destruct (convert env d (Device.nodes d)
                (Py.slice values off (length (Device.nodes d))))
      as [o | e] eqn:Hconv.
    + destruct (IH (off + length (Device.nodes d))
                  (after_convert d
                     (Py.slice values off (length (Device.nodes d))) o s))
        as [m [Hc [Hk [Hl Hall]]]].
      exists (S m). cbn [firstn expected_converts].
      split; [| split; [| split]].
      * rewrite Hc. destruct o; cbn; rewrite <- app_assoc; reflexivity.
      * rewrite Hk. destruct o; reflexivity.
      * rewrite Hl. destruct o; reflexivity.
      * intros Hok. destruct Hall as [-> Hk'].
        { intros d' vs Hin. apply Hok. now right. }
        split; [reflexivity | exact Hk'].
    + exists 1. cbn. split; [reflexivity | split; [reflexivity | split; [reflexivity |]]].
      intros Hok.
      destruct (Hok d (Py.slice values off (length (Device.nodes d))))
        as [o Ho]; [now left | congruence].
Qed.


(** C9: with bound nodes, one poll issues exactly one batched read, over
    the nodes of all devices in device order, and the [i]-th converter
    call receives the device's nodes with the slice of the returned
    values that starts at the sum of the node counts of the devices
    before it; with no bound node, nothing is read, the condition is
    logged and the poll returns normally. *)
Theorem poll_nodes_batches (c : Connector) :
  let devices := __device_nodes c in
  let all := all_nodes devices in
  let out := __poll_nodes cl env c in
  all = flat_map (fun d => map nc_node (Device.nodes d)) devices
  /\ length all = batch_offset devices (length devices)
  /\ (all = [] ->
      fst out = Ok tt
      /\ calls (poll_session (snd out)) = calls (session c)
      /\ log (poll_session (snd out)) =
           log (session c) ++ [(INFO, "No nodes to poll")]
      /\ converted (snd out) = [])
  /\ (all <> [] ->
      forall values, read_attributes cl all = Ok values ->
      calls (poll_session (snd out)) =
        calls (session c) ++ [ReadAttributes all]
      /\ (forall i call, nth_error (converted (snd out)) i = Some call ->
            exists d,
              nth_error devices i = Some d
              /\ call = Build_ConvertCall (Device.name d) (Device.nodes d)
                          (Py.slice values (batch_offset devices i)
                             (length (Device.nodes d))))
      /\ ((forall d vs, In d devices ->
             exists o, convert env d (Device.nodes d) vs = Ok o) ->
          fst out = Ok tt
          /\ length (converted (snd out)) = length devices)).
Proof.
  intros devices all out.
  split; [reflexivity |]. split; [apply all_nodes_length |]. split.
  - intros Hall. subst out. unfold __poll_nodes.
    change (all_nodes (__device_nodes c)) with all. rewrite Hall.
    cbn. repeat split.
  - intros Hne values Hread.
    set (s1 := Build_PollState (add_call (ReadAttributes all) (session c)) []).
    assert (Hout : out =
              match poll_devices env values devices 0 s1 with
              | (Ok _, s') => (Ok tt, s')
              | (Raise e, s') => (Raise e, s')
              end).
    { subst out. unfold __poll_nodes.
      change (all_nodes (__device_nodes c)) with all.
      assert (Hlen : (0 <? length all)%nat = true)
        by (destruct all; [contradiction | reflexivity]).
      rewrite Hlen. unfold mbind, mmodify, lift, mret. rewrite Hread.
      reflexivity. }
    rewrite Hout. clear Hout.
    destruct (poll_devices_trace values devices 0 s1)
      as [m [Hc [Hk [_ Hok]]]].
    destruct (poll_devices env values devices 0 s1) as [[k | e] s2];
      cbn [fst snd] in *.
    + split; [rewrite Hk; reflexivity |]. split.
      * intros i call Hi. rewrite Hc in Hi. cbn in Hi.
        apply nth_error_firstn_some in Hi.
        apply expected_converts_nth in Hi. exact Hi.
      * intros Hall'. destruct (Hok Hall') as [-> _].
        split; [reflexivity |]. rewrite Hc. cbn.
        rewrite firstn_all2 by (rewrite expected_converts_length; lia).
        apply expected_converts_length.
    + split; [rewrite Hk; reflexivity |]. split.
      * intros i call Hi. rewrite Hc in Hi. cbn in Hi.
        apply nth_error_firstn_some in Hi.
        apply expected_converts_nth in Hi. exact Hi.
      * intros Hall'. destruct (Hok Hall') as [_ [k Hk']]. discriminate.
Qed.

End PollFacts.

Lemma poll_nodes_batches_witness :
  let c := Build_Connector Demo.two_rooms Demo.idle in
  let out := __poll_nodes (Demo.client Demo.rooms [] []) Demo.env c in
  calls (poll_session (snd out)) = [ReadAttributes [4; 5; 7]]
  /\ map cc_values (converted (snd out)) = [["A"; "21"]; ["23"]]
  /\ fst out = Ok tt
  /\ length (converted (snd out)) = 2.
Proof.
  pose proof (poll_nodes_batches (Demo.client Demo.rooms [] []) Demo.env
                (Build_Connector Demo.two_rooms Demo.idle)) as H.
  cbv zeta in H. destruct H as [_ [_ [_ H]]].
  destruct (H ltac:(discriminate) ["A"; "21"; "23"] eq_refl) as [H1 [_ H3]].
  cbv zeta. split; [exact H1 |]. split; [reflexivity |].
  apply H3. intros d vs _. eexists. reflexivity.
Defined.

(** *** The values of a poll *)

Lemma firstn_plus {A} (n m : nat) :
  forall l : list A, firstn (n + m) l = firstn n l ++ firstn m (skipn n l).
Proof.
  induction n as [| n IH]; intros [| x l]; cbn; try reflexivity.
  - now rewrite firstn_nil.
  - now rewrite IH.
Qed.

Lemma slice_plus {A} (v : list A) (off n m : nat) :
  Py.slice v off n ++ Py.slice v (off + n) m = Py.slice v off (n + m).
Proof.
  unfold Py.slice. rewrite firstn_plus, skipn_skipn.
  now rewrite (Nat.add_comm n off).
Qed.

Lemma slice_length {A} (v : list A) (off n : nat) :
  off + n <= length v -> length (Py.slice v off n) = n.
Proof.
  intros H. unfold Py.slice. rewrite length_firstn, length_skipn. lia.
Qed.

Lemma expected_converts_concat (values : list string) :
  forall (ds : list Device.t) (off : nat),
  concat (map cc_values (expected_converts values ds off))
  = Py.slice values off (batch_offset ds (length ds)).
Proof.
  induction ds as [| d ds IH]; intros off.
  - cbn. unfold Py.slice. reflexivity.
  - cbn [expected_converts map concat cc_values length].
    rewrite batch_offset_cons, IH. apply slice_plus.
Qed.

Lemma expected_converts_lengths (values : list string) :
  forall (ds : list Device.t) (off : nat),
  off + batch_offset ds (length ds) <= length values ->
  Forall (fun cc => length (cc_values cc) = length (cc_nodes cc))
    (expected_converts values ds off).
Proof.
  induction ds as [| d ds IH]; intros off H; cbn [expected_converts];
    constructor; cbn [length] in H; rewrite batch_offset_cons in H.
  - cbn [cc_values cc_nodes]. apply slice_length. lia.
  - apply IH. lia.
Qed.

Lemma Forall_firstn_of {A} (P : A -> Prop) (m : nat) :
  forall l : list A, Forall P l -> Forall P (firstn m l).
Proof.
  induction m as [| m IH]; intros l H; [constructor |].
  destruct H; cbn; constructor; auto.
Qed.

Lemma poll_devices_all (env : Env) (values : list string) :
  forall (ds : list Device.t) (off : nat) (s : PollState) (k : nat),
  fst (poll_devices env values ds off s) = Ok k ->
  converted (snd (poll_devices env values ds off s))
  = converted s ++ expected_converts values ds off.
Proof.
  induction ds as [| d ds IH]; intros off s k H.
  - cbn. now rewrite app_nil_r.
  - rewrite poll_devices_cons in *. cbv zeta in *.
    destruct (convert env d (Device.nodes d)
                (Py.slice values off (length (Device.nodes d))))
      as [o | e]; [| discriminate].
    rewrite (IH _ _ k H). cbn [expected_converts].
    destruct o; cbn; now rewrite <- app_assoc.
Qed.

(** X12: when the batched read returns one value per node, every
    converter call of the poll receives exactly as many values as the
    device has nodes, and when the poll returns normally the values handed
    to the converters, put end to end in device order, are the values read:
    none is dropped and none is handed out twice. *)
Theorem poll_nodes_partition (cl : Client) (env : Env) (c : Connector)
  (values : list string) :
  let all := all_nodes (__device_nodes c) in
  let out := __poll_nodes cl env c in
  all <> [] ->
  read_attributes cl all = Ok values ->
  length values = length all ->
  Forall (fun cc => length (cc_values cc) = length (cc_nodes cc))
    (converted (snd out))
  /\ (fst out = Ok tt ->
      concat (map cc_values (converted (snd out))) = values).
Proof.
  intros all out Hne Hread Hlen.
  set (devices := __device_nodes c) in *.
  set (s1 := Build_PollState (add_call (ReadAttributes all) (session c)) []).
  assert (Hout : out =
            match poll_devices env values devices 0 s1 with
            | (Ok _, s') => (Ok tt, s')
            | (Raise e, s') => (Raise e, s')
            end).
  { subst out. unfold __poll_nodes. fold devices. fold all.
    assert (Hpos : (0 <? length all)%nat = true)
      by (destruct all; [contradiction | reflexivity]).
    rewrite Hpos. unfold mbind, mmodify, lift, mret. rewrite Hread.
    reflexivity. }
  assert (Htotal : batch_offset devices (length devices) = length values)
    by (rewrite Hlen; symmetry; apply all_nodes_length).
  rewrite Hout. clear Hout. split.
  - destruct (poll_devices_trace env values devices 0 s1)
      as [m [Hc _]].
    destruct (poll_devices env values devices 0 s1) as [[k | e] s2];
      cbn [fst snd] in *; rewrite Hc; cbn [converted s1 app];
      apply Forall_firstn_of, expected_converts_lengths; lia.
  - pose proof (poll_devices_all env values devices 0 s1) as Hall.
    destruct (poll_devices env values devices 0 s1) as [[k | e] s2];
      cbn [fst snd] in *; [| discriminate].
    intros _. rewrite (Hall k eq_refl). cbn [converted s1 app].
    rewrite expected_converts_concat, Htotal.
    unfold Py.slice. cbn [skipn]. apply firstn_all.
Qed.

Lemma poll_nodes_partition_witness :
  let c := Build_Connector Demo.two_rooms Demo.idle in
  let out := __poll_nodes (Demo.client Demo.rooms [] []) Demo.env c in
  Forall (fun cc => length (cc_values cc) = length (cc_nodes cc))
    (converted (snd out))
  /\ (fst out = Ok tt ->
      concat (map cc_values (converted (snd out))) = ["A"; "21"; "23"]).
Proof.
  apply (poll_nodes_partition (Demo.client Demo.rooms [] []) Demo.env
           (Build_Connector Demo.two_rooms Demo.idle) ["A"; "21"; "23"]);
    [discriminate | reflexivity | reflexivity].
Defined.

(** ** Resetting and binding nodes *)

Section BindingFacts.

Variable cl : Client.
Variable cfg : Config.

Lemma reset_node_valid (nd : Node.t) (s : Session) :
  Node.valid (fst (__reset_node cl nd s)) = Some false.
Proof.
  unfold __reset_node. cbn [Node.set_valid Node.sub_on].
  destruct (get_default false (Node.sub_on nd)); reflexivity.
Qed.

Lemma reset_node_sub_on (nd : Node.t) (s : Session) :
  Node.sub_on (fst (__reset_node cl nd s)) <> Some true.
Proof.
  unfold __reset_node. cbn [Node.set_valid Node.sub_on].
  destruct (Node.sub_on nd) as [[|] |] eqn:E; cbn; rewrite ?E; discriminate.
Qed.

(** A subscribed binding is unsubscribed with its own handle and loses
    the handle. *)
Lemma reset_node_subscribed (nd : Node.t) (s : Session) :
  Node.sub_on nd = Some true ->
  Node.sub_on (fst (__reset_node cl nd s)) = Some false
  /\ Node.subscription (fst (__reset_node cl nd s)) = None
  /\ forall sub h,
       __subscription s = Some sub -> Node.subscription nd = Some h ->
       calls (snd (__reset_node cl nd s)) = calls s ++ [Unsubscribe h].
Proof.
  intros Hon. unfold __reset_node. cbn [Node.set_valid Node.sub_on].
  rewrite Hon. cbn [get_default fst snd]. repeat split.
  intros sub h Hs Hh. rewrite Hs. cbn [Node.subscription Node.set_valid].
  rewrite Hh.
  destruct (unsubscribe cl h); reflexivity.
Qed.

Lemma reset_node_session (nd : Node.t) (s : Session) :
  __subscription (snd (__reset_node cl nd s)) = __subscription s
  /\ __stopped (snd (__reset_node cl nd s)) = __stopped s.
Proof.
  unfold __reset_node. cbn [Node.set_valid Node.sub_on].
  destruct (get_default false (Node.sub_on nd)); [| now split].
  cbn [snd]. destruct (__subscription s) eqn:Hs; [| now rewrite Hs].
  cbn [Node.subscription Node.set_valid].
  destruct (Node.subscription nd) as [h |]; [| now rewrite <- Hs].
  destruct (unsubscribe cl h); cbn; now rewrite Hs.
Qed.

(** Resetting twice is resetting once: the second pass finds nothing
    subscribed. *)
Lemma reset_node_idem (nd : Node.t) (s : Session) :
  __reset_node cl (fst (__reset_node cl nd s)) (snd (__reset_node cl nd s)) =
  __reset_node cl nd s.
Proof.
  unfold __reset_node at 1. cbn [Node.set_valid Node.sub_on].
  pose proof (reset_node_sub_on nd s) as Hon.
  pose proof (reset_node_valid nd s) as Hv.
  destruct (__reset_node cl nd s) as [nd' s']. cbn [fst snd] in *.
  destruct nd' as [k p v so sb i q]. cbn in *. subst v.
  destruct so as [[|] |]; [contradiction | reflexivity | reflexivity].
Qed.


Lemma reset_if_valid_ok (l : level) (msg : string) (s : LoadState) :
  fst (reset_if_valid cl l msg s) = Ok tt
  /\ Node.valid (cur (snd (reset_if_valid cl l msg s))) = Some false
  /\ dnodes (snd (reset_if_valid cl l msg s)) = dnodes s.
Proof.
  unfold reset_if_valid, mbind, mget, upd_sess, reset_cur, mmodify, mret.
  destruct (Node.valid (cur s)) as [[|] |] eqn:Hv; cbn [get_default fst snd].
  - destruct (__reset_node cl _ _) as [nd' s'] eqn:Hr. cbn.
    pose proof (reset_node_valid (cur s) (add_log l msg (sess s))) as H.
    cbn in Hr. rewrite Hr in H. auto.
  - auto.
  - destruct (__reset_node cl _ _) as [nd' s'] eqn:Hr. cbn.
    pose proof (reset_node_valid (cur s) (add_log l msg (sess s))) as H.
    cbn in Hr. rewrite Hr in H. auto.
Qed.

(** The handlers of [load_node] let only [ConnectionError] through. *)
Lemma load_node_raises (sec : section) (s : LoadState) (e : exn) :
  fst (load_node cl cfg sec s) = Raise e -> e = ConnectionError.
Proof.
  unfold load_node, try_except.
  destruct (bind_node cl cfg sec s) as [[u | e'] s']; [discriminate |].
  destruct e'; cbn [node_not_found_class is_ua_status_code_error];
    try (intros H; destruct (reset_if_valid_ok WARNING
           "Node not found (2); device: %s, key: %s, path: %s" s') as [H' _];
         rewrite H' in H; discriminate);
    try (intros H; destruct (reset_if_valid_ok ERROR
           "Node status code error: %s" s') as [H' _];
         rewrite H' in H; discriminate);
    try (intros H; destruct (reset_if_valid_ok ERROR "%s" s') as [H' _];
         rewrite H' in H; discriminate).
  cbn. intros H. now injection H as <-.
Qed.

End BindingFacts.

Lemma for_each_mut_raises {S A} (P : exn -> Prop)
  (body : A -> S -> result unit * A * S) :
  (forall x s e, fst (fst (body x s)) = Raise e -> P e) ->
  forall l s e, fst (fst (for_each_mut body l s)) = Raise e -> P e.
Proof.
  intros Hb. induction l as [| x l IH]; intros s e H; cbn in H.
  - discriminate.
  - destruct (body x s) as [[[u | e'] x'] s'] eqn:Hbx.
    + destruct (for_each_mut body l s') as [[r xs'] s''] eqn:Hl.
      cbn in H. apply (IH s' e). now rewrite Hl.
    + cbn in H. apply (Hb x s e). rewrite Hbx. exact H.
Qed.

Section LoadFacts.

Variable cl : Client.
Variable cfg : Config.

Lemma load_section_raises (sec : section) (l : list Node.t)
  (st : list NodeConfig * Session) (e : exn) :
  fst (fst (load_section cl cfg sec l st)) = Raise e -> e = ConnectionError.
Proof.
  unfold load_section.
  apply (for_each_mut_raises (fun e => e = ConnectionError)).
  intros nd st' e' H.
  destruct (load_node cl cfg sec _) as [r s'] eqn:Hn. cbn in H.
  apply (load_node_raises cl cfg sec
           (Build_LoadState nd (fst st') (snd st'))).
  now rewrite Hn.
Qed.

Lemma load_device_raises (d : Device.t) (s : Session) (e : exn) :
  fst (fst (load_device cl cfg d s)) = Raise e -> e = ConnectionError.
Proof.
  unfold load_device.
  destruct (load_section cl cfg attributes _ _) as [[[u | e'] la] [ns s1]]
    eqn:Ha.
  - destruct (load_section cl cfg timeseries _ _) as [[r lt] [ns' s2]] eqn:Ht.
    cbn. intros ->.
    eapply load_section_raises. rewrite Ht. reflexivity.
  - cbn. intros H. injection H as <-.
    eapply load_section_raises. rewrite Ha. reflexivity.
Qed.

(** Only a connection loss aborts the cycle. *)
Lemma load_devices_nodes_raises (c : Connector) (e : exn) :
  fst (_load_devices_nodes cl cfg c) = Raise e -> e = ConnectionError.
Proof.
  unfold _load_devices_nodes.
  destruct (for_each_mut (load_device cl cfg) _ _) as [[r devs] s] eqn:Hl.
  cbn. intros ->.
  apply (for_each_mut_raises (fun e => e = ConnectionError)
           (load_device cl cfg) (load_device_raises)
           (__device_nodes c) (session c) e).
  rewrite Hl. reflexivity.
Qed.

(** While the [try] block has not completed, it has not touched the
    flags of the binding, nor unsubscribed anything. *)
Lemma bind_node_raise_flags (sec : section) (s : LoadState) (e : exn) :
  fst (bind_node cl cfg sec s) = Raise e ->
  flags (cur (snd (bind_node cl cfg sec s))) = flags (cur s).
Proof.
  unfold bind_node, resolve_binding, browse_binding, subscribe_binding,
    reset_if_valid, reset_cur, upd_cur, upd_sess,
    mbind, mget, mmodify, mret, lift, mraise.
  repeat (cbn [fst snd cur dnodes sess flags Node.valid Node.sub_on
                 Node.subscription Node.set_qualified_path];
          match goal with
          | |- context [match ?x with _ => _ end] =>
              lazymatch x with
              | context [match _ with _ => _ end] => fail
              | context [if _ then _ else _] => fail
              | _ => destruct x eqn:?
              end
          | |- context [if ?x then _ else _] =>
              lazymatch x with
              | context [match _ with _ => _ end] => fail
              | context [if _ then _ else _] => fail
              | _ => destruct x eqn:?
              end
          end);
    cbn [fst snd cur dnodes sess flags Node.valid Node.sub_on
           Node.subscription Node.set_qualified_path];
    try discriminate; try reflexivity.
Qed.

Lemma reset_if_valid_recovers (l : level) (msg : string) (s : LoadState) :
  exists nd' se',
    reset_if_valid cl l msg s = (Ok tt, Build_LoadState nd' (dnodes s) se')
    /\ recovered (cur s) (sess s) nd' se'.
Proof.
  unfold reset_if_valid, mbind, mget, upd_sess, reset_cur, mmodify, mret.
  destruct (Node.valid (cur s)) as [[|] |] eqn:Hv; cbn [get_default fst snd].
  2: { exists (cur s), (sess s). destruct s; cbn in *. split; [reflexivity |].
       split; [exact Hv | intros H; now elim H]. }
  all: destruct (__reset_node cl (cur s) (add_log l msg (sess s)))
         as [nd' se'] eqn:Hr;
       exists nd', se'; cbn [cur dnodes sess]; rewrite Hr;
       (split; [reflexivity |]);
       pose proof (reset_node_valid cl (cur s) (add_log l msg (sess s))) as H1;
       pose proof (reset_node_sub_on cl (cur s) (add_log l msg (sess s))) as H2;
       pose proof (reset_node_subscribed cl (cur s) (add_log l msg (sess s)))
         as H3;
       rewrite Hr in H1, H2, H3; cbn [fst snd] in H1, H2, H3;
       (split; [exact H1 |]); intros _; (split; [exact H2 |]);
       intros Hon; destruct (H3 Hon) as [H4 [H5 H6]];
       (split; [exact H4 |]); (split; [exact H5 |]);
       intros sub h Hs Hh; exact (H6 sub h Hs Hh).
Qed.

(** Each handler other than the one for [ConnectionError] logs and
    resets. *)
Lemma load_node_handles (sec : section) (s s1 : LoadState) (e : exn) :
  bind_node cl cfg sec s = (Raise e, s1) ->
  e <> ConnectionError ->
  exists l msg, load_node cl cfg sec s = reset_if_valid cl l msg s1.
Proof.
  intros Hb Hne. unfold load_node, try_except. rewrite Hb.
  destruct e; try (now elim Hne);
    cbn [node_not_found_class is_ua_status_code_error];
    eexists; eexists; reflexivity.
Qed.

End LoadFacts.

(** *** What one binding does to the connector *)

Lemma session_step_refl (push : bool) (se : Session) : session_step push se se.
Proof.
  split; [exists []; split; [now rewrite app_nil_r | reflexivity] |].
  repeat split.
Qed.

Lemma session_step_trans (push : bool) (s1 s2 s3 : Session) :
  session_step push s1 s2 -> session_step push s2 s3 ->
  session_step push s1 s3.
Proof.
  intros [[e1 [Hc1 Hu1]] [Hk1 [Hp1 Hs1]]] [[e2 [Hc2 Hu2]] [Hk2 [Hp2 Hs2]]].
  split; [| split; [| split]].
  - exists (e1 ++ e2). split; [now rewrite Hc2, Hc1, app_assoc |].
    intros Hoff. rewrite forallb_app, (Hu1 Hoff). cbn.
    apply Hu2. now rewrite Hs1.
  - intros Hne. rewrite Hk2; [now apply Hk1 |]. now rewrite (Hk1 Hne).
  - intros Hoff. rewrite Hp2; [now apply Hp1 |]. now rewrite Hs1.
  - congruence.
Qed.

Lemma session_step_log (push : bool) (l : level) (msg : string) (se : Session) :
  session_step push se (add_log l msg se).
Proof.
  split; [exists []; split; [cbn; now rewrite app_nil_r | reflexivity] |].
  repeat split.
Qed.

Section CycleFacts.

Variable cl : Client.
Variable cfg : Config.

Lemma reset_node_step (push : bool) (nd : Node.t) (se : Session) :
  session_step push se (snd (__reset_node cl nd se))
  /\ Node.key (fst (__reset_node cl nd se)) = Node.key nd
  /\ well_formed (fst (__reset_node cl nd se)).
Proof.
  split; [| split].
  - unfold __reset_node. cbn [Node.set_valid Node.sub_on Node.subscription].
    destruct (get_default false (Node.sub_on nd)); cbn [snd];
      [| apply session_step_refl].
    destruct (__subscription se) eqn:Hs; [| apply session_step_refl].
    destruct (Node.subscription nd) as [h |]; [| apply session_step_log].
    assert (Hcall : session_step push se (add_call (Unsubscribe h) se)).
    { split; [exists [Unsubscribe h]; split; reflexivity |]. repeat split. }
    destruct (unsubscribe cl h); [exact Hcall |].
    eapply session_step_trans; [exact Hcall | apply session_step_log].
  - unfold __reset_node. cbn [Node.set_valid Node.sub_on].
    destruct (get_default false (Node.sub_on nd)); reflexivity.
  - intros Hon. now elim (reset_node_sub_on cl nd se).
Qed.


Lemma node_step_refl (sec : section) (s : LoadState) :
  node_step sec (__enable_subscriptions cfg) 0 s s.
Proof.
  split; [apply session_step_refl |]. split; [reflexivity |].
  exists []. split; [now rewrite app_nil_r |]. split; [cbn; lia | constructor].
Qed.

Lemma node_step_trans (sec : section) (b1 b2 : nat) (s1 s2 s3 : LoadState) :
  node_step sec (__enable_subscriptions cfg) b1 s1 s2 -> node_step sec (__enable_subscriptions cfg) b2 s2 s3 ->
  node_step sec (__enable_subscriptions cfg) (b1 + b2) s1 s3.
Proof.
  intros [Hs1 [Hk1 [n1 [Hd1 [Hl1 Hf1]]]]] [Hs2 [Hk2 [n2 [Hd2 [Hl2 Hf2]]]]].
  split; [eapply session_step_trans; eassumption |].
  split; [congruence |].
  exists (n1 ++ n2). split; [now rewrite Hd2, Hd1, app_assoc |].
  split; [rewrite length_app; lia |].
  apply Forall_app. split; [exact Hf1 |].
  eapply Forall_impl; [| exact Hf2]. intros nc [Ha Hb]. split; congruence.
Qed.

Lemma node_step_weaken (sec : section) (b b' : nat) (s s' : LoadState) :
  b <= b' -> node_step sec (__enable_subscriptions cfg) b s s' -> node_step sec (__enable_subscriptions cfg) b' s s'.
Proof.
  intros Hle [Hs [Hk [new [Hd [Hl Hf]]]]].
  split; [exact Hs |]. split; [exact Hk |].
  exists new. split; [exact Hd |]. split; [lia | exact Hf].
Qed.

(** A step that only acts on the session. *)
Lemma node_step_session (sec : section) (s : LoadState) (se' : Session) :
  session_step (__enable_subscriptions cfg) (sess s) se' ->
  node_step sec (__enable_subscriptions cfg) 0 s (Build_LoadState (cur s) (dnodes s) se').
Proof.
  intros H. split; [exact H |]. split; [reflexivity |].
  exists []. split; [cbn; now rewrite app_nil_r |].
  split; [cbn; lia | constructor].
Qed.

Lemma reset_if_valid_step (sec : section) (l : level) (msg : string)
  (s : LoadState) :
  node_step sec (__enable_subscriptions cfg) 0 s (snd (reset_if_valid cl l msg s)).
Proof.
  unfold reset_if_valid, mbind, mget, upd_sess, reset_cur, mmodify, mret.
  destruct (get_default true (Node.valid (cur s)));
    cbn [fst snd cur dnodes sess]; [| apply node_step_refl].
  destruct (reset_node_step (__enable_subscriptions cfg) (cur s) (add_log l msg (sess s)))
    as [H1 [H2 _]].
  destruct (__reset_node cl (cur s) (add_log l msg (sess s))) as [nd se'].
  cbn [fst snd cur dnodes sess] in *.
  split; [| split; [exact H2 |]].
  - eapply session_step_trans; [apply session_step_log | exact H1].
  - exists []. split; [cbn; now rewrite app_nil_r |].
    split; [cbn; lia | constructor].
Qed.

Lemma browse_binding_step (sec : section) (p : node_path) (s : LoadState) :
  node_step sec (__enable_subscriptions cfg) 0 s (snd (browse_binding cl p s)).
Proof.
  unfold browse_binding, mbind at 1. unfold lift at 1.
  destruct (path_last p) as [final | e]; cbn [fst snd];
    [| apply node_step_refl].
  destruct (negb (length (Py.split ":" final) =? 2)%nat).
  - unfold mbind at 1. unfold lift at 1.
    destruct (find_node_name_space_index cl p) as [[| q more] | e];
      cbn [fst snd]; [| | apply node_step_refl].
    + unfold mbind, mret.
      pose proof (reset_if_valid_step sec WARNING
                    "Node not found; device: %s, key: %s, path: %s" s) as H.
      destruct (reset_if_valid cl WARNING _ s) as [[[] | e] s1];
        cbn [fst snd] in *; exact H.
    + assert (Hlog : forall s0,
                node_step sec (__enable_subscriptions cfg) 0 s0
                  (snd ((match more with
                         | [] => mret tt
                         | _ :: _ =>
                             upd_sess (add_log WARNING
                               "Multiple matching nodes found; device: %s, key: %s, path: %s; %s")
                         end) s0))).
      { intros s0. destruct more; cbn; [apply node_step_refl |].
        apply (node_step_session sec s0). apply session_step_log. }
      unfold mbind at 1. specialize (Hlog s).
      destruct ((match more with [] => mret tt | _ :: _ => _ end) s)
        as [[[] | e] s1]; cbn [fst snd] in *; [| exact Hlog].
      unfold mbind, upd_cur, mmodify, lift, mret.
      assert (Hq : node_step sec (__enable_subscriptions cfg) 0 s1
                     (Build_LoadState (Node.set_qualified_path q (cur s1))
                        (dnodes s1) (sess s1))).
      { split; [apply session_step_refl |]. split; [reflexivity |].
        exists []. split; [cbn; now rewrite app_nil_r |].
        split; [cbn; lia | constructor]. }
      pose proof (node_step_trans sec 0 0 _ _ _ Hlog Hq) as H.
      destruct (get_child cl q); cbn [fst snd]; exact H.
  - unfold mbind, lift, mret.
    destruct (get_child cl (path_segments p)); cbn [fst snd];
      apply node_step_refl.
Qed.

Lemma resolve_binding_step (sec : section) (s : LoadState) :
  node_step sec (__enable_subscriptions cfg) 0 s (snd (resolve_binding cl s)).
Proof.
  unfold resolve_binding, mbind at 1. unfold mget at 1.
  destruct (match Node.qualified_path (cur s) with
            | Some q => PathList q
            | None => Node.path (cur s)
            end) as [str | l]; [| apply browse_binding_step].
  destruct (is_nodeid_string str); [| apply browse_binding_step].
  unfold mbind, lift, mret.
  destruct (get_node cl str); cbn [fst snd]; apply node_step_refl.
Qed.

Ltac split_innermost :=
  repeat (cbn [fst snd cur dnodes sess Node.key Node.set_valid Node.set_id
                 Node.set_sub_on Node.set_subscription
                 Node.set_qualified_path];
          match goal with
          | |- context [match ?x with _ => _ end] =>
              lazymatch x with
              | context [match _ with _ => _ end] => fail
              | context [if _ then _ else _] => fail
              | _ => destruct x eqn:?
              end
          | |- context [if ?x then _ else _] =>
              lazymatch x with
              | context [match _ with _ => _ end] => fail
              | context [if _ then _ else _] => fail
              | _ => destruct x eqn:?
              end
          end);
  cbn [fst snd cur dnodes sess Node.key Node.set_valid Node.set_id
         Node.set_sub_on Node.set_subscription Node.set_qualified_path].

Lemma subscribe_binding_session (sec : section) (found : node)
  (s : LoadState) :
  session_step (__enable_subscriptions cfg) (sess s)
    (sess (snd (subscribe_binding cl cfg sec found s))).
Proof.
  unfold subscribe_binding, upd_sess, upd_cur, mbind, mget, mmodify, mret,
    lift.
  destruct (__enable_subscriptions cfg) eqn:He;
    destruct (__stopped (sess s)) eqn:Hst;
    cbn [andb negb]; rewrite ?andb_false_r;
    try (split_innermost; apply session_step_refl).
  split_innermost; try apply session_step_refl;
    (split; [eexists; split;
               [cbn [calls add_call add_log set_subscription];
                rewrite <- ?app_assoc; reflexivity
               | rewrite Hst; cbn; discriminate]
            |]);
    (split; [cbn; congruence |]);
    (split; [rewrite Hst; cbn; discriminate | reflexivity]).
Qed.

Lemma subscribe_binding_step (sec : section) (found : node) (s : LoadState) :
  node_step sec (__enable_subscriptions cfg) 1 s
    (snd (subscribe_binding cl cfg sec found s)).
Proof.
  split; [apply subscribe_binding_session |].
  unfold subscribe_binding, upd_sess, upd_cur, mbind, mget, mmodify, mret,
    lift.
  split_innermost;
    (split; [reflexivity |]); eexists; (split; [reflexivity |]);
    (split; [cbn; lia |]); repeat constructor.
Qed.

Lemma bind_node_step (sec : section) (s : LoadState) :
  node_step sec (__enable_subscriptions cfg) 1 s
    (snd (bind_node cl cfg sec s)).
Proof.
  unfold bind_node, mbind.
  pose proof (resolve_binding_step sec s) as H1.
  destruct (resolve_binding cl s) as [[[found |] | e] s1]; cbn [fst snd] in *.
  - exact (node_step_trans sec 0 1 _ _ _ H1
             (subscribe_binding_step sec found s1)).
  - eapply node_step_weaken; [| exact H1]. lia.
  - eapply node_step_weaken; [| exact H1]. lia.
Qed.

(** One binding of the cycle, whatever happens to it. *)
Lemma load_node_step (sec : section) (s : LoadState) :
  node_step sec (__enable_subscriptions cfg) 1 s
    (snd (load_node cl cfg sec s)).
Proof.
  unfold load_node, try_except.
  pose proof (bind_node_step sec s) as H1.
  destruct (bind_node cl cfg sec s) as [[[] | e] s1]; cbn [fst snd] in *;
    [exact H1 |].
  assert (Hr : forall l msg,
             node_step sec (__enable_subscriptions cfg) 1 s
               (snd (reset_if_valid cl l msg s1))).
  { intros l msg.
    exact (node_step_trans sec 1 0 _ _ _ H1 (reset_if_valid_step sec l msg s1)). }
  destruct e; cbn [node_not_found_class is_ua_status_code_error];
    try apply Hr.
  exact H1.
Qed.

Lemma well_formed_flags (nd nd' : Node.t) :
  flags nd' = flags nd -> well_formed nd -> well_formed nd'.
Proof.
  unfold flags, well_formed. intros H. injection H as -> -> ->. auto.
Qed.

Lemma bind_node_well_formed (sec : section) (s : LoadState) :
  well_formed (cur s) ->
  fst (bind_node cl cfg sec s) = Ok tt ->
  well_formed (cur (snd (bind_node cl cfg sec s))).
Proof.
  intros Hwf.
  unfold bind_node, resolve_binding, browse_binding, subscribe_binding,
    reset_if_valid, reset_cur, upd_cur, upd_sess,
    mbind, mget, mmodify, mret, lift, mraise.
  split_innermost; try discriminate; intros _;
    try exact Hwf;
    try (match goal with
         | H : __reset_node cl ?a ?b = (?n, _) |- _ =>
             pose proof (reset_node_sub_on cl a b) as R; rewrite H in R;
             cbn [fst] in R; intros Hon; now elim R
         end);
    unfold well_formed in *;
    cbn [Node.valid Node.sub_on Node.subscription Node.set_valid Node.set_id
           Node.set_sub_on Node.set_subscription Node.set_qualified_path];
    try (intros _; split; [reflexivity | eexists; reflexivity]);
    try (intros Hon; destruct (Hwf Hon) as [Hv Hh];
         split; [reflexivity || exact Hv | exact Hh]).
Qed.

(** A well-formed binding stays well formed through the [try] statement,
    however it ends. *)
Lemma load_node_well_formed (sec : section) (s : LoadState) :
  well_formed (cur s) ->
  well_formed (cur (snd (load_node cl cfg sec s))).
Proof.
  intros Hwf. unfold load_node, try_except.
  pose proof (bind_node_well_formed sec s Hwf) as Hok.
  pose proof (bind_node_raise_flags cl cfg sec s) as Hraise.
  destruct (bind_node cl cfg sec s) as [[[] | e] s1]; cbn [fst snd] in *;
    [now apply Hok |].
  assert (Hwf1 : well_formed (cur s1))
    by (eapply well_formed_flags; [apply (Hraise e eq_refl) | exact Hwf]).
  assert (Hr : forall l msg,
             well_formed (cur (snd (reset_if_valid cl l msg s1)))).
  { intros l msg.
    unfold reset_if_valid, mbind, mget, upd_sess, reset_cur, mmodify, mret.
    destruct (get_default true (Node.valid (cur s1)));
      cbn [fst snd cur dnodes sess]; [| exact Hwf1].
    pose proof (reset_node_sub_on cl (cur s1) (add_log l msg (sess s1))) as R.
    destruct (__reset_node cl (cur s1) (add_log l msg (sess s1))) as [nd se].
    cbn [fst cur] in *. intros Hon. now elim R. }
  destruct e; cbn [node_not_found_class is_ua_status_code_error];
    try apply Hr.
  exact Hwf1.
Qed.

Lemma node_step_zero (sec : section) (push : bool) (s s' : LoadState) :
  node_step sec push 0 s s' ->
  dnodes s' = dnodes s /\ Node.key (cur s') = Node.key (cur s).
Proof.
  intros [_ [Hk [new [Hd [Hlen _]]]]]. split; [| exact Hk].
  destruct new; [now rewrite app_nil_r in Hd | cbn in Hlen; lia].
Qed.

Lemma subscribe_binding_listing (sec : section) (found : node)
  (s : LoadState) :
  dnodes (snd (subscribe_binding cl cfg sec found s))
  = dnodes s ++ [Build_NodeConfig found (Node.key (cur s)) sec].
Proof.
  unfold subscribe_binding, upd_sess, upd_cur, mbind, mget, mmodify, mret,
    lift.
  split_innermost; reflexivity.
Qed.

Lemma bind_node_dnodes (sec : section) (s : LoadState) :
  dnodes (snd (bind_node cl cfg sec s))
  = dnodes s
    ++ match fst (resolve_binding cl s) with
       | Ok (Some found) => [Build_NodeConfig found (Node.key (cur s)) sec]
       | _ => []
       end.
Proof.
  unfold bind_node, mbind.
  destruct (node_step_zero _ _ _ _ (resolve_binding_step sec s)) as [Hd Hk].
  destruct (resolve_binding cl s) as [[[found |] | e] s1];
    cbn [fst snd] in *; rewrite ?app_nil_r; try exact Hd.
  rewrite subscribe_binding_listing, Hd, Hk. reflexivity.
Qed.

(** No [except] clause touches [device.nodes]. *)
Lemma load_node_keeps_dnodes (sec : section) (s : LoadState) :
  dnodes (snd (load_node cl cfg sec s))
  = dnodes (snd (bind_node cl cfg sec s)).
Proof.
  unfold load_node, try_except.
  destruct (bind_node cl cfg sec s) as [[[] | e] s1]; cbn [fst snd] in *;
    [reflexivity |].
  assert (Hr : forall l msg,
             dnodes (snd (reset_if_valid cl l msg s1)) = dnodes s1).
  { intros l msg.
    exact (proj1 (node_step_zero _ _ _ _ (reset_if_valid_step sec l msg s1))). }
  destruct e; cbn [node_not_found_class is_ua_status_code_error];
    try apply Hr.
  reflexivity.
Qed.

(** X6: a binding is listed in [device.nodes] exactly when its lookup
    returned a node: the entry is appended before the subscription is
    attempted, and no [except] clause takes it back, so a node whose
    subscription failed is listed (and polled) all the same. *)
Theorem load_node_listing (sec : section) (s : LoadState) :
  dnodes (snd (load_node cl cfg sec s))
  = dnodes s
    ++ match fst (resolve_binding cl s) with
       | Ok (Some found) => [Build_NodeConfig found (Node.key (cur s)) sec]
       | _ => []
       end.
Proof.
  rewrite load_node_keeps_dnodes. apply bind_node_dnodes.
Qed.

Lemma reset_if_valid_qualified_path (l : level) (msg : string)
  (s : LoadState) :
  Node.qualified_path (cur (snd (reset_if_valid cl l msg s)))
  = Node.qualified_path (cur s).
Proof.
  unfold reset_if_valid, mbind, mget, upd_sess, reset_cur, mmodify, mret,
    __reset_node.
  split_innermost; reflexivity.
Qed.

Lemma subscribe_binding_qualified_path (sec : section) (found : node)
  (s : LoadState) :
  Node.qualified_path (cur (snd (subscribe_binding cl cfg sec found s)))
  = Node.qualified_path (cur s).
Proof.
  unfold subscribe_binding, upd_sess, upd_cur, mbind, mget, mmodify, mret,
    lift.
  split_innermost; reflexivity.
Qed.

(** X10: a binding whose path has no namespace index in its last
    segment and that browsing resolves to one or more qualified paths
    caches the first of them in [qualified_path], and the cache stays
    whatever happens next in the same [try] statement (fetching the node or
    subscribing may fail and reset the binding); the node listed for the
    binding is the one at that first path. *)
Theorem load_node_caches_first_match (sec : section) (s : LoadState)
  (p q : list string) (more : list (list string)) (final : string) :
  Node.qualified_path (cur s) = None ->
  Node.path (cur s) = PathList p ->
  path_last (PathList p) = Ok final ->
  length (Py.split ":" final) <> 2 ->
  find_node_name_space_index cl (PathList p) = Ok (q :: more) ->
  Node.qualified_path (cur (snd (load_node cl cfg sec s))) = Some q
  /\ dnodes (snd (load_node cl cfg sec s))
     = dnodes s
       ++ match get_child cl q with
          | Ok found => [Build_NodeConfig found (Node.key (cur s)) sec]
          | Raise _ => []
          end.
Proof.
  intros Hq Hp Hlast Hlen Hfind.
  apply Nat.eqb_neq in Hlen.
  set (s1 := Build_LoadState (Node.set_qualified_path q (cur s)) (dnodes s)
               (match more with
                | [] => sess s
                | _ :: _ =>
                    add_log WARNING
                      "Multiple matching nodes found; device: %s, key: %s, path: %s; %s"
                      (sess s)
                end)).
  assert (Hres : resolve_binding cl s
                 = match get_child cl q with
                   | Ok found => (Ok (Some found), s1)
                   | Raise e => (Raise e, s1)
                   end).
  { unfold resolve_binding, mbind at 1. unfold mget at 1.
    rewrite Hq, Hp. unfold browse_binding, mbind at 1. unfold lift at 1.
    rewrite Hlast, Hlen. cbn [negb].
    unfold mbind at 1. unfold lift at 1. rewrite Hfind.
    unfold s1, mbind, upd_sess, upd_cur, mmodify, mret, lift.
    destruct more; cbn [cur dnodes sess]; destruct (get_child cl q);
      reflexivity. }
  split.
  - unfold load_node, try_except, bind_node, mbind. rewrite Hres.
    destruct (get_child cl q) as [found | e].
    + pose proof (subscribe_binding_qualified_path sec found s1) as Hs.
      destruct (subscribe_binding cl cfg sec found s1) as [[[] | e] s2];
        cbn [fst snd] in *; [exact Hs |].
      destruct e; cbn [node_not_found_class is_ua_status_code_error mraise];
        rewrite ?reset_if_valid_qualified_path; exact Hs.
    + destruct e; cbn [node_not_found_class is_ua_status_code_error mraise];
        rewrite ?reset_if_valid_qualified_path; reflexivity.
  - rewrite load_node_keeps_dnodes, bind_node_dnodes, Hres.
    destruct (get_child cl q); reflexivity.
Qed.

End CycleFacts.

Lemma load_node_caches_first_match_witness :
  let s := Build_LoadState
             (Node.mk "temperature" (PathList ["Room"; "Temperature"])
                None None None None None) [] Demo.idle in
  let s' := snd (load_node (Demo.client Demo.twins [] []) Demo.twin_config
                   timeseries s) in
  Node.qualified_path (cur s') = Some ["2:Room"; "2:Temperature"]
  /\ dnodes s' = [Build_NodeConfig 3 "temperature" timeseries].
Proof.
  exact (load_node_caches_first_match (Demo.client Demo.twins [] [])
           Demo.twin_config timeseries
           (Build_LoadState
              (Node.mk "temperature" (PathList ["Room"; "Temperature"])
                 None None None None None) [] Demo.idle)
           ["Room"; "Temperature"] ["2:Room"; "2:Temperature"]
           [["3:Room"; "3:Temperature"]] "Temperature"
           eq_refl eq_refl eq_refl
           (fun H : 1 = 2 => O_S 0 (f_equal Nat.pred H)) eq_refl).
Defined.

(** *** The whole binding cycle *)

Lemma for_each_mut_lift {S A} (R : S -> S -> Prop) (Q : A -> A -> Prop)
  (body : A -> S -> result unit * A * S) :
  (forall s, R s s) ->
  (forall a b c, R a b -> R b c -> R a c) ->
  (forall x, Q x x) ->
  (forall x s, R s (snd (body x s)) /\ Q x (snd (fst (body x s)))) ->
  forall l s,
    R s (snd (for_each_mut body l s))
    /\ Forall2 Q l (snd (fst (for_each_mut body l s))).
Proof.
  intros Hrefl Htrans Hq Hbody.
  assert (Hq' : forall l, Forall2 Q l l)
    by (induction l; constructor; auto).
  induction l as [| x xs IH]; intros s; cbn [for_each_mut].
  - cbn. split; [apply Hrefl | constructor].
  - destruct (Hbody x s) as [HR HQ].
    destruct (body x s) as [[[[] | e] x'] s']; cbn [fst snd] in *.
    + destruct (IH s') as [HR' HQ'].
      destruct (for_each_mut body xs s') as [[r xs'] s'']; cbn [fst snd] in *.
      split; [eapply Htrans; eauto | constructor; auto].
    + split; [exact HR | constructor; auto].
Qed.

Lemma Forall2_Forall {A} (P : A -> Prop) (l l' : list A) :
  Forall2 (fun x y => P x -> P y) l l' -> Forall P l -> Forall P l'.
Proof.
  induction 1; intros HF; inversion HF; subst; constructor; auto.
Qed.

Section WholeCycle.

Variable cl : Client.
Variable cfg : Config.

Lemma load_section_session (sec : section) (l : list Node.t)
  (st : list NodeConfig * Session) :
  session_step (__enable_subscriptions cfg) (snd st)
    (snd (snd (load_section cl cfg sec l st))).
Proof.
  unfold load_section.
  apply (for_each_mut_lift
           (fun a b : list NodeConfig * Session =>
              session_step (__enable_subscriptions cfg) (snd a) (snd b))
           (fun _ _ : Node.t => True)).
  - intros; apply session_step_refl.
  - intros a b c; apply session_step_trans.
  - auto.
  - intros nd s. split; [| exact I].
    pose proof (load_node_step cl cfg sec
                  (Build_LoadState nd (fst s) (snd s))) as [H _].
    destruct (load_node cl cfg sec _) as [r s']. exact H.
Qed.

Lemma load_device_session (d : Device.t) (se : Session) :
  session_step (__enable_subscriptions cfg) se
    (snd (load_device cl cfg d se)).
Proof.
  unfold load_device.
  pose proof (load_section_session attributes
                (Device.values (Device.set_nodes [] d) attributes) ([], se))
    as H1.
  destruct (load_section cl cfg attributes _ _) as [[[[] | e] la] [ns s1]];
    cbn [fst snd] in *; [| exact H1].
  match goal with
  | |- context [load_section cl cfg timeseries ?l ?st] =>
      pose proof (load_section_session timeseries l st) as H2;
      destruct (load_section cl cfg timeseries l st) as [[r lt] [ns' s2]]
  end.
  cbn [fst snd] in *. eapply session_step_trans; eauto.
Qed.

(** X7: a whole binding cycle keeps the subscription object once there is
    one and never touches the stop flag; it only adds client calls, and
    while subscriptions are disabled or the connector is stopped every
    call it adds is an [unsubscribe]. *)
Theorem load_devices_nodes_session (c : Connector) :
  session_step (__enable_subscriptions cfg) (session c)
    (session (snd (_load_devices_nodes cl cfg c))).
Proof.
  unfold _load_devices_nodes.
  pose proof (for_each_mut_lift
                (session_step (__enable_subscriptions cfg))
                (fun _ _ : Device.t => True)
                (load_device cl cfg)
                (session_step_refl _)
                (session_step_trans _)
                (fun _ => I)
                (fun d s => conj (load_device_session d s) I)
                (__device_nodes c) (session c)) as [H _].
  destruct (for_each_mut (load_device cl cfg) _ _) as [[r devs] s].
  exact H.
Qed.

Lemma load_section_well_formed (sec : section) (l : list Node.t)
  (st : list NodeConfig * Session) :
  Forall well_formed l ->
  Forall well_formed (snd (fst (load_section cl cfg sec l st))).
Proof.
  unfold load_section. apply Forall2_Forall.
  apply (for_each_mut_lift
           (fun _ _ : list NodeConfig * Session => True)
           (fun x y : Node.t => well_formed x -> well_formed y)); auto.
  intros nd s. split; [exact I |].
  pose proof (load_node_well_formed cl cfg sec
                (Build_LoadState nd (fst s) (snd s))) as H.
  destruct (load_node cl cfg sec _) as [r s']. exact H.
Qed.

Lemma load_device_well_formed (d : Device.t) (se : Session) :
  device_well_formed d ->
  device_well_formed (snd (fst (load_device cl cfg d se))).
Proof.
  intros [Ha Ht]. unfold load_device.
  pose proof (load_section_well_formed attributes
                (Device.values (Device.set_nodes [] d) attributes) ([], se) Ha)
    as H1.
  destruct (load_section cl cfg attributes _ _) as [[[[] | e] la] [ns s1]];
    cbn [fst snd] in *; [| split; [exact H1 | exact Ht]].
  match goal with
  | |- context [load_section cl cfg timeseries ?l ?st] =>
      pose proof (load_section_well_formed timeseries l st Ht) as H2;
      destruct (load_section cl cfg timeseries l st) as [[r lt] [ns' s2]]
  end.
  cbn [fst snd] in *. split; [exact H1 | exact H2].
Qed.

(** X8: if in every device each binding that is marked as subscribed is
    valid and holds a subscription handle, the same is true after a
    binding cycle, whether the cycle returns or is cut short by a
    connection error. *)
Theorem load_devices_nodes_well_formed (c : Connector) :
  Forall device_well_formed (__device_nodes c) ->
  Forall device_well_formed
    (__device_nodes (snd (_load_devices_nodes cl cfg c))).
Proof.
  unfold _load_devices_nodes.
  pose proof (for_each_mut_lift
                (fun _ _ : Session => True)
                (fun x y : Device.t =>
                   device_well_formed x -> device_well_formed y)
                (load_device cl cfg)
                (fun _ => I) (fun _ _ _ _ _ => I) (fun _ H => H)
                (fun d s => conj I (load_device_well_formed d s))
                (__device_nodes c) (session c)) as [_ H].
  destruct (for_each_mut (load_device cl cfg) _ _) as [[r devs] s].
  cbn [fst snd __device_nodes] in *. apply Forall2_Forall. exact H.
Qed.

Lemma load_section_listing (sec : section) (l : list Node.t) :
  forall st : list NodeConfig * Session,
    map Node.key (snd (fst (load_section cl cfg sec l st))) = map Node.key l
    /\ exists new,
         fst (snd (load_section cl cfg sec l st)) = fst st ++ new
         /\ length new <= length l
         /\ Forall (fun nc => In (nc_key nc) (map Node.key l)
                              /\ nc_section nc = sec) new.
Proof.
  unfold load_section.
  induction l as [| x xs IH]; intros st; cbn [for_each_mut].
  - cbn. split; [reflexivity |]. exists []. rewrite app_nil_r. auto.
  - pose proof (load_node_step cl cfg sec
                  (Build_LoadState x (fst st) (snd st)))
      as [_ [Hk [new1 [Hd [Hlen Hall]]]]].
    destruct (load_node cl cfg sec _) as [r s1]. cbn [fst snd cur dnodes] in *.
    assert (Hall1 : Forall (fun nc => In (nc_key nc) (map Node.key (x :: xs))
                                      /\ nc_section nc = sec) new1).
    { eapply Forall_impl; [| exact Hall]. cbn. intros nc [-> ->]. auto. }
    destruct r as [[] | e].
    + destruct (IH (dnodes s1, sess s1)) as [Hkeys [new2 [Hd2 [Hlen2 Hall2]]]].
      destruct (for_each_mut _ xs (dnodes s1, sess s1)) as [[r xs'] s2].
      cbn [fst snd] in *. split; [cbn; now rewrite Hk, Hkeys |].
      exists (new1 ++ new2). rewrite Hd2, Hd, app_assoc.
      split; [reflexivity |]. split; [rewrite length_app; cbn; lia |].
      apply Forall_app. split; [exact Hall1 |].
      eapply Forall_impl; [| exact Hall2]. cbn. intros nc [Hin ->]. auto.
    + cbn [fst snd]. split; [cbn; now rewrite Hk |].
      exists new1. split; [exact Hd |]. split; [cbn; lia | exact Hall1].
Qed.

(** X9: what the body of the device loop does to one device: it keeps
    the name, the path and the keys of the bindings, and rebuilds
    [device.nodes] from nothing, with at most one entry per binding, each
    entry carrying the key of a binding of its own section. *)
Theorem load_device_nodes (d : Device.t) (se : Session) :
  let d' := snd (fst (load_device cl cfg d se)) in
  Device.name d' = Device.name d
  /\ Device.path d' = Device.path d
  /\ (forall sec, map Node.key (Device.values d' sec)
                  = map Node.key (Device.values d sec))
  /\ length (Device.nodes d')
     <= length (Device.values d attributes)
        + length (Device.values d timeseries)
  /\ Forall (fun nc => In (nc_key nc)
                         (map Node.key (Device.values d (nc_section nc))))
       (Device.nodes d').
Proof.
  unfold load_device.
  destruct (load_section_listing attributes
              (Device.values (Device.set_nodes [] d) attributes) ([], se))
    as [Hk1 [new1 [Hd1 [Hl1 Ha1]]]].
  destruct (load_section cl cfg attributes _ _) as [[r la] [ns s1]].
  cbn [fst snd app] in *. subst ns.
  assert (Ha1' : Forall (fun nc => In (nc_key nc)
                     (map Node.key (Device.values d (nc_section nc)))) new1).
  { eapply Forall_impl; [| exact Ha1]. cbn. intros nc [Hin ->]. exact Hin. }
  destruct r as [[] | e].
  - match goal with
    | |- context [load_section cl cfg timeseries ?l ?st] =>
        destruct (load_section_listing timeseries l st)
          as [Hk2 [new2 [Hd2 [Hl2 Ha2]]]];
        destruct (load_section cl cfg timeseries l st) as [[r lt] [ns' s2]]
    end.
    cbn [fst snd Device.values Device.set_values Device.set_nodes
           Device.values_attributes Device.values_timeseries Device.nodes
           Device.name Device.path] in *.
    subst ns'.
    split; [reflexivity |]. split; [reflexivity |].
    split; [intros []; cbn; assumption |].
    split; [rewrite length_app; lia |].
    apply Forall_app. split; [exact Ha1' |].
    eapply Forall_impl; [| exact Ha2]. cbn. intros nc [Hin ->]. exact Hin.
  - cbn [fst snd Device.values Device.set_values Device.set_nodes
           Device.values_attributes Device.values_timeseries Device.nodes
           Device.name Device.path] in *.
    split; [reflexivity |]. split; [reflexivity |].
    split; [intros []; cbn; (assumption || reflexivity) |].
    split; [lia | exact Ha1'].
Qed.

End WholeCycle.

Lemma demo_scanned_well_formed :
  Forall device_well_formed (__device_nodes Demo.scanned_once).
Proof.
  set (l := __device_nodes Demo.scanned_once). vm_compute in l. subst l.
  repeat (apply Forall_cons || apply Forall_nil).
  unfold device_well_formed. cbn [Device.values Device.values_attributes
                                    Device.values_timeseries].
  split; repeat (apply Forall_cons || apply Forall_nil).
  unfold well_formed. cbn. intros _. split; eauto.
Qed.

Lemma load_devices_nodes_well_formed_witness :
  Forall device_well_formed (__device_nodes Demo.scanned_once)
  /\ Forall device_well_formed
       (__device_nodes
          (snd (_load_devices_nodes (Demo.faulty BadNoMatch) Demo.push_config
                  Demo.scanned_once))).
Proof.
  split; [exact demo_scanned_well_formed |].
  apply (load_devices_nodes_well_formed (Demo.faulty BadNoMatch)
           Demo.push_config Demo.scanned_once).
  exact demo_scanned_well_formed.
Defined.

(** *** Error recovery over a whole binding cycle *)

Ltac split_scrutinee :=
  repeat (cbn [fst snd cur dnodes sess Node.key Node.set_valid Node.set_id
                 Node.set_sub_on Node.set_subscription
                 Node.set_qualified_path];
          match goal with
          | |- context [match ?x with _ => _ end] =>
              lazymatch x with
              | context [match _ with _ => _ end] => fail
              | context [if _ then _ else _] => fail
              | _ => destruct x eqn:?
              end
          | |- context [if ?x then _ else _] =>
              lazymatch x with
              | context [match _ with _ => _ end] => fail
              | context [if _ then _ else _] => fail
              | _ => destruct x eqn:?
              end
          end);
  cbn [fst snd cur dnodes sess Node.key Node.set_valid Node.set_id
         Node.set_sub_on Node.set_subscription Node.set_qualified_path].

Section LookupFacts.

Variable cl : Client.
Variable cfg : Config.

(** What the lookup of a binding gives does not depend on the state of
    the connector. *)
Lemma resolve_binding_any_state (s s2 : LoadState) :
  cur s2 = cur s ->
  fst (resolve_binding cl s2) = fst (resolve_binding cl s).
Proof.
  destruct s as [nd dn se], s2 as [nd2 dn2 se2]. cbn [cur]. intros ->.
  unfold resolve_binding, browse_binding, reset_if_valid, reset_cur,
    upd_cur, upd_sess, mbind, mget, mmodify, mret, lift.
  cbn [cur]. split_scrutinee; reflexivity.
Qed.

Lemma resolve_binding_lookup (s : LoadState) :
  fst (resolve_binding cl s) = lookup cl (cur s).
Proof.
  unfold lookup. symmetry. now apply resolve_binding_any_state.
Qed.

Lemma bind_node_lookup_raises (sec : section) (s : LoadState) (e : exn) :
  lookup cl (cur s) = Raise e -> fst (bind_node cl cfg sec s) = Raise e.
Proof.
  rewrite <- resolve_binding_lookup. unfold bind_node, mbind.
  destruct (resolve_binding cl s) as [[found | e'] s1]; cbn [fst];
    intros H; [discriminate H | now injection H as ->].
Qed.

Lemma load_node_lookup_connection (sec : section) (s : LoadState) :
  lookup cl (cur s) = Raise ConnectionError ->
  fst (load_node cl cfg sec s) = Raise ConnectionError.
Proof.
  intros H. apply (bind_node_lookup_raises sec) in H.
  unfold load_node, try_except.
  destruct (bind_node cl cfg sec s) as [[[] | e] s1]; cbn [fst] in H;
    [discriminate |].
  injection H as ->. reflexivity.
Qed.

Lemma load_node_listed (sec : section) (s : LoadState) :
  dnodes (snd (load_node cl cfg sec s)) = dnodes s ++ listed cl sec (cur s).
Proof.
  rewrite load_node_keeps_dnodes, bind_node_dnodes, resolve_binding_lookup.
  unfold listed. destruct (lookup cl (cur s)) as [[found |] | e]; reflexivity.
Qed.

(** A lookup that returns a node leaves the flags of the binding
    alone. *)
Lemma resolve_binding_flags (s : LoadState) (found : node) :
  fst (resolve_binding cl s) = Ok (Some found) ->
  flags (cur (snd (resolve_binding cl s))) = flags (cur s).
Proof.
  unfold resolve_binding, browse_binding, reset_if_valid, reset_cur,
    upd_cur, upd_sess, mbind, mget, mmodify, mret, lift.
  split_scrutinee; intros H; try discriminate H; reflexivity.
Qed.

(** However the second part of the [try] block ends, it leaves the
    flags of the binding as they were or the binding valid. *)
Lemma subscribe_binding_flags (sec : section) (found : node)
  (s : LoadState) :
  flags (cur (snd (subscribe_binding cl cfg sec found s))) = flags (cur s)
  \/ Node.valid (cur (snd (subscribe_binding cl cfg sec found s)))
     = Some true.
Proof.
  unfold subscribe_binding, upd_sess, upd_cur, mbind, mget, mmodify, mret,
    lift.
  split_scrutinee; (now left) || (now right).
Qed.

Lemma bind_node_ok_flags (sec : section) (s : LoadState) :
  lookup cl (cur s) <> Ok None ->
  fst (bind_node cl cfg sec s) = Ok tt ->
  flags (cur (snd (bind_node cl cfg sec s))) = flags (cur s)
  \/ Node.valid (cur (snd (bind_node cl cfg sec s))) = Some true.
Proof.
  rewrite <- resolve_binding_lookup. unfold bind_node, mbind.
  pose proof (resolve_binding_flags s) as Hf.
  destruct (resolve_binding cl s) as [[[found |] | e] s1]; cbn [fst snd] in *;
    intros Hl Hok; [| now elim Hl | discriminate Hok].
  destruct (subscribe_binding_flags sec found s1) as [H | H];
    [left | now right].
  rewrite H. now apply (Hf found).
Qed.

(** A binding for which the [try] statement has returned has had its
    turn. *)
Lemma load_node_processed (first final : Session) (sec : section)
  (nd : Node.t) (dn : list NodeConfig) (se : Session) :
  let s := Build_LoadState nd dn se in
  fst (load_node cl cfg sec s) = Ok tt ->
  (__subscription first <> None -> __subscription se = __subscription first) ->
  (exists later, calls final = calls (sess (snd (load_node cl cfg sec s)))
                               ++ later) ->
  processed cl cfg first final sec nd (cur (snd (load_node cl cfg sec s))).
Proof.
  intros s Hok Hsub Hlater. exists dn, se. fold s. cbv zeta.
  split; [exact Hok |]. split; [reflexivity |]. split; [exact Hsub |].
  split; [exact Hlater |]. split.
  - intros e Hraise.
    pose proof (bind_node_raise_flags cl cfg sec s e Hraise) as Hflags.
    unfold flags in Hflags. cbn [cur s] in Hflags.
    injection Hflags as Hv Hon Hs.
    assert (Hb : bind_node cl cfg sec s
                 = (Raise e, snd (bind_node cl cfg sec s))).
    { destruct (bind_node cl cfg sec s) as [r s1]. cbn in *. now subst r. }
    assert (Hne : e <> ConnectionError).
    { intros ->. unfold load_node, try_except in Hok. rewrite Hb in Hok.
      discriminate Hok. }
    destruct (load_node_handles cl cfg sec s _ e Hb Hne) as [l [msg Hl]].
    destruct (reset_if_valid_recovers cl l msg (snd (bind_node cl cfg sec s)))
      as [nd' [se' [Hr Hrec]]].
    rewrite Hl, Hr. cbn [snd cur sess].
    unfold recovered in *. rewrite Hv, Hon, Hs in Hrec. exact Hrec.
  - intros Hbind Hl.
    assert (E : load_node cl cfg sec s = bind_node cl cfg sec s).
    { unfold load_node, try_except.
      destruct (bind_node cl cfg sec s) as [[[] | e] s1]; cbn in Hbind;
        [reflexivity | discriminate]. }
    rewrite E. exact (bind_node_ok_flags sec s Hl Hbind).
Qed.

End LookupFacts.

(** A loop whose body changes its element in place, and a property of
    the element that depends on the states the loop starts from and ends
    in. *)
Lemma for_each_mut_grows {S A} (le : S -> S -> Prop)
  (body : A -> S -> result unit * A * S) :
  (forall s, le s s) ->
  (forall a b c, le a b -> le b c -> le a c) ->
  (forall x s, le s (snd (body x s))) ->
  forall l s, le s (snd (for_each_mut body l s)).
Proof.
  intros Hrefl Htrans Hstep. induction l as [| x l IH]; intros s;
    cbn [for_each_mut]; [apply Hrefl |].
  pose proof (Hstep x s) as H1.
  destruct (body x s) as [[[[] | e] x'] s']; cbn [snd] in *; [| exact H1].
  pose proof (IH s') as H2.
  destruct (for_each_mut body l s') as [[r l'] s'']. cbn [snd] in *.
  eapply Htrans; eassumption.
Qed.

Lemma for_each_mut_turns {S A} (le : S -> S -> Prop)
  (Q : S -> S -> A -> A -> Prop) (body : A -> S -> result unit * A * S) :
  (forall s, le s s) ->
  (forall a b c, le a b -> le b c -> le a c) ->
  (forall x s, le s (snd (body x s))) ->
  (forall first final x s,
     le first s -> le (snd (body x s)) final ->
     fst (fst (body x s)) = Ok tt ->
     Q first final x (snd (fst (body x s)))) ->
  forall l first s final,
    le first s ->
    le (snd (for_each_mut body l s)) final ->
    fst (fst (for_each_mut body l s)) = Ok tt ->
    Forall2 (Q first final) l (snd (fst (for_each_mut body l s))).
Proof.
  intros Hrefl Htrans Hstep Hq.
  induction l as [| x l IH]; intros first s final Hfirst Hfinal Hok;
    cbn [for_each_mut] in *; [constructor |].
  pose proof (Hstep x s) as H1. pose proof (Hq first final x s Hfirst) as H2.
  destruct (body x s) as [[[[] | e] x'] s']; cbn [fst snd] in *;
    [| discriminate Hok].
  pose proof (for_each_mut_grows le body Hrefl Htrans Hstep l s') as H3.
  pose proof (IH first s' final (Htrans _ _ _ Hfirst H1)) as H4.
  destruct (for_each_mut body l s') as [[r l'] s'']. cbn [fst snd] in *.
  constructor.
  - apply H2; [| reflexivity]. eapply Htrans; eassumption.
  - apply H4; assumption.
Qed.

(** A loop in which one element makes the body raise in every state
    raises, when the body has only that exception to raise. *)
Lemma for_each_mut_must_raise {S A} (e0 : exn)
  (body : A -> S -> result unit * A * S) (x0 : A) :
  (forall x s e, fst (fst (body x s)) = Raise e -> e = e0) ->
  (forall s, fst (fst (body x0 s)) = Raise e0) ->
  forall l s, In x0 l -> fst (fst (for_each_mut body l s)) = Raise e0.
Proof.
  intros Honly Hx0. induction l as [| x l IH]; intros s Hin;
    [now elim Hin |].
  cbn [for_each_mut].
  pose proof (Honly x s) as H1. pose proof (Hx0 s) as H2.
  destruct (body x s) as [[[[] | e] x'] s'] eqn:Hb; cbn [fst snd] in *.
  - destruct Hin as [-> | Hin]; [rewrite Hb in H2; discriminate H2 |].
    specialize (IH s' Hin).
    destruct (for_each_mut body l s') as [[r l'] s'']. exact IH.
  - now rewrite (H1 e eq_refl).
Qed.

Lemma for_each_mut_returns {S A} (body : A -> S -> result unit * A * S) :
  (forall x s, fst (fst (body x s)) = Ok tt) ->
  forall l s, fst (fst (for_each_mut body l s)) = Ok tt.
Proof.
  intros Hb. induction l as [| x l IH]; intros s; [reflexivity |].
  cbn [for_each_mut]. pose proof (Hb x s) as H1.
  destruct (body x s) as [[[[] | e] x'] s']; cbn [fst] in *;
    [| discriminate H1].
  specialize (IH s'). destruct (for_each_mut body l s') as [[r l'] s''].
  exact IH.
Qed.

Section WholeCycleRecovery.

Variable cl : Client.
Variable cfg : Config.

Lemma load_node_returns (sec : section) (s : LoadState) :
  fst (bind_node cl cfg sec s) <> Raise ConnectionError ->
  fst (load_node cl cfg sec s) = Ok tt.
Proof.
  intros Hne. pose proof (load_node_raises cl cfg sec s) as Honly.
  unfold load_node, try_except in *.
  destruct (bind_node cl cfg sec s) as [[[] | e] s1]; [reflexivity |].
  cbn [fst] in Hne.
  destruct (fst _) as [[] | e'] eqn:E; [reflexivity |].
  specialize (Honly e' eq_refl). subst e'.
  destruct e; try (now elim Hne);
    cbn [node_not_found_class is_ua_status_code_error] in E;
    match type of E with
    | fst (reset_if_valid _ ?l ?msg ?s) = _ =>
        rewrite (proj1 (reset_if_valid_ok cl l msg s)) in E
    end; discriminate E.
Qed.

Lemma load_section_turns (sec : section) (l : list Node.t)
  (st : list NodeConfig * Session) (first final : Session) :
  session_step (__enable_subscriptions cfg) first (snd st) ->
  session_step (__enable_subscriptions cfg)
    (snd (snd (load_section cl cfg sec l st))) final ->
  fst (fst (load_section cl cfg sec l st)) = Ok tt ->
  Forall2 (processed cl cfg first final sec) l
    (snd (fst (load_section cl cfg sec l st))).
Proof.
  intros Hfirst Hfinal Hok. unfold load_section in *.
  apply (for_each_mut_turns
           (fun a b : list NodeConfig * Session =>
              session_step (__enable_subscriptions cfg) (snd a) (snd b))
           (fun a b : list NodeConfig * Session =>
              processed cl cfg (snd a) (snd b) sec)
           _
           (fun s => session_step_refl _ (snd s))
           (fun a b c => session_step_trans _ (snd a) (snd b) (snd c)))
    with (first := ([] : list NodeConfig, first)) (final := ([], final));
    try assumption.
  - intros nd s.
    pose proof (load_node_step cl cfg sec
                  (Build_LoadState nd (fst s) (snd s))) as [H _].
    destruct (load_node cl cfg sec _) as [r s']. exact H.
  - intros a b nd s Ha Hb Hr.
    pose proof (load_node_processed cl cfg (snd a) (snd b) sec nd
                  (fst s) (snd s)) as H.
    cbv zeta in H.
    destruct (load_node cl cfg sec _) as [r s']. cbn [fst snd] in *.
    apply H; [exact Hr | exact (proj1 (proj2 Ha)) |].
    destruct Hb as [[extra [Hc _]] _]. now exists extra.
Qed.

Lemma load_section_listed (sec : section) (l : list Node.t) :
  forall st : list NodeConfig * Session,
  fst (fst (load_section cl cfg sec l st)) = Ok tt ->
  fst (snd (load_section cl cfg sec l st))
  = fst st ++ flat_map (listed cl sec) l.
Proof.
  unfold load_section.
  induction l as [| nd l IH]; intros st; cbn [for_each_mut flat_map].
  - intros _. cbn. now rewrite app_nil_r.
  - pose proof (load_node_listed cl cfg sec
                  (Build_LoadState nd (fst st) (snd st))) as H1.
    destruct (load_node cl cfg sec _) as [[[] | e] s1]; cbn [fst snd] in *;
      [| discriminate].
    specialize (IH (dnodes s1, sess s1)).
    destruct (for_each_mut _ l (dnodes s1, sess s1)) as [[r l'] st2].
    cbn [fst snd] in *. intros Hr. rewrite (IH Hr), H1.
    now rewrite <- app_assoc.
Qed.

Lemma load_section_must_raise (sec : section) (l : list Node.t)
  (st : list NodeConfig * Session) (nd : Node.t) :
  In nd l ->
  lookup cl nd = Raise ConnectionError ->
  fst (fst (load_section cl cfg sec l st)) = Raise ConnectionError.
Proof.
  intros Hin Hl. unfold load_section.
  apply (for_each_mut_must_raise ConnectionError _ nd); [| | exact Hin].
  - intros x s e H.
    pose proof (load_node_raises cl cfg sec
                  (Build_LoadState x (fst s) (snd s)) e) as Ho.
    destruct (load_node cl cfg sec _) as [r s']. exact (Ho H).
  - intros s.
    pose proof (load_node_lookup_connection cl cfg sec
                  (Build_LoadState nd (fst s) (snd s)) Hl) as Hr.
    destruct (load_node cl cfg sec _) as [r s']. exact Hr.
Qed.

Lemma load_section_returns (sec : section) (l : list Node.t)
  (st : list NodeConfig * Session) :
  (forall sec s, fst (bind_node cl cfg sec s) <> Raise ConnectionError) ->
  fst (fst (load_section cl cfg sec l st)) = Ok tt.
Proof.
  intros Hne. unfold load_section. apply for_each_mut_returns.
  intros x s.
  pose proof (load_node_returns sec (Build_LoadState x (fst s) (snd s))
                (Hne _ _)) as H.
  destruct (load_node cl cfg sec _) as [r s']. exact H.
Qed.

Lemma load_device_turn (first final : Session) (d : Device.t)
  (s : Session) :
  session_step (__enable_subscriptions cfg) first s ->
  session_step (__enable_subscriptions cfg) (snd (load_device cl cfg d s))
    final ->
  fst (fst (load_device cl cfg d s)) = Ok tt ->
  device_turn cl cfg first final d (snd (fst (load_device cl cfg d s))).
Proof.
  intros Hfirst Hfinal Hok. unfold load_device in *.
  set (la0 := Device.values (Device.set_nodes [] d) attributes) in *.
  pose proof (load_section_turns attributes la0 ([], s) first) as Ha.
  pose proof (load_section_listed attributes la0 ([], s)) as Hla.
  pose proof (load_section_session cl cfg attributes la0 ([], s)) as Hsa.
  destruct (load_section cl cfg attributes la0 ([], s))
    as [[[[] | e] la] [ns s1]]; cbn [fst snd] in *; [| discriminate Hok].
  match goal with
  | |- context [load_section cl cfg timeseries ?l ?st] =>
      set (lt0 := l) in *;
      pose proof (load_section_turns timeseries lt0 st first final) as Ht;
      pose proof (load_section_listed timeseries lt0 st) as Hlt;
      pose proof (load_section_session cl cfg timeseries lt0 st) as Hst;
      destruct (load_section cl cfg timeseries lt0 st)
        as [[r lt] [ns' s2]]
  end.
  cbn [fst snd] in *. subst r.
  assert (E1 : la0 = Device.values d attributes) by (now destruct d).
  assert (E2 : lt0 = Device.values d timeseries) by (now destruct d).
  rewrite E1 in *. rewrite E2 in *.
  split; [now destruct d |]. split; [| split].
  - destruct d; cbn in *. apply Ha; [exact Hfirst | | reflexivity].
    eapply session_step_trans; [exact Hst | exact Hfinal].
  - destruct d; cbn in *. apply Ht; [| exact Hfinal | reflexivity].
    eapply session_step_trans; [exact Hfirst | exact Hsa].
  - destruct d; cbn in *. rewrite (Hlt eq_refl), (Hla eq_refl).
    reflexivity.
Qed.

Lemma load_device_must_raise (d : Device.t) (s : Session) (sec : section)
  (nd : Node.t) :
  In nd (Device.values d sec) ->
  lookup cl nd = Raise ConnectionError ->
  fst (fst (load_device cl cfg d s)) = Raise ConnectionError.
Proof.
  intros Hin Hl. unfold load_device.
  set (la0 := Device.values (Device.set_nodes [] d) attributes).
  pose proof (load_section_must_raise attributes la0 ([], s) nd) as Ha.
  pose proof (load_section_raises cl cfg attributes la0 ([], s)) as Hoa.
  destruct (load_section cl cfg attributes la0 ([], s))
    as [[[[] | e] la] [ns s1]]; cbn [fst snd] in *.
  - match goal with
    | |- context [load_section cl cfg timeseries ?l ?st] =>
        pose proof (load_section_must_raise timeseries l st nd) as Ht;
        assert (El : l = Device.values d timeseries) by (now destruct d);
        destruct (load_section cl cfg timeseries l st) as [[r lt] [ns' s2]]
    end.
    cbn [fst snd] in *. destruct sec.
    + assert (E : la0 = Device.values d attributes) by (now destruct d).
      rewrite E in Ha. specialize (Ha Hin Hl). discriminate Ha.
    + apply Ht; [now rewrite El | exact Hl].
  - now rewrite (Hoa e eq_refl).
Qed.

Lemma load_device_returns (d : Device.t) (s : Session) :
  (forall sec s, fst (bind_node cl cfg sec s) <> Raise ConnectionError) ->
  fst (fst (load_device cl cfg d s)) = Ok tt.
Proof.
  intros Hne. unfold load_device.
  pose proof (load_section_returns attributes
                (Device.values (Device.set_nodes [] d) attributes) ([], s)
                Hne) as Ha.
  destruct (load_section cl cfg attributes _ _) as [[[[] | e] la] [ns s1]];
    cbn [fst snd] in *; [| discriminate Ha].
  match goal with
  | |- context [load_section cl cfg timeseries ?l ?st] =>
      pose proof (load_section_returns timeseries l st Hne) as Ht;
      destruct (load_section cl cfg timeseries l st) as [[r lt] [ns' s2]]
  end.
  exact Ht.
Qed.

(** C5: in a binding cycle, an error of the node-not-found class on one
    binding does not stop the cycle.  A cycle returns whenever no [try]
    block raises [ConnectionError]; when it returns, every binding of every device, in both sections, has
    had its turn: a binding whose [try] block raised is recovered (marked
    invalid and, if it was valid and subscribed, unsubscribed with its own
    handle, which is cleared), a binding bound without error keeps its
    flags or is valid, and [device.nodes] lists every binding whose lookup
    returned a node, whatever happened to the bindings before it.  A
    binding whose lookup raises an error of the class, as any exception
    but [ConnectionError], is recovered in this way, the call that
    unsubscribes it being among the calls of the cycle.
    A [ConnectionError] raised by the lookup of any binding of any device
    is raised by the cycle. *)
Theorem load_devices_nodes_error_recovery (c : Connector) :
  let out := _load_devices_nodes cl cfg c in
  let first := session c in
  let final := session (snd out) in
  (forall d sec nd,
     In d (__device_nodes c) -> In nd (Device.values d sec) ->
     lookup cl nd = Raise ConnectionError ->
     fst out = Raise ConnectionError)
  /\ ((forall sec s, fst (bind_node cl cfg sec s) <> Raise ConnectionError) ->
      fst out = Ok tt)
  /\ (fst out = Ok tt ->
      Forall2 (device_turn cl cfg first final)
        (__device_nodes c) (__device_nodes (snd out)))
  /\ (forall e, node_not_found_class e = true -> e <> ConnectionError)
  /\ forall sec nd nd' e,
       processed cl cfg first final sec nd nd' ->
       lookup cl nd = Raise e ->
       Node.valid nd' = Some false
       /\ (Node.valid nd <> Some false ->
           Node.sub_on nd' <> Some true
           /\ (Node.sub_on nd = Some true ->
               Node.sub_on nd' = Some false
               /\ Node.subscription nd' = None
               /\ forall h,
                    __subscription first <> None ->
                    Node.subscription nd = Some h ->
                    In (Unsubscribe h) (calls final))).
Proof.
  intros out first final. subst out first final.
  unfold _load_devices_nodes.
  pose proof (for_each_mut_must_raise ConnectionError (load_device cl cfg))
    as Hmust.
  pose proof (fun H => for_each_mut_returns (load_device cl cfg)
                         (fun d s => load_device_returns d s H)
                         (__device_nodes c) (session c)) as Hret.
  pose proof (for_each_mut_turns
                (session_step (__enable_subscriptions cfg))
                (device_turn cl cfg) (load_device cl cfg)
                (session_step_refl _) (session_step_trans _)
                (load_device_session cl cfg)
                (fun first final d s H1 H2 H3 =>
                   load_device_turn first final d s H1 H2 H3)
                (__device_nodes c) (session c) (session c)) as Hturn.
  destruct (for_each_mut (load_device cl cfg) (__device_nodes c) (session c))
    as [[r devs] s] eqn:Hrun. cbn [fst snd __device_nodes session] in *.
  split; [| split; [| split; [| split]]].
  - intros d sec nd Hd Hnd Hl.
    pose proof (Hmust d (load_device_raises cl cfg)
                  (fun s0 => load_device_must_raise d s0 sec nd Hnd Hl)
                  (__device_nodes c) (session c) Hd) as H.
    rewrite Hrun in H. exact H.
  - exact Hret.
  - intros Hok. apply Hturn; [apply session_step_refl | | exact Hok].
    apply session_step_refl.
  - intros e He ->. discriminate He.
  - intros sec nd nd' e [dn [se [Hok [Hcur [Hsub [[later Hlater] [Hrec _]]]]]]]
      Hl.
    pose proof (bind_node_lookup_raises cl cfg sec (Build_LoadState nd dn se)
                  e Hl) as Hraise.
    destruct (Hrec e Hraise) as [Hv Hrest].
    split; [exact Hv |]. intros Hvalid.
    destruct (Hrest Hvalid) as [Hon Hsubd]. split; [exact Hon |].
    intros Hwas. destruct (Hsubd Hwas) as [H1 [H2 H3]].
    split; [exact H1 |]. split; [exact H2 |].
    intros h Hfirst Hh.
    (* the [try] block raised in the lookup, before touching the session *)
    assert (Hsess : __subscription
                      (sess (snd (bind_node cl cfg sec
                                    (Build_LoadState nd dn se))))
                    = __subscription se).
    { pose proof (bind_node_step cl cfg sec (Build_LoadState nd dn se))
        as [[_ [Hkeep _]] _]. cbn [sess] in Hkeep. apply Hkeep.
      rewrite (Hsub Hfirst). exact Hfirst. }
    pose proof (Hsub Hfirst) as Hse. rewrite Hse in Hsess.
    destruct (__subscription (session c)) as [sub |];
      [| now elim Hfirst].
    rewrite Hlater, (H3 sub h Hsess Hh).
    apply in_or_app. left. apply in_or_app. right. now left.
Qed.

End WholeCycleRecovery.

Lemma load_devices_nodes_error_recovery_witness :
  let c := Demo.scanned_once in
  let out := _load_devices_nodes (Demo.faulty BadNodeIdUnknown)
               Demo.push_config c in
  let lost := _load_devices_nodes (Demo.faulty ConnectionError)
                Demo.push_config c in
  lookup (Demo.faulty BadNodeIdUnknown) Demo.bound_temperature
    = Raise BadNodeIdUnknown
  /\ fst out = Ok tt
  /\ binding_flags c = [[(Some true, Some true, Some 105)]]
  /\ binding_flags (snd out) = [[(Some false, Some false, None)]]
  /\ calls (session (snd out)) = calls (session c) ++ [Unsubscribe 105]
  /\ fst lost = Raise ConnectionError.
Proof.
  cbv zeta.
  split; [vm_compute; reflexivity |]. split; [vm_compute; reflexivity |].
  split; [vm_compute; reflexivity |]. split; [vm_compute; reflexivity |].
  split; [vm_compute; reflexivity |].
  refine (proj1 (load_devices_nodes_error_recovery
                   (Demo.faulty ConnectionError) Demo.push_config
                   Demo.scanned_once)
            (hd (Device.mk [] "" (Build_DeviceConfig Demo.room1 ""
                                    (InfoAll [])) [] [] [] "" None)
               (__device_nodes Demo.scanned_once))
            timeseries Demo.bound_temperature _ _ _).
  - vm_compute. now left.
  - vm_compute. now left.
  - vm_compute. reflexivity.
Defined.


(** A binding whose [valid] flag is [False] passes through the end of the
    [try] block unchanged: it is listed in [device.nodes], not subscribed
    and not marked valid. *)
Lemma subscribe_binding_invalid (cl : Client) (cfg : Config) (sec : section)
  (found : node) (s : LoadState) :
  Node.valid (cur s) = Some false ->
  subscribe_binding cl cfg sec found s =
  (Ok tt,
   Build_LoadState (cur s)
     (dnodes s ++ [Build_NodeConfig found (Node.key (cur s)) sec]) (sess s)).
Proof.
  intros Hv. unfold subscribe_binding, mbind, mget, mmodify, mret.
  rewrite Hv. reflexivity.
Qed.

(** C2 fails on the code.  A first scan binds and subscribes the
    temperature of room 1; a cycle in which its lookup raises resets the
    binding; the next cycle resolves the node again (it is back in
    [device.nodes]) and leaves the binding invalid and unsubscribed: no
    monitored item is registered. *)
Lemma reset_binding_is_not_rebound :
  let ok := Demo.client Demo.rooms [] [] in
  let c1 := snd (__scan_device_nodes ok Demo.env Demo.push_config
                   (Build_Connector [] Demo.idle)) in
  let r2 := _load_devices_nodes (Demo.faulty BadNodeIdUnknown)
              Demo.push_config c1 in
  let r3 := _load_devices_nodes ok Demo.push_config (snd r2) in
  binding_flags c1 = [[(Some true, Some true, Some 105)]]
  /\ calls (session c1) = [CreateSubscription; SubscribeDataChange 5]
  /\ fst r2 = Ok tt
  /\ binding_flags (snd r2) = [[(Some false, Some false, None)]]
  /\ calls (session (snd r2)) =
       [CreateSubscription; SubscribeDataChange 5; Unsubscribe 105]
  /\ fst r3 = Ok tt
  /\ map Device.nodes (__device_nodes (snd r3)) =
       [[Build_NodeConfig 5 "temperature" timeseries]]
  /\ binding_flags (snd r3) = [[(Some false, Some false, None)]]
  /\ calls (session (snd r3)) = calls (session (snd r2)).
Proof. vm_compute. repeat split. Qed.

(** ** Tearing devices down *)

Section TeardownFacts.

Variable cl : Client.

Lemma reset_node_is_reset (nd : Node.t) (s : Session) :
  is_reset (fst (__reset_node cl nd s)).
Proof. split; [apply reset_node_valid | apply reset_node_sub_on]. Qed.

Lemma reset_node_fixed (nd : Node.t) (s : Session) :
  is_reset nd -> __reset_node cl nd s = (nd, s).
Proof.
  intros [Hv Hon]. unfold __reset_node.
  destruct nd as [k p v so sb i q]. cbn in *. subst v.
  destruct so as [[|] |]; [now elim Hon | reflexivity | reflexivity].
Qed.

Lemma reset_node_list_spec (l : list Node.t) (s : Session) :
  Forall is_reset (fst (reset_node_list cl l s))
  /\ __subscription (snd (reset_node_list cl l s)) = __subscription s
  /\ (Forall is_reset l -> reset_node_list cl l s = (l, s)).
Proof.
  revert s. induction l as [| nd l IH]; intros s; cbn [reset_node_list].
  - repeat split. constructor.
  - pose proof (reset_node_is_reset nd s) as H1.
    pose proof (reset_node_session cl nd s) as [H2 _].
    pose proof (reset_node_fixed nd s) as H3.
    destruct (__reset_node cl nd s) as [nd' s'].
    destruct (IH s') as [H4 [H5 H6]].
    destruct (reset_node_list cl l s') as [l' s''].
    cbn [fst snd] in *. split; [now constructor |].
    split; [congruence |].
    intros Hall. inversion Hall as [| ? ? Hnd Hl]; subst.
    specialize (H3 Hnd). injection H3 as -> ->.
    specialize (H6 Hl). injection H6 as -> ->. reflexivity.
Qed.

Lemma reset_device_spec (d : Device.t) (s : Session) :
  torn_down (fst (reset_device cl d s))
  /\ Device.name (fst (reset_device cl d s)) = Device.name d
  /\ __subscription (snd (reset_device cl d s)) = __subscription s
  /\ (torn_down d -> reset_device cl d s = (d, s)).
Proof.
  unfold reset_device.
  destruct (reset_node_list_spec (Device.values d attributes) s)
    as [Ha [Hsa Hfa]].
  destruct (reset_node_list cl (Device.values d attributes) s) as [la s1].
  cbn [fst snd] in *.
  destruct d as [p n cf va vt ns cv cs]. cbn in *.
  destruct (reset_node_list_spec vt s1) as [Ht [Hst Hft]].
  destruct (reset_node_list cl vt s1) as [lt s2]. cbn [fst snd] in *.
  split; [split; assumption |]. split; [reflexivity |].
  split; [congruence |].
  intros [Hta Htt]. cbn in *.
  specialize (Hfa Hta). injection Hfa as -> ->.
  specialize (Hft Htt). injection Hft as -> ->. reflexivity.
Qed.

Lemma reset_devices_spec (device_name : option string) (l : list Device.t)
  (s : Session) :
  Forall2 (reset_rel (targeted device_name)) l
    (fst (reset_devices cl device_name l s))
  /\ __subscription (snd (reset_devices cl device_name l s)) = __subscription s
  /\ (Forall (fun d => targeted device_name d -> torn_down d) l ->
      reset_devices cl device_name l s = (l, s)).
Proof.
  revert s. induction l as [| d l IH]; intros s; cbn [reset_devices].
  - repeat split. constructor.
  - destruct (reset_device_spec d s) as [H1 [H2 [H3 H4]]].
    set (step := match device_name with
                 | Some n =>
                     if String.eqb (Device.name d) n
                     then reset_device cl d s else (d, s)
                 | None => reset_device cl d s
                 end).
    assert (Hstep : reset_rel (targeted device_name) d (fst step)
                    /\ __subscription (snd step) = __subscription s
                    /\ ((targeted device_name d -> torn_down d) ->
                        step = (d, s))).
    { assert (Hreset : reset_rel (targeted device_name) d
                         (fst (reset_device cl d s))).
      { unfold reset_rel. split; [exact H2 |]. split; [now right |].
        split; [intros Ht; now rewrite (H4 Ht) |]. intros _. exact H1. }
      subst step. destruct device_name as [n |]; cbn [targeted].
      - destruct (String.eqb (Device.name d) n) eqn:E.
        + split; [exact Hreset |]. split; [exact H3 |].
          intros Ht. apply H4, Ht. now apply String.eqb_eq.
        + split; [| split; reflexivity].
          unfold reset_rel. cbn [fst targeted]. split; [reflexivity |].
          split; [now left |]. split; [reflexivity |].
          intros Hn. apply String.eqb_neq in E. now elim E.
      - split; [exact Hreset |]. split; [exact H3 |]. intros Ht. now apply H4, Ht. }
    destruct step as [d' s']. destruct Hstep as [Hr [Hs Hf]].
    destruct (IH s') as [H5 [H6 H7]].
    destruct (reset_devices cl device_name l s') as [l' s''].
    cbn [fst snd] in *. split; [now constructor |].
    split; [congruence |].
    intros Hall. inversion Hall as [| ? ? Hd Hl]; subst.
    specialize (Hf Hd). injection Hf as -> ->.
    specialize (H7 Hl). injection H7 as -> ->. reflexivity.
Qed.

Lemma reset_nodes_named (n : string) (c : Connector) :
  Forall2 (reset_rel (targeted (Some n))) (__device_nodes c)
    (__device_nodes (__reset_nodes cl (Some n) c))
  /\ __subscription (session (__reset_nodes cl (Some n) c)) =
       __subscription (session c)
  /\ (Forall (fun d => Device.name d = n -> torn_down d) (__device_nodes c) ->
      __reset_nodes cl (Some n) c = c).
Proof.
  unfold __reset_nodes.
  destruct (reset_devices_spec (Some n) (__device_nodes c) (session c))
    as [H1 [H2 H3]].
  destruct (reset_devices cl (Some n) (__device_nodes c) (session c))
    as [devs s]. cbn [fst snd __device_nodes session] in *.
  split; [exact H1 |]. split; [exact H2 |].
  intros Hall. specialize (H3 Hall). injection H3 as -> ->. now destruct c.
Qed.

Lemma Forall2_compose {A} (P Q R : A -> A -> Prop) (l1 l2 l3 : list A) :
  (forall a b c, P a b -> Q b c -> R a c) ->
  Forall2 P l1 l2 -> Forall2 Q l2 l3 -> Forall2 R l1 l3.
Proof.
  intros H H12. revert l3. induction H12 as [| a b l1 l2 Hab _ IH];
    intros l3 H23; inversion H23; subst; constructor; eauto.
Qed.

Lemma Forall2_refl_on {A} (R : A -> A -> Prop) (l : list A) :
  (forall a, R a a) -> Forall2 R l l.
Proof. intros H. induction l; constructor; auto. Qed.

(** The second loop of [_create_new_devices]: every device known before
    the scan and absent from it is torn down, the others are untouched
    unless they share a name with one, nothing leaves the list, the
    subscription reference is not touched, and the loop changes nothing
    when the absent devices are torn down already. *)
Lemma reset_absent_spec (sc : list string) :
  forall (ex : list string) (c : Connector),
  Forall2 (reset_rel (absent ex sc)) (__device_nodes c)
    (__device_nodes (reset_absent cl ex sc c))
  /\ __subscription (session (reset_absent cl ex sc c)) =
       __subscription (session c)
  /\ (Forall (fun d => absent ex sc d -> torn_down d) (__device_nodes c) ->
      reset_absent cl ex sc c = c).
Proof.
  induction ex as [| n ex IH]; intros c; cbn [reset_absent].
  - split; [| split; [reflexivity | reflexivity]].
    apply Forall2_refl_on. intros d. unfold reset_rel, absent.
    split; [reflexivity |]. split; [now left |]. split; [reflexivity |].
    intros [[] _].
  - unfold mem.
    destruct (existsb (String.eqb n) sc) eqn:Hmem.
    + destruct (IH c) as [H1 [H2 H3]]. split; [| split; [exact H2 |]].
      * eapply Forall2_impl; [| exact H1].
        intros d d' [Ha [Hb [Hc Hd]]]. unfold reset_rel.
        split; [exact Ha |]. split; [exact Hb |]. split; [exact Hc |].
        intros [[Hn | Hin] Hs]; [| apply Hd; now split].
        subst n. congruence.
      * intros Hall. apply H3. eapply Forall_impl; [| exact Hall].
        intros d Hd [Hin Hs]. apply Hd. split; [now right | exact Hs].
    + destruct (reset_nodes_named n c) as [H1 [H2 H3]].
      destruct (IH (__reset_nodes cl (Some n) c)) as [H4 [H5 H6]].
      split; [| split; [congruence |]].
      * eapply Forall2_compose; [| exact H1 | exact H4].
        intros d d1 d2 [Ha [Hb [Hc Hd]]] [Ha' [Hb' [Hc' Hd']]].
        unfold reset_rel. split; [congruence |].
        split.
        { destruct Hb' as [-> | Ht]; [| now right].
          destruct Hb as [-> | Ht]; [now left | now right]. }
        split.
        { intros Ht. pose proof (Hc Ht) as E. subst d1. now apply Hc'. }
        intros [[Hn | Hin] Hs].
        { cbn [targeted] in Hd. specialize (Hd (eq_sym Hn)).
          now rewrite (Hc' Hd). }
        apply Hd'. split; [now rewrite Ha | now rewrite Ha].
      * intros Hall.
        assert (Hc : __reset_nodes cl (Some n) c = c).
        { apply H3. eapply Forall_impl; [| exact Hall].
          intros d Hd Hn. apply Hd. split; [now left |].
          now rewrite Hn. }
        rewrite Hc in *. apply H6. eapply Forall_impl; [| exact Hall].
        intros d Hd [Hin Hs]. apply Hd. split; [now right | exact Hs].
Qed.

End TeardownFacts.

(** *** Resetting every device *)

Section ResetAll.

Variable cl : Client.

Lemma quiet_refl (s : Session) : quiet s s.
Proof. split; [apply session_step_refl | reflexivity]. Qed.

Lemma quiet_trans (s1 s2 s3 : Session) :
  quiet s1 s2 -> quiet s2 s3 -> quiet s1 s3.
Proof.
  intros [H1 E1] [H2 E2]. split; [eapply session_step_trans; eauto |].
  intros Hn. specialize (E1 Hn). subst s2. auto.
Qed.

Lemma reset_node_quiet (nd : Node.t) (s : Session) :
  quiet s (snd (__reset_node cl nd s)).
Proof.
  split; [apply (reset_node_step cl false nd s) |].
  intros Hn. unfold __reset_node. cbn [Node.set_valid Node.sub_on].
  destruct (get_default false (Node.sub_on nd)); [| reflexivity].
  now rewrite Hn.
Qed.

Lemma reset_node_list_quiet (l : list Node.t) :
  forall s, quiet s (snd (reset_node_list cl l s)).
Proof.
  induction l as [| nd l IH]; intros s; cbn [reset_node_list];
    [apply quiet_refl |].
  pose proof (reset_node_quiet nd s) as H1.
  destruct (__reset_node cl nd s) as [nd' s'].
  pose proof (IH s') as H2.
  destruct (reset_node_list cl l s') as [l' s'']. cbn [fst snd] in *.
  eapply quiet_trans; eauto.
Qed.

Lemma reset_device_quiet (d : Device.t) (s : Session) :
  quiet s (snd (reset_device cl d s)).
Proof.
  unfold reset_device.
  pose proof (reset_node_list_quiet (Device.values d attributes) s) as H1.
  destruct (reset_node_list cl (Device.values d attributes) s) as [la s1].
  match goal with
  | |- context [reset_node_list cl ?l s1] =>
      pose proof (reset_node_list_quiet l s1) as H2;
      destruct (reset_node_list cl l s1) as [lt s2]
  end.
  cbn [fst snd] in *. eapply quiet_trans; eauto.
Qed.

Lemma reset_devices_quiet (device_name : option string) (l : list Device.t) :
  forall s, quiet s (snd (reset_devices cl device_name l s)).
Proof.
  induction l as [| d l IH]; intros s; cbn [reset_devices];
    [apply quiet_refl |].
  assert (H1 : quiet s
                 (snd match device_name with
                      | Some n =>
                          if String.eqb (Device.name d) n
                          then reset_device cl d s else (d, s)
                      | None => reset_device cl d s
                      end)).
  { destruct device_name as [n |]; [| apply reset_device_quiet].
    destruct (String.eqb (Device.name d) n);
      [apply reset_device_quiet | apply quiet_refl]. }
  destruct (match device_name with
            | Some n => _
            | None => _
            end) as [d' s'].
  pose proof (IH s') as H2.
  destruct (reset_devices cl device_name l s') as [l' s'']. cbn [fst snd] in *.
  eapply quiet_trans; eauto.
Qed.

(** X11: [__reset_nodes()] without a device name leaves every binding of
    every device invalid and unsubscribed, keeps the devices and their
    names, and leaves the connector without subscription object.  The
    client calls it adds are [unsubscribe] calls followed, when there was
    a subscription object, by one final [delete]; without a subscription
    object it makes no call at all and leaves the connector's other state
    as it was.  A second reset changes nothing. *)
Theorem reset_nodes_all (c : Connector) :
  let c' := __reset_nodes cl None c in
  Forall torn_down (__device_nodes c')
  /\ map Device.name (__device_nodes c') = map Device.name (__device_nodes c)
  /\ __subscription (session c') = None
  /\ (exists unsubs,
        forallb is_unsubscribe unsubs = true
        /\ calls (session c')
           = calls (session c) ++ unsubs
             ++ match __subscription (session c) with
                | Some _ => [DeleteSubscription]
                | None => []
                end)
  /\ (__subscription (session c) = None -> session c' = session c)
  /\ __reset_nodes cl None c' = c'.
Proof.
  unfold __reset_nodes.
  destruct (reset_devices_spec cl None (__device_nodes c) (session c))
    as [Hrel [Hsub _]].
  destruct (reset_devices_quiet None (__device_nodes c) (session c))
    as [[[extra [Hcalls Hextra]] _] Hnone].
  destruct (reset_devices cl None (__device_nodes c) (session c))
    as [devs s] eqn:Hrun.
  cbn [fst snd] in *.
  assert (Htorn : Forall torn_down devs).
  { clear - Hrel. induction Hrel as [| d d' l l' [_ [_ [_ H]]] _ IH];
      constructor; [exact (H I) | exact IH]. }
  assert (Hnames : map Device.name devs = map Device.name (__device_nodes c)).
  { clear - Hrel. induction Hrel as [| d d' l l' [H _] _ IH];
      [reflexivity | cbn; now rewrite H, IH]. }
  assert (Hfix : forall s0, reset_devices cl None devs s0 = (devs, s0)).
  { intros s0.
    apply (proj2 (proj2 (reset_devices_spec cl None devs s0))).
    eapply Forall_impl; [| exact Htorn]. auto. }
  specialize (Hextra eq_refl).
  destruct (__subscription s) as [sub |] eqn:Hs;
    cbn [__device_nodes session __subscription set_subscription add_call
           calls];
    rewrite Hfix; cbn [__subscription]; rewrite ?Hs;
    (split; [exact Htorn |]); (split; [exact Hnames |]);
    (split; [reflexivity || exact Hs |]).
  - split; [| split; [| reflexivity]].
    + exists extra. split; [exact Hextra |].
      rewrite <- Hsub. cbn. now rewrite Hcalls, app_assoc.
    + intros Hn. rewrite Hn in Hsub. discriminate.
  - split; [| split; [| reflexivity]].
    + exists extra. split; [exact Hextra |].
      rewrite <- Hsub. now rewrite app_nil_r.
    + exact Hnone.
Qed.

End ResetAll.


(** ** Device discovery *)

Section ScanFacts.

Variable cl : Client.
Variable env : Env.
Variable cfg : Config.

Lemma extends_refl (c : Connector) : extends c c [].
Proof. split; [now rewrite app_nil_r | split; reflexivity]. Qed.

Lemma extends_trans (c1 c2 c3 : Connector) (n1 n2 : list Device.t) :
  extends c1 c2 n1 -> extends c2 c3 n2 -> extends c1 c3 (n1 ++ n2).
Proof.
  intros [H1 [H2 H2']] [H3 [H4 H4']]. split; [| split; congruence].
  now rewrite H3, H1, app_assoc.
Qed.

Lemma log_to_run (l : level) (msg : string) (c : Connector) :
  log_to l msg c =
  (Ok tt, Build_Connector (__device_nodes c) (add_log l msg (session c))).
Proof. reflexivity. Qed.

Lemma log_all_run (logs : list (level * string)) (c : Connector) :
  exists c', log_all logs c = (Ok tt, c') /\ extends c c' [].
Proof.
  revert c. induction logs as [| [l msg] logs IH]; intros c.
  - exists c. split; [reflexivity | apply extends_refl].
  - unfold log_all. cbn [for_each]. unfold mbind at 1.
    cbn [fst snd]. rewrite log_to_run.
    destruct (IH (Build_Connector (__device_nodes c)
                    (add_log l msg (session c)))) as [c' [Hr He]].
    exists c'. split; [exact Hr |].
    destruct He as [H1 H2]. split; [exact H1 | exact H2].
Qed.

Lemma add_device_spec (device : Template) (n : string) (nd : list string)
  (c c' : Connector) (r : result unit) :
  add_device cl env cfg device n nd c = (r, c') ->
  exists new,
    extends c c' new
    /\ Forall (fun d => Device.name d = n) new
    /\ (r = Ok tt -> length new = 1).
Proof.
  unfold add_device, __load_converter, mbind, mret, lift, mmodify, mraise.
  destruct (import_module env _).
  - destruct (_get_device_info_by_pattern cl _ true) as [[dtype logs] | e].
    + destruct (log_all_run logs c) as [c1 [Hl [He1 He2]]]. rewrite Hl.
      destruct (load_values env _ nd) as [va vt].
      rewrite log_to_run. intros H. injection H as <- <-.
      eexists. split; [split; [| split] |]; cbn [__device_nodes session].
      * rewrite He1, app_nil_r. reflexivity.
      * exact (proj1 He2).
      * exact (proj2 He2).
      * split; [repeat constructor | reflexivity].
    + intros H. injection H as <- <-. exists [].
      split; [apply extends_refl |].
      split; [apply Forall_nil | discriminate].
  - rewrite log_to_run.
    destruct (_get_device_info_by_pattern cl _ true) as [[dtype logs] | e].
    + destruct (log_all_run logs
                  (Build_Connector (__device_nodes c)
                     (add_log ERROR "Cannot find converter for %s device"
                        (session c)))) as [c1 [Hl [He1 He2]]].
      rewrite Hl. intros H. injection H as <- <-. exists [].
      split; [split; [exact He1 | exact He2] |].
      split; [apply Forall_nil | discriminate].
    + intros H. injection H as <- <-. exists [].
      split; [split; cbn; [now rewrite app_nil_r | split; reflexivity] |].
      split; [apply Forall_nil | discriminate].
Qed.

Lemma add_devices_spec (device : Template) (n : string) :
  forall (nodes : list (list string)) (c c' : Connector) (r : result unit),
  for_each (add_device cl env cfg device n) nodes c = (r, c') ->
  exists new,
    extends c c' new
    /\ Forall (fun d => Device.name d = n) new
    /\ (r = Ok tt -> length new = length nodes).
Proof.
  induction nodes as [| nd nodes IH]; intros c c' r; cbn [for_each].
  - intros H. injection H as <- <-. exists [].
    split; [apply extends_refl |]. split; [apply Forall_nil | reflexivity].
  - unfold mbind.
    destruct (add_device cl env cfg device n nd c) as [[[] | e] c1] eqn:Ha;
      apply add_device_spec in Ha; destruct Ha as [n1 [He1 [Hf1 Hl1]]].
    + intros H. apply IH in H. destruct H as [n2 [He2 [Hf2 Hl2]]].
      exists (n1 ++ n2). split; [eapply extends_trans; eassumption |].
      split; [now apply Forall_app |].
      intros Hr. rewrite length_app, (Hl1 eq_refl), (Hl2 Hr). reflexivity.
    + intros H. injection H as <- <-. exists n1.
      split; [exact He1 |]. split; [exact Hf1 | discriminate].
Qed.

Lemma names_loop_spec (ex : list string) (device : Template)
  (nodes : list (list string)) :
  forall (names : list string) (c c' : Connector) (r : result unit),
  names_loop cl env cfg ex device nodes names c = (r, c') ->
  exists new,
    extends c c' new
    /\ (r = Ok tt ->
        forall n, In n names ->
          mem n ex = true \/ nodes = [] \/ In n (map Device.name new)).
Proof.
  unfold names_loop.
  induction names as [| n names IH]; intros c c' r; cbn [for_each].
  - intros H. injection H as <- <-. exists [].
    split; [apply extends_refl |]. intros _ n [].
  - unfold mbind at 1. destruct (mem n ex) eqn:Hmem.
    + unfold mret at 1. intros H. apply IH in H.
      destruct H as [new [He Hn]]. exists new. split; [exact He |].
      intros Hr m [<- | Hin]; [now left | now apply Hn].
    + destruct (for_each (add_device cl env cfg device n) nodes c)
        as [[[] | e] c1] eqn:Ha;
        apply add_devices_spec in Ha; destruct Ha as [n1 [He1 [Hf1 Hl1]]].
      * intros H. apply IH in H. destruct H as [n2 [He2 Hn2]].
        exists (n1 ++ n2). split; [eapply extends_trans; eassumption |].
        intros Hr m [<- | Hin].
        -- right. destruct nodes as [| nd nodes']; [now left | right].
           specialize (Hl1 eq_refl). destruct n1 as [| d n1]; [discriminate |].
           inversion Hf1; subst. cbn. now left.
        -- destruct (Hn2 Hr m Hin) as [H | [H | H]]; auto.
           right. right. rewrite map_app. apply in_or_app. now right.
      * intros H. injection H as <- <-. exists n1.
        split; [exact He1 | discriminate].
Qed.

Lemma names_loop_covered (ex : list string) (device : Template)
  (nodes : list (list string)) :
  forall (names : list string) (c : Connector),
  (forall n, In n names -> mem n ex = true \/ nodes = []) ->
  names_loop cl env cfg ex device nodes names c = (Ok tt, c).
Proof.
  unfold names_loop.
  induction names as [| n names IH]; intros c Hall; cbn [for_each].
  - reflexivity.
  - unfold mbind at 1.
    destruct (Hall n (or_introl eq_refl)) as [Hm | ->].
    + rewrite Hm. unfold mret at 1. apply IH. intros m Hin. apply Hall.
      now right.
    + destruct (mem n ex); cbn [for_each]; unfold mret at 1; apply IH;
        intros m Hin; apply Hall; now right.
Qed.

Lemma scan_template_unfold (ex : list string) (device : Template)
  (sc : list string) (c : Connector) :
  scan_template cl env cfg ex device sc c =
  match find_nodes cl (deviceNodePattern device) None [] with
  | Raise e => (Raise e, c)
  | Ok nodes =>
      match _get_device_info_by_pattern cl (deviceNameExpression device)
              false with
      | Raise e => (Raise e, c)
      | Ok (names, logs) =>
          match log_all logs c with
          | (Raise e, c1) => (Raise e, c1)
          | (Ok _, c1) =>
              match names_loop cl env cfg ex device nodes (iter_info names) c1 with
              | (Raise e, c2) => (Raise e, c2)
              | (Ok _, c2) => (Ok (sc ++ iter_info names), c2)
              end
          end
      end
  end.
Proof.
  unfold scan_template, mbind, lift, mret.
  destruct (find_nodes cl _ None []) as [nodes | e]; [| reflexivity].
  destruct (_get_device_info_by_pattern cl _ false) as [[names logs] | e];
    reflexivity.
Qed.


Lemma scan_template_spec (ex : list string) (device : Template)
  (sc : list string) (c c' : Connector) (r : result (list string)) :
  scan_template cl env cfg ex device sc c = (r, c') ->
  exists new,
    extends c c' new
    /\ forall sc', r = Ok sc' ->
         exists nodes names logs,
           find_nodes cl (deviceNodePattern device) None [] = Ok nodes
           /\ _get_device_info_by_pattern cl (deviceNameExpression device)
                false = Ok (names, logs)
           /\ sc' = sc ++ iter_info names
           /\ forall n, In n (iter_info names) ->
                mem n ex = true \/ nodes = []
                \/ In n (map Device.name new).
Proof.
  rewrite scan_template_unfold.
  destruct (find_nodes cl _ None []) as [nodes | e].
  2: { intros H. injection H as <- <-. exists [].
       split; [apply extends_refl | discriminate]. }
  destruct (_get_device_info_by_pattern cl _ false) as [[names logs] | e].
  2: { intros H. injection H as <- <-. exists [].
       split; [apply extends_refl | discriminate]. }
  destruct (log_all_run logs c) as [c1 [Hl He1]]. rewrite Hl.
  destruct (names_loop cl env cfg ex device nodes (iter_info names) c1)
    as [[[] | e] c2] eqn:Hn;
    apply names_loop_spec in Hn; destruct Hn as [new [He2 Hin]];
    intros H; injection H as <- <-; exists new;
    (split; [exact (extends_trans _ _ _ _ _ He1 He2) |]).
  - intros sc' Hsc. injection Hsc as <-. exists nodes, names, logs.
    repeat split. exact (Hin eq_refl).
  - discriminate.
Qed.

Lemma scan_template_covered (ex : list string) (device : Template)
  (sc : list string) (c : Connector) :
  covered cl ex device ->
  exists sc' c',
    scan_template cl env cfg ex device sc c = (Ok sc', c')
    /\ extends c c' [].
Proof.
  intros [nodes [names [logs [Hf [Hi Hall]]]]].
  rewrite scan_template_unfold, Hf, Hi.
  destruct (log_all_run logs c) as [c1 [Hl He1]]. rewrite Hl.
  rewrite (names_loop_covered ex device nodes (iter_info names) c1 Hall).
  eexists. eexists. split; [reflexivity | exact He1].
Qed.

Lemma scan_templates_spec (ex : list string) :
  forall (templates : list Template) (sc : list string) (c c' : Connector)
         (r : result (list string)),
  scan_templates cl env cfg ex templates sc c = (r, c') ->
  exists new,
    extends c c' new
    /\ forall sc', r = Ok sc' ->
         forall ex',
           (forall n, mem n ex = true -> mem n ex' = true) ->
           (forall d, In d new -> mem (Device.name d) ex' = true) ->
           Forall (covered cl ex') templates.
Proof.
  induction templates as [| device templates IH]; intros sc c c' r;
    cbn [scan_templates].
  - intros H. injection H as <- <-. exists [].
    split; [apply extends_refl |]. intros. constructor.
  - unfold mbind.
    destruct (scan_template cl env cfg ex device sc c) as [[sc1 | e] c1] eqn:Ht;
      apply scan_template_spec in Ht; destruct Ht as [n1 [He1 Hc1]].
    + intros H. apply IH in H. destruct H as [n2 [He2 Hc2]].
      exists (n1 ++ n2). split; [eapply extends_trans; eassumption |].
      intros sc' Hr ex' Hsub Hnew. constructor.
      * destruct (Hc1 sc1 eq_refl) as [nodes [names [logs [Hf [Hi [_ Hn]]]]]].
        exists nodes, names, logs. split; [exact Hf |]. split; [exact Hi |].
        intros n Hin. destruct (Hn n Hin) as [H | [H | H]].
        -- left. now apply Hsub.
        -- now right.
        -- left. apply in_map_iff in H. destruct H as [d [<- Hd]].
           apply Hnew. apply in_or_app. now left.
      * apply (Hc2 sc' Hr ex' Hsub). intros d Hd. apply Hnew.
        apply in_or_app. now right.
    + intros H. injection H as <- <-. exists n1.
      split; [exact He1 | discriminate].
Qed.

Lemma scan_templates_covered (ex : list string) :
  forall (templates : list Template) (sc : list string) (c : Connector),
  Forall (covered cl ex) templates ->
  exists sc' c',
    scan_templates cl env cfg ex templates sc c = (Ok sc', c')
    /\ extends c c' [].
Proof.
  induction templates as [| device templates IH]; intros sc c Hall;
    cbn [scan_templates].
  - exists sc, c. split; [reflexivity | apply extends_refl].
  - inversion Hall as [| ? ? Hd Ht]; subst.
    destruct (scan_template_covered ex device sc c Hd) as [sc1 [c1 [Hr He1]]].
    unfold mbind. rewrite Hr.
    destruct (IH sc1 c1 Ht) as [sc2 [c2 [Hr2 He2]]].
    exists sc2, c2. split; [exact Hr2 |].
    exact (extends_trans _ _ _ _ _ He1 He2).
Qed.

Lemma mem_in (n : string) (l : list string) : mem n l = true <-> In n l.
Proof.
  unfold mem. rewrite existsb_exists. split.
  - intros [x [Hin Heq]]. apply String.eqb_eq in Heq. now subst.
  - intros Hin. exists n. split; [exact Hin | apply String.eqb_refl].
Qed.

Lemma reset_absent_names (ex sc : list string) (c : Connector) :
  registry_names (reset_absent cl ex sc c) = registry_names c.
Proof.
  destruct (reset_absent_spec cl sc ex c) as [H _].
  unfold registry_names. induction H as [| d d' l l' [Hn _] _ IH]; cbn;
    [reflexivity | now rewrite Hn, IH].
Qed.

Lemma Forall2_right {A} (R : A -> A -> Prop) (Q : A -> Prop) (l l' : list A) :
  (forall a b, R a b -> Q b) -> Forall2 R l l' -> Forall Q l'.
Proof. intros H. induction 1; constructor; eauto. Qed.

(** X13: scanning again changes nothing in the device list.  After a
    scan that returns, and whatever a binding cycle or anything else that
    keeps the names in the device list does in between, a second scan
    over the same address space returns normally with the same names in
    the device list: no entry is added and none is removed. *)
Theorem create_new_devices_rescan (c c1 c1' : Connector) :
  _create_new_devices cl env cfg c = (Ok tt, c1) ->
  registry_names c1' = registry_names c1 ->
  exists c2,
    _create_new_devices cl env cfg c1' = (Ok tt, c2)
    /\ registry_names c2 = registry_names c1'.
Proof.
  unfold _create_new_devices at 1.
  change (map Device.name (__device_nodes c)) with (registry_names c).
  destruct (scan_templates cl env cfg (registry_names c) (mapping cfg) [] c)
    as [[sc | e] cA] eqn:Hscan; [| discriminate].
  intros H Hnames. injection H as <-.
  apply scan_templates_spec in Hscan. destruct Hscan as [new [[Hd _] Hcov]].
  rewrite reset_absent_names in Hnames.
  assert (HA : registry_names cA = registry_names c ++ map Device.name new).
  { unfold registry_names. now rewrite Hd, map_app. }
  assert (Hall : Forall (covered cl (registry_names c1')) (mapping cfg)).
  { apply (Hcov sc eq_refl).
    - intros n Hn. apply mem_in. apply mem_in in Hn.
      rewrite Hnames, HA. apply in_or_app. now left.
    - intros d Hin. apply mem_in. rewrite Hnames, HA. apply in_or_app.
      right. now apply in_map. }
  destruct (scan_templates_covered (registry_names c1') (mapping cfg) [] c1'
              Hall) as [sc2 [c2A [Hr [He _]]]].
  unfold _create_new_devices.
  change (map Device.name (__device_nodes c1')) with (registry_names c1').
  rewrite Hr. eexists. split; [reflexivity |].
  rewrite reset_absent_names. unfold registry_names.
  now rewrite He, app_nil_r.
Qed.

End ScanFacts.

Lemma create_new_devices_rescan_witness :
  let cl := Demo.client Demo.rooms [] [] in
  let c1 := snd (_create_new_devices cl Demo.env Demo.push_config
                   (Build_Connector [] Demo.idle)) in
  let c1' := snd (_load_devices_nodes cl Demo.push_config c1) in
  registry_names c1 = ["Dev A"]
  /\ exists c2,
       _create_new_devices cl Demo.env Demo.push_config c1' = (Ok tt, c2)
       /\ registry_names c2 = registry_names c1'.
Proof.
  split; [vm_compute; reflexivity |].
  set (cl := Demo.client Demo.rooms [] []).
  set (c1 := snd (_create_new_devices cl Demo.env Demo.push_config
                    (Build_Connector [] Demo.idle))).
  assert (H1 : _create_new_devices cl Demo.env Demo.push_config
                 (Build_Connector [] Demo.idle) = (Ok tt, c1))
    by (vm_compute; reflexivity).
  assert (H2 : registry_names
                 (snd (_load_devices_nodes cl Demo.push_config c1)) =
               registry_names c1)
    by (vm_compute; reflexivity).
  exact (create_new_devices_rescan cl Demo.env Demo.push_config
           (Build_Connector [] Demo.idle) c1
           (snd (_load_devices_nodes cl Demo.push_config c1)) H1 H2).
Defined.

(** C3 fails on the code.  One scan of an address space in which the
    device pattern has two instances, each with a name of its own, creates
    four devices: every name is given to a device at every instance path,
    so that each name occurs twice, once on the path of the other
    instance. *)
Lemma create_new_devices_duplicate_names :
  let out := _create_new_devices (Demo.client Demo.twins [] []) Demo.env
               Demo.named_twins_config (Build_Connector [] Demo.idle) in
  find_nodes (Demo.client Demo.twins [] []) "Root\.Room" None [] =
    Ok [["2:Room"]; ["3:Room"]]
  /\ fst out = Ok tt
  /\ map (fun d => (Device.name d, Device.path d)) (__device_nodes (snd out))
     = [("Dev 21", ["2:Room"]); ("Dev 21", ["3:Room"]);
        ("Dev 23", ["2:Room"]); ("Dev 23", ["3:Room"])]
  /\ ~ NoDup (registry_names (snd out)).
Proof.
  cbv zeta. split; [vm_compute; reflexivity |].
  split; [vm_compute; reflexivity |]. split; [vm_compute; reflexivity |].
  intros H.
  change (NoDup ["Dev 21"; "Dev 21"; "Dev 23"; "Dev 23"]) in H.
  inversion H as [| ? ? Hin _]; subst. apply Hin. now left.
Qed.

(** *** Tearing down the devices a scan no longer finds *)






Section TeardownCalls.

Variable cl : Client.











End TeardownCalls.



Section ScanNames.

Variable cl : Client.
Variable env : Env.
Variable cfg : Config.



End ScanNames.

Section TeardownOnce.

Variable cl : Client.
Variable env : Env.
Variable cfg : Config.


End TeardownOnce.



(** ** Commands *)

(** C8, as the code has it: for a [set] request whose parameters contain
    [ns] and split at semicolons into exactly three segments, the first
    two of which, joined, name a node, the handler issues exactly one
    write call, of the text after the last [=] of the third segment, and
    sends exactly one reply, which maps the method name to the result
    dictionary, empty when the write returned and holding the text of the
    exception under [error] when the write raised, and carries no
    code. *)
Theorem set_rpc_writes_once (cl : Client) (cfg : Config) (c : Connector)
  (dev p a0 a1 a2 : string) (id : option nat) (var : node) :
  dev <> EmptyString ->
  Py.split ";" p = [a0; a1; a2] ->
  Py.contains "ns" p = true ->
  get_node cl (Py.replace "\." "." (a0 ++ ";" ++ a1)) = Ok var ->
  let content :=
    Build_Content (Some dev) (Some (Build_RpcData (PStr p) (Some "set") id))
      None None None in
  let out := server_side_rpc_handler cl cfg content c in
  fst out = Ok None
  /\ calls (session (snd out)) =
       calls (session c)
       ++ [WriteValue var (Py.last_item (Py.split "=" a2))]
  /\ exists r,
       replies (session (snd out)) =
         replies (session c) ++ [Build_Reply dev id [("set", VResult r)]]
       /\ r = match write_value cl var (Py.last_item (Py.split "=" a2)) with
              | Ok _ => REmpty
              | Raise e => RError (exn_str e)
              end
       /\ dict_get "code" [("set", VResult r)] = None.
Proof.
  intros Hdev Hsplit Hns Hnode content out. subst out content.
  unfold server_side_rpc_handler, try_except, mbind, lift, mret.
  cbn [content_data data_method connector_rpc].
  change (Py.split "_" "set") with ["set"].
  unfold mbind, log_to, on_session, mmodify, mret. cbn [fst snd content_device].
  destruct dev as [| ch dev']; [now elim Hdev |].
  cbn [is_truthy str_opt String.eqb Ascii.eqb Bool.eqb orb].
  unfold get_set_rpc, mbind, lift. cbn [data_params params_split].
  rewrite Hsplit, Hns.
  change (String.eqb "set" "set") with true.
  change (String.eqb "set" "get") with false.
  cbn [nth_item nth_error].
  change (Py.slice_to [a0; a1; a2] (-1)) with [a0; a1].
  change (Py.join ";" [a0; a1]) with (a0 ++ ";" ++ a1)%string.
  unfold __write_value. rewrite Hnode.
  cbn [data_method key_of data_id].
  destruct (write_value cl var (Py.last_item (Py.split "=" a2))) as [[] | e];
    unfold send_rpc_reply, on_session, mmodify;
    cbn [fst snd session calls replies add_reply add_call add_log];
    (split; [reflexivity |]); (split; [reflexivity |]);
    eexists; (split; [reflexivity |]); split; reflexivity.
Qed.

Lemma set_rpc_writes_once_witness :
  let out := server_side_rpc_handler (Demo.client Demo.rooms [] [])
               Demo.push_config
               (Demo.request "set" (PStr "ns=2;s=Temperature;value=5"))
               Demo.scanned_once in
  fst out = Ok None
  /\ calls (session (snd out)) =
       calls (session Demo.scanned_once) ++ [WriteValue 5 "5"]
  /\ exists r,
       replies (session (snd out)) =
         replies (session Demo.scanned_once)
         ++ [Build_Reply "Dev A" (Some 7) [("set", VResult r)]]
       /\ r = REmpty
       /\ dict_get "code" [("set", VResult r)] = None.
Proof.
  apply (set_rpc_writes_once (Demo.client Demo.rooms [] []) Demo.push_config
           Demo.scanned_once "Dev A" "ns=2;s=Temperature;value=5"
           "ns=2" "s=Temperature" "value=5" (Some 7) 5).
  - discriminate.
  - reflexivity.
  - reflexivity.
  - reflexivity.
Defined.

(** C8 as stated fails: the value written is [5], not the last argument
    segment [value=5], and the one reply sent carries no code 200. *)
Lemma set_rpc_reply_counterexample :
  let out := server_side_rpc_handler (Demo.client Demo.rooms [] [])
               Demo.push_config
               (Demo.request "set" (PStr "ns=2;s=Temperature;value=5"))
               Demo.scanned_once in
  Py.last_item (Py.split ";" "ns=2;s=Temperature;value=5") = "value=5"
  /\ calls (session (snd out)) =
       calls (session Demo.scanned_once) ++ [WriteValue 5 "5"]
  /\ replies (session (snd out)) =
       [Build_Reply "Dev A" (Some 7) [("set", VResult REmpty)]]
  /\ map (fun r => dict_get "code" (reply_content r))
       (replies (session (snd out))) = [None]
  /\ ~ (exists r, replies (session (snd out)) = [r]
                  /\ dict_get "code" (reply_content r) = Some (VInt 200)).
Proof.
  cbv zeta. repeat split; try reflexivity.
  intros [r [Hr Hc]].
  change (replies (session (snd
            (server_side_rpc_handler (Demo.client Demo.rooms [] [])
               Demo.push_config
               (Demo.request "set" (PStr "ns=2;s=Temperature;value=5"))
               Demo.scanned_once))))
    with [Build_Reply "Dev A" (Some 7) [("set", VResult REmpty)]] in Hr.
  injection Hr as <-. discriminate.
Qed.

(** C7 fails on the code.  The loop over the method table replies once
    per entry: 404 for every entry that is not the requested method, 200
    for the one that is.  A request for the second of two methods gets
    two replies; a request for an unknown method gets one 404 per entry;
    and when the invocation raises, the reply still carries code 200, the
    error text sitting in the result. *)
Lemma device_rpc_replies_per_entry :
  let cl := Demo.client Demo.rooms [] [] in
  let run := fun cl m =>
    replies (session (snd (server_side_rpc_handler cl Demo.push_config
                             (Demo.request m PNone) Demo.scanned_once))) in
  rpc_methods (template (Device.config
     (hd (Device.mk [] "" (Build_DeviceConfig Demo.room1 "" (InfoAll []))
            [] [] [] "" None)
         (__device_nodes Demo.scanned_once)))) =
    Some [Build_RpcMethod "a" []; Build_RpcMethod "b" []]
  /\ run cl "b" =
       [ Build_Reply "Dev A" (Some 7)
           [("error", VStr "b - Method not found"); ("code", VInt 404)];
         Build_Reply "Dev A" (Some 7)
           [("b", VResult (RResult "2:b")); ("code", VInt 200)] ]
  /\ run cl "c" =
       [ Build_Reply "Dev A" (Some 7)
           [("error", VStr "c - Method not found"); ("code", VInt 404)];
         Build_Reply "Dev A" (Some 7)
           [("error", VStr "c - Method not found"); ("code", VInt 404)] ]
  /\ run Demo.unreachable "a" =
       [ Build_Reply "Dev A" (Some 7)
           [("a", VResult (RError "BadNoMatch")); ("code", VInt 200)];
         Build_Reply "Dev A" (Some 7)
           [("error", VStr "a - Method not found"); ("code", VInt 404)] ].
Proof. vm_compute. repeat split. Qed.

(** *** What handling a request leaves alone *)

Ltac rpc_frame :=
  split; [reflexivity |]; split; [reflexivity |]; split; [reflexivity |];
  split; [reflexivity |]; split; [| split].

Lemma rpc_step_refl (c : Connector) : rpc_step c c.
Proof.
  rpc_frame.
  - exists []. split; [now rewrite app_nil_r | reflexivity].
  - exists []. now rewrite app_nil_r.
  - exists []. now rewrite app_nil_r.
Qed.

Lemma rpc_step_trans (c1 c2 c3 : Connector) :
  rpc_step c1 c2 -> rpc_step c2 c3 -> rpc_step c1 c3.
Proof.
  intros [Hd1 [Hs1 [Ht1 [Hq1 [[e1 [Hc1 He1]] [[r1 Hr1] [l1 Hl1]]]]]]]
         [Hd2 [Hs2 [Ht2 [Hq2 [[e2 [Hc2 He2]] [[r2 Hr2] [l2 Hl2]]]]]]].
  repeat split; try congruence.
  - exists (e1 ++ e2). split; [now rewrite Hc2, Hc1, app_assoc |].
    now rewrite forallb_app, He1, He2.
  - exists (r1 ++ r2). now rewrite Hr2, Hr1, app_assoc.
  - exists (l1 ++ l2). now rewrite Hl2, Hl1, app_assoc.
Qed.

Lemma keeps_ret {A} (a : A) : keeps (mret a).
Proof. intros c. apply rpc_step_refl. Qed.

Lemma keeps_raise {A} (e : exn) : keeps (@mraise Connector A e).
Proof. intros c. apply rpc_step_refl. Qed.

Lemma keeps_lift {A} (r : result A) : keeps (lift r).
Proof. intros c. apply rpc_step_refl. Qed.

Lemma keeps_bind {A B} (m : M Connector A) (k : A -> M Connector B) :
  keeps m -> (forall a, keeps (k a)) -> keeps (mbind m k).
Proof.
  intros Hm Hk c. unfold mbind. specialize (Hm c).
  destruct (m c) as [[a | e] c1]; cbn [snd] in *; [| exact Hm].
  eapply rpc_step_trans; [exact Hm | apply Hk].
Qed.

Lemma keeps_get {B} (k : Connector -> M Connector B) :
  (forall c, keeps (k c)) -> keeps (mbind mget k).
Proof. intros Hk c. unfold mbind, mget. apply Hk. Qed.

Lemma keeps_try {A} (m : M Connector A) (h : exn -> M Connector A) :
  keeps m -> (forall e, keeps (h e)) -> keeps (try_except m h).
Proof.
  intros Hm Hh c. unfold try_except. specialize (Hm c).
  destruct (m c) as [[a | e] c1]; cbn [snd] in *; [exact Hm |].
  eapply rpc_step_trans; [exact Hm | apply Hh].
Qed.

Lemma keeps_for_each {A} (body : A -> M Connector unit) (l : list A) :
  (forall x, keeps (body x)) -> keeps (for_each body l).
Proof.
  intros Hb. induction l as [| x l IH]; cbn [for_each];
    [apply keeps_ret | apply keeps_bind; auto].
Qed.

Lemma keeps_log (l : level) (msg : string) : keeps (log_to l msg).
Proof.
  intros c. unfold log_to, on_session, mmodify. cbn. rpc_frame.
  - exists []. split; [now rewrite app_nil_r | reflexivity].
  - exists []. now rewrite app_nil_r.
  - eexists. reflexivity.
Qed.

Lemma keeps_reply (device : string) (req_id : option nat)
  (content : list (string * rvalue)) :
  keeps (send_rpc_reply device req_id content).
Proof.
  intros c. unfold send_rpc_reply, on_session, mmodify. cbn. rpc_frame.
  - exists []. split; [now rewrite app_nil_r | reflexivity].
  - eexists. reflexivity.
  - exists []. now rewrite app_nil_r.
Qed.

Lemma rpc_step_call (c : Connector) (k : call) :
  is_command k = true ->
  rpc_step c (Build_Connector (__device_nodes c) (add_call k (session c))).
Proof.
  intros Hk. rpc_frame.
  - exists [k]. split; [reflexivity | cbn; now rewrite Hk].
  - exists []. cbn. now rewrite app_nil_r.
  - exists []. cbn. now rewrite app_nil_r.
Qed.

Section RequestFacts.

Variable cl : Client.
Variable cfg : Config.

Lemma keeps_write (path value : string) : keeps (__write_value cl path value).
Proof.
  intros c. unfold __write_value.
  destruct (get_node cl _) as [var | e]; [| apply rpc_step_refl].
  destruct (write_value cl var value); now apply rpc_step_call.
Qed.

Lemma keeps_read (path : string) : keeps (__read_value cl path).
Proof.
  intros c. unfold __read_value.
  destruct (get_node cl _) as [var | e]; [| apply rpc_step_refl].
  destruct (read_value cl var); now apply rpc_step_call.
Qed.

Lemma keeps_call (path : list string) (m : string) (args : list string) :
  keeps (__call_method cl path m args).
Proof.
  intros c. unfold __call_method.
  destruct (get_child cl _) as [var | e]; [| apply rpc_step_refl].
  destruct (call_method cl var _ args); now apply rpc_step_call.
Qed.

Ltac keeps_step :=
  cbv beta zeta;
  lazymatch goal with
  | |- keeps (mret _) => apply keeps_ret
  | |- keeps (mraise _) => apply keeps_raise
  | |- keeps (lift _) => apply keeps_lift
  | |- keeps (log_to _ _) => apply keeps_log
  | |- keeps (send_rpc_reply _ _ _) => apply keeps_reply
  | |- keeps (__write_value _ _ _) => apply keeps_write
  | |- keeps (__read_value _ _) => apply keeps_read
  | |- keeps (__call_method _ _ _ _) => apply keeps_call
  | |- keeps (mbind mget _) => apply keeps_get; intros ?
  | |- keeps (for_each _ _) => apply keeps_for_each; intros ?
  | |- keeps (try_except _ _) => apply keeps_try; [| intros ?]
  | |- keeps (mbind _ _) => apply keeps_bind; [| intros ?]
  | |- keeps (match ?x with _ => _ end) => destruct x
  end.

Ltac keeps_tac := repeat keeps_step.

Lemma keeps_connector_rpc (content : Content) (m : option string) :
  keeps (connector_rpc cfg content m).
Proof. unfold connector_rpc. keeps_tac. Qed.

Lemma keeps_get_set (device : string) (data : RpcData) (m : string) :
  keeps (get_set_rpc cl device data m).
Proof. unfold get_set_rpc. keeps_tac. Qed.

Lemma keeps_device_rpc_entry (dev : string) (device : Device.t)
  (data : RpcData) (m : option string) (rpc : RpcMethod) :
  keeps (device_rpc_entry cl dev device data m rpc).
Proof. unfold device_rpc_entry. keeps_tac. Qed.

Lemma keeps_device_rpc (dev : string) (data : RpcData) (m : option string) :
  keeps (device_rpc cl dev data m).
Proof.
  unfold device_rpc. apply keeps_get. intros c.
  destruct (filter _ _); [apply keeps_raise |].
  apply keeps_bind; [apply keeps_lift | intros methods].
  apply keeps_for_each. intros rpc. apply keeps_device_rpc_entry.
Qed.

Lemma keeps_broadcast (data : RpcData) (m : option string) :
  forall (devices : list Device.t) (results : list rpc_result),
  keeps (broadcast_rpc cl devices data m results).
Proof.
  induction devices as [| d devices IH]; intros results;
    cbn [broadcast_rpc]; [apply keeps_ret |].
  apply keeps_bind; [apply keeps_lift | intros args].
  apply keeps_bind; [| intros r; apply IH].
  keeps_tac.
Qed.

(** X14: whatever the request, [server_side_rpc_handler] returns
    normally, every exception being caught and logged; it leaves the
    device list, the subscription, the stop flag and the queue of converted
    data as they were, and the only protocol calls it adds are reads,
    writes and method calls. *)
Theorem server_side_rpc_handler_contained (content : Content)
  (c : Connector) :
  (exists r, fst (server_side_rpc_handler cl cfg content c) = Ok r)
  /\ rpc_step c (snd (server_side_rpc_handler cl cfg content c)).
Proof.
  split.
  - unfold server_side_rpc_handler, try_except.
    match goal with
    | |- context [match ?m c with _ => _ end] => destruct (m c) as [[r | e] c1]
    end; [now exists r |].
    exists None. reflexivity.
  - revert c. change (keeps (server_side_rpc_handler cl cfg content)).
    unfold server_side_rpc_handler.
    apply keeps_try; [| intros e; keeps_tac].
    apply keeps_bind; [apply keeps_lift | intros data].
    apply keeps_bind; [apply keeps_connector_rpc | intros [content' m]].
    destruct (is_truthy (content_device content')).
    + destruct (match m with
                | Some m0 => String.eqb m0 "set" || String.eqb m0 "get"
                | None => false
                end).
      * apply keeps_bind; [apply keeps_get_set | intros; apply keeps_ret].
      * apply keeps_bind; [apply keeps_device_rpc | intros; apply keeps_ret].
    + apply keeps_get. intros c.
      apply keeps_bind; [apply keeps_broadcast | intros; apply keeps_ret].
Qed.

End RequestFacts.

(** *** Requests that are dropped, requests for every device *)

Section RequestEdges.

Variable cl : Client.
Variable cfg : Config.

(** X15: a [set] request with fewer than three segments between
    semicolons is dropped: [args_list[2]] raises [IndexError], which only
    the outermost handler catches, so that nothing is written and no reply
    is sent, not even the "Not enough arguments" one. *)
Theorem set_rpc_too_few_arguments (c : Connector) (dev p : string)
  (id : option nat) :
  dev <> EmptyString ->
  length (Py.split ";" p) < 3 ->
  let content :=
    Build_Content (Some dev) (Some (Build_RpcData (PStr p) (Some "set") id))
      None None None in
  let out := server_side_rpc_handler cl cfg content c in
  fst out = Ok None
  /\ calls (session (snd out)) = calls (session c)
  /\ replies (session (snd out)) = replies (session c)
  /\ __device_nodes (snd out) = __device_nodes c.
Proof.
  intros Hdev Hlen content out. subst out content.
  unfold server_side_rpc_handler, try_except, mbind, lift, mret.
  cbn [content_data data_method connector_rpc].
  change (Py.split "_" "set") with ["set"].
  unfold mbind, log_to, on_session, mmodify, mret. cbn [fst snd content_device].
  destruct dev as [| ch dev']; [now elim Hdev |].
  cbn [is_truthy str_opt String.eqb Ascii.eqb Bool.eqb orb].
  unfold get_set_rpc, mbind, lift. cbn [data_params params_split].
  change (String.eqb "set" "get") with false.
  change (String.eqb "set" "set") with true.
  assert (Hnth : nth_item (Py.split ";" p) 2 = Raise IndexError).
  { unfold nth_item.
    destruct (nth_error (Py.split ";" p) 2) eqn:E; [| reflexivity].
    assert (2 < length (Py.split ";" p))
      by (apply nth_error_Some; congruence).
    lia. }
  rewrite Hnth. cbn. repeat split.
Qed.

(** X16: a request for a method of a device that is not in the device
    list is dropped as well: the lookup [tuple(filter(...))[0]] raises
    [IndexError], nothing is called and no reply is sent. *)
Theorem device_rpc_unknown_device (c : Connector) (dev m : string)
  (p : pyparams) (id : option nat) :
  dev <> EmptyString ->
  Py.split "_" m = [m] ->
  m <> "set" -> m <> "get" ->
  filter (fun d => String.eqb (Device.name d) dev) (__device_nodes c) = [] ->
  let content :=
    Build_Content (Some dev) (Some (Build_RpcData p (Some m) id))
      None None None in
  let out := server_side_rpc_handler cl cfg content c in
  fst out = Ok None
  /\ calls (session (snd out)) = calls (session c)
  /\ replies (session (snd out)) = replies (session c)
  /\ __device_nodes (snd out) = __device_nodes c.
Proof.
  intros Hdev Hsplit Hset Hget Hnone content out. subst out content.
  unfold server_side_rpc_handler, try_except, mbind, lift, mret.
  cbn [content_data data_method connector_rpc]. rewrite Hsplit.
  unfold mbind, log_to, on_session, mmodify, mret. cbn [fst snd content_device].
  destruct dev as [| ch dev']; [now elim Hdev |].
  cbn [is_truthy str_opt].
  apply String.eqb_neq in Hset, Hget. rewrite Hset, Hget. cbn [orb].
  unfold device_rpc, mbind, mget, mraise.
  cbn [__device_nodes]. rewrite Hnone. cbn. repeat split.
Qed.




End RequestEdges.

Lemma set_rpc_too_few_arguments_witness :
  let out := server_side_rpc_handler (Demo.client Demo.rooms [] [])
               Demo.push_config
               (Demo.request "set" (PStr "ns=2;s=Temperature"))
               Demo.scanned_once in
  fst out = Ok None
  /\ calls (session (snd out)) = calls (session Demo.scanned_once)
  /\ replies (session (snd out)) = replies (session Demo.scanned_once)
  /\ __device_nodes (snd out) = __device_nodes Demo.scanned_once.
Proof.
  apply (set_rpc_too_few_arguments (Demo.client Demo.rooms [] [])
           Demo.push_config Demo.scanned_once "Dev A" "ns=2;s=Temperature"
           (Some 7)).
  - discriminate.
  - vm_compute. lia.
Defined.

Lemma device_rpc_unknown_device_witness :
  let content :=
    Build_Content (Some "Dev Z") (Some (Build_RpcData PNone (Some "a") (Some 7)))
      None None None in
  let out := server_side_rpc_handler (Demo.client Demo.rooms [] [])
               Demo.push_config content Demo.scanned_once in
  fst out = Ok None
  /\ calls (session (snd out)) = calls (session Demo.scanned_once)
  /\ replies (session (snd out)) = replies (session Demo.scanned_once)
  /\ __device_nodes (snd out) = __device_nodes Demo.scanned_once.
Proof.
  apply (device_rpc_unknown_device (Demo.client Demo.rooms [] [])
           Demo.push_config Demo.scanned_once "Dev Z" "a" PNone (Some 7)).
  - discriminate.
  - reflexivity.
  - discriminate.
  - discriminate.
  - vm_compute. reflexivity.
Defined.

